(** * ImpDAR loaders: a shallow embedding of the ApRES header decoder,
      the ApRES record model and the Gecko (.gtd) trace-file decoder.

    Embedded sources:
    - [src/impdar/lib/ApresData/__init__.py]    (module [ApresData])
    - [src/impdar/lib/ApresData/ApresHeader.py] (module [ApresHeader])
    - [src/impdar/lib/load_gecko.py]            (module [Gecko])

    Python objects whose attributes come and go at run time are finite maps
    from attribute names to values; binary64 numbers are Rocq's primitive
    floats; exceptions are values of [exn] returned in place of a result. *)

From Stdlib Require Import ZArith List String Ascii Lia Bool Floats.
From Stdlib Require Strings.Byte DecimalString.
From stdpp Require Import gmap strings.
Import ListNotations.
Local Open Scope string_scope.
Local Open Scope Z_scope.

(** ** Python values and exceptions *)

(** numpy element types met in the sources. *)
Inductive dtype := DInt16 | DInt32 | DFloat32 | DFloat64 | DStr.

Inductive pyval :=
| VNone
| VInt (z : Z)
| VFloat (f : float)
| VStr (s : string)
| VArray (d : dtype) (shape : list nat) (cells : list float)
| VDtype (d : dtype).

(** Why [check_attrs] raises: the attribute is absent, or it is [None]. *)
Inductive attr_fault := IsMissing | IsNone.

Inductive exn :=
| ImpdarError (attr : string) (why : attr_fault)
| AttributeError (name : string)
| IndexError
| ValueError
| ZeroDivisionError
| OverflowError
| UnboundLocalError (name : string)
| TypeErrorCorrupt (got expected : Z)   (* 'Corrupt Channel header, %s instead of %s' *)
| TypeErrorOperand.                     (* unsupported operand type(s) *)

Inductive result (A : Type) :=
| Ok (a : A)
| Raise (e : exn).
Arguments Ok {A} a.
Arguments Raise {A} e.

(** A Python object: attribute name to value. *)
Abbreviation pyobj := (gmap string pyval).

(** ** Python strings *)

Module PyStr.

Definition len (s : string) : Z := Z.of_nat (String.length s).

Fixpoint starts_with (p s : string) : bool :=
  match p, s with
  | EmptyString, _ => true
  | String a p', String b s' => if Ascii.eqb a b then starts_with p' s' else false
  | String _ _, EmptyString => false
  end.

(** [sub in s] *)
Fixpoint contains (sub s : string) : bool :=
  if starts_with sub s then true
  else match s with
       | EmptyString => false
       | String _ s' => contains sub s'
       end.

(** [s.find(sub)]: lowest index of an occurrence, [-1] when there is none. *)
Fixpoint find_at (sub : string) (i : Z) (s : string) : Z :=
  if starts_with sub s then i
  else match s with
       | EmptyString => -1
       | String _ s' => find_at sub (i + 1) s'
       end.
Definition find (sub s : string) : Z := find_at sub 0 s.

(** [[m.start() for m in re.finditer(pat, s)]] for a literal, non-empty
    pattern: matches are taken left to right and do not overlap. *)
Fixpoint finditer_at (pat : string) (skip : nat) (i : Z) (s : string) : list Z :=
  match s with
  | EmptyString => []
  | String _ s' =>
      match skip with
      | S k => finditer_at pat k (i + 1) s'
      | O => if starts_with pat s
             then i :: finditer_at pat (String.length pat - 1) (i + 1) s'
             else finditer_at pat 0 (i + 1) s'
      end
  end.
Definition finditer (pat s : string) : list Z := finditer_at pat 0 0 s.

Fixpoint drop (n : nat) (s : string) : string :=
  match n, s with
  | O, _ => s
  | S n', String _ s' => drop n' s'
  | S _, EmptyString => EmptyString
  end.

Fixpoint take (n : nat) (s : string) : string :=
  match n, s with
  | O, _ => EmptyString
  | S n', String a s' => String a (take n' s')
  | S _, EmptyString => EmptyString
  end.

(** A slice bound as Python normalises it: negative counts from the end,
    then clamped to [0, len]. *)
Definition bound (n i : Z) : Z :=
  let j := if i <? 0 then i + n else i in
  Z.max 0 (Z.min n j).

(** [s[lo:hi]] *)
Definition slice (s : string) (lo hi : Z) : string :=
  let a := bound (len s) lo in
  let b := bound (len s) hi in
  take (Z.to_nat (b - a)) (drop (Z.to_nat a) s).

(** [s[lo:]] *)
Definition slice_from (s : string) (lo : Z) : string :=
  drop (Z.to_nat (bound (len s) lo)) s.

(** [s[:hi]] *)
Definition slice_to (s : string) (hi : Z) : string :=
  take (Z.to_nat (bound (len s) hi)) s.

(** [s[i]]: [IndexError] out of range. *)
Definition index (s : string) (i : Z) : result ascii :=
  let j := if i <? 0 then i + len s else i in
  if (j <? 0) || (len s <=? j) then Raise IndexError
  else match String.get (Z.to_nat j) s with
       | Some c => Ok c
       | None => Raise IndexError
       end.

(** [s[::-1]] *)
Fixpoint rev_onto (s acc : string) : string :=
  match s with
  | EmptyString => acc
  | String a s' => rev_onto s' (String a acc)
  end.
Definition reverse (s : string) : string := rev_onto s EmptyString.

(** Whitespace as [int()] strips it, a character being its code point
    below 256: tab, line feed, vertical tab, form feed, carriage return
    and space, and the two spaces above 127 that [int()] turns into a
    space first, next line (133) and no-break space (160).  The
    separators 28 to 31 are not stripped. *)
Definition is_space (c : ascii) : bool :=
  let n := Z.of_N (N_of_ascii c) in
  ((9 <=? n) && (n <=? 13)) || (n =? 32) || (n =? 133) || (n =? 160).

Fixpoint lstrip (s : string) : string :=
  match s with
  | EmptyString => EmptyString
  | String c s' => if is_space c then lstrip s' else s
  end.

Fixpoint all_space (s : string) : bool :=
  match s with
  | EmptyString => true
  | String c s' => is_space c && all_space s'
  end.

(** Value of a digit character in bases up to 36. *)
Definition digit_value (c : ascii) : option Z :=
  let n := Z.of_N (N_of_ascii c) in
  if (48 <=? n) && (n <=? 57) then Some (n - 48)
  else if (97 <=? n) && (n <=? 122) then Some (n - 87)
  else if (65 <=? n) && (n <=? 90) then Some (n - 55)
  else None.

Definition is_underscore (c : ascii) : bool := Ascii.eqb c "_".

(** The digit run of an integer literal: digits below [base], single
    underscores between them.  Returns the value, the number of digits and
    the unread rest; [None] on a doubled or trailing underscore. *)
Fixpoint digits (base acc : Z) (prev_us : bool) (n : nat) (s : string)
  : option (Z * nat * string) :=
  let stop := if prev_us then None else Some (acc, n, s) in
  match s with
  | EmptyString => stop
  | String c s' =>
      if is_underscore c then
        (if prev_us then None else digits base acc true n s')
      else match digit_value c with
           | Some d => if d <? base then digits base (acc * base + d) false (S n) s'
                       else stop
           | None => stop
           end
  end.

(** Drops a [0x] / [0X] prefix (base 16 only) and one underscore after it. *)
Definition strip_prefix (base : Z) (s : string) : string :=
  match s with
  | String "0" (String x s') =>
      if (base =? 16) && (Ascii.eqb x "x" || Ascii.eqb x "X") then
        match s' with
        | String u s'' => if is_underscore u then s'' else s'
        | EmptyString => s'
        end
      else s
  | _ => s
  end.

(** [int(s, base)] for base 10 or 16: [None] stands for [ValueError]. *)
Definition parse_int (base : Z) (s : string) : option Z :=
  let s1 := lstrip s in
  let '(neg, s2) :=
    match s1 with
    | String "+" r => (false, r)
    | String "-" r => (true, r)
    | _ => (false, s1)
    end in
  let s3 := strip_prefix base s2 in
  match s3 with
  | String c _ =>
      if is_underscore c then None
      else match digits base 0 false 0 s3 with
           | Some (v, S _, rest) =>
               if all_space rest then Some (if neg then - v else v) else None
           | _ => None
           end
  | EmptyString => None
  end.

Definition int_of (base : Z) (s : string) : result Z :=
  match parse_int base s with
  | Some v => Ok v
  | None => Raise ValueError
  end.

(** Binary digits of a positive number, most significant first. *)
Fixpoint bin_pos (p : positive) (acc : string) : string :=
  match p with
  | xH => String "1" acc
  | xO q => bin_pos q (String "0" acc)
  | xI q => bin_pos q (String "1" acc)
  end.

(** [bin(z)] *)
Definition bin (z : Z) : string :=
  match z with
  | Z0 => "0b0"
  | Zpos p => "0b" ++ bin_pos p EmptyString
  | Zneg p => "-0b" ++ bin_pos p EmptyString
  end.

End PyStr.

(** ** Python numbers on binary64 *)

Module PyNum.

(** [float(z)]: the nearest binary64, ties to even; [OverflowError] when
    the integer is too large for a finite float. *)
Definition float_of_int (z : Z) : result float :=
  match binary_normalize prec emax z 0 false with
  | S754_infinity _ => Raise OverflowError
  | sf => Ok (SF2Prim sf)
  end.

(** The integer part and the position of the remainder against one half,
    for a finite non-zero float of magnitude [m * 2^e]. *)
Definition split_half (m : positive) (e : Z) : Z * comparison :=
  if 0 <=? e then (Z.pos m * 2 ^ e, Lt)
  else
    let d := 2 ^ (- e) in
    let q := Z.pos m / d in
    let r := Z.pos m mod d in
    (q, if r =? 0 then Lt else Z.compare (2 * r) d).

(** [int(f)]: truncation towards zero. *)
Definition int_of_float (f : float) : result Z :=
  match Prim2SF f with
  | S754_nan => Raise ValueError
  | S754_infinity _ => Raise OverflowError
  | S754_zero _ => Ok 0
  | S754_finite s m e =>
      let q := fst (split_half m e) in Ok (if s then - q else q)
  end.

(** [round(f)]: the nearest integer, ties to even. *)
Definition round (f : float) : result Z :=
  match Prim2SF f with
  | S754_nan => Raise ValueError
  | S754_infinity _ => Raise OverflowError
  | S754_zero _ => Ok 0
  | S754_finite s m e =>
      let '(q, c) := split_half m e in
      let q' := match c with
                | Gt => q + 1
                | Eq => if Z.even q then q else q + 1
                | Lt => q
                end in
      Ok (if s then - q' else q')
  end.

(** [a / b] on floats raises on a zero divisor (of either sign). *)
Definition fdiv (a b : float) : result float :=
  if PrimFloat.eqb b 0%float then Raise ZeroDivisionError
  else Ok (PrimFloat.div a b).

(** [f <= z] between a float and an int: Python compares the two
    numbers exactly, without converting the int. *)
Definition le_int (f : float) (z : Z) : bool :=
  match Prim2SF f with
  | S754_nan => false
  | S754_infinity s => s
  | S754_zero _ => 0 <=? z
  | S754_finite s m e =>
      let v := if s then Z.neg m else Z.pos m in
      if 0 <=? e then v * 2 ^ e <=? z else v <=? z * 2 ^ (- e)
  end.

End PyNum.

(** ** Binary64 numbers by mantissa and exponent *)

Module Binary64.

(** The integer nearest to [a / b], ties to even, for [0 <= a] and
    [0 < b]: how a mantissa is rounded. *)
Definition rnd (a b : Z) : Z :=
  match Z.compare (2 * (a mod b)) b with
  | Lt => a / b
  | Eq => if Z.even (a / b) then a / b else a / b + 1
  | Gt => a / b + 1
  end.

(** The binary64 number of sign [s] and magnitude [m * 2^e], for a
    mantissa [m] from [2^52] to [2^53]: infinite beyond the largest
    exponent. *)
Definition pack (s : bool) (m e : Z) : spec_float :=
  if m <? 2 ^ 53 then
    if e <=? 971 then S754_finite s (Z.to_pos m) e else S754_infinity s
  else
    if e + 1 <=? 971 then S754_finite s (Z.to_pos (2 ^ 52)) (e + 1) else S754_infinity s.

(** The mantissa of 40000.0, whose exponent is -37. *)
Definition m4e4 : positive := 5497558138880000.

End Binary64.

(** ** ApresData: the record model and its attribute check
    ([src/impdar/lib/ApresData/__init__.py]) *)

Module ApresData.

(** [ApresData.attrs_guaranteed] *)
Definition attrs_guaranteed : list string :=
  ["data"; "decday"; "dt"; "lat"; "long"; "snum"; "tnum"; "trace_num"; "travel_time"].

(** [ApresData.attrs_optional] *)
Definition attrs_optional : list string :=
  ["x_coord"; "y_coord"; "elev"; "fn"; "file_read_code"].

(** [ApresData(None)]: every attribute declared and [None]; [flags] holds
    the [ApresFlags()] object. *)
Definition init_None : pyobj :=
  <["snum" := VNone]> (<["tnum" := VNone]> (<["data" := VNone]> (<["dt" := VNone]> (
  <["decday" := VNone]> (<["lat" := VNone]> (<["long" := VNone]> (
  <["trace_num" := VNone]> (<["travel_time" := VNone]> (
  <["fn" := VNone]> (<["file_read_code" := VNone]> (<["x_coord" := VNone]> (
  <["y_coord" := VNone]> (<["elev" := VNone]> (
  <["flags" := VStr "ApresFlags()"]> (<["data_dtype" := VNone]> ∅))))))))))))))).

(** First loop of [check_attrs]: a guaranteed attribute must exist and
    must not be [None]. *)
Fixpoint check_guaranteed (self : pyobj) (attrs : list string) : result unit :=
  match attrs with
  | [] => Ok tt
  | attr :: rest =>
      match self !! attr with
      | None => Raise (ImpdarError attr IsMissing)
      | Some VNone => Raise (ImpdarError attr IsNone)
      | Some _ => check_guaranteed self rest
      end
  end.

(** Second loop: an optional attribute must exist ([None] is fine). *)
Fixpoint check_optional (self : pyobj) (attrs : list string) : result unit :=
  match attrs with
  | [] => Ok tt
  | attr :: rest =>
      match self !! attr with
      | None => Raise (ImpdarError attr IsMissing)
      | Some _ => check_optional self rest
      end
  end.

(** [v.dtype]: numpy arrays carry one, plain Python values do not. *)
Definition dtype_of (v : pyval) : result pyval :=
  match v with
  | VArray d _ _ => Ok (VDtype d)
  | _ => Raise (AttributeError "dtype")
  end.

(** [ApresData.check_attrs]: returns the object as the call leaves it. *)
Definition check_attrs (self : pyobj) : result pyobj :=
  match check_guaranteed self attrs_guaranteed with
  | Raise e => Raise e
  | Ok _ =>
      match check_optional self attrs_optional with
      | Raise e => Raise e
      | Ok _ =>
          let fill :=
            match self !! "data" with
            | None => Raise (AttributeError "data")
            | Some data =>
                match dtype_of data with
                | Raise e => Raise e
                | Ok d => Ok (<["data_dtype" := d]> self)
                end
            end in
          match self !! "data_dtype" with
          | None => fill
          | Some VNone => fill
          | Some _ => Ok self
          end
      end
  end.

(** An instance as a loader leaves it: arrays and scalars in the required
    attributes, the optional ones declared and [None]. *)
Definition populated_model : pyobj :=
  <["data" := VArray DFloat64 [2; 1]%nat [1%float; 2%float]]> (
  <["decday" := VArray DFloat64 [1]%nat [737000%float]]> (
  <["dt" := VFloat 0.5]> (
  <["lat" := VArray DFloat64 [1]%nat [0%float]]> (
  <["long" := VArray DFloat64 [1]%nat [0%float]]> (
  <["snum" := VInt 2]> (
  <["tnum" := VInt 1]> (
  <["trace_num" := VArray DFloat64 [1]%nat [1%float]]> (
  <["travel_time" := VArray DFloat64 [2]%nat [0%float; 0.5%float]]> init_None)))))))).

End ApresData.

(** ** A state-and-exception monad over one Python object

    A method body runs on [self]; when it raises, the attributes assigned so
    far stay assigned, so the object is returned next to the outcome. *)

Module Obj.

Definition M (A : Type) : Type := pyobj -> result A * pyobj.

Definition ret {A} (a : A) : M A := fun self => (Ok a, self).
Definition raise {A} (e : exn) : M A := fun self => (Raise e, self).
Definition bind {A B} (m : M A) (k : A -> M B) : M B :=
  fun self =>
    match m self with
    | (Ok a, self') => k a self'
    | (Raise e, self') => (Raise e, self')
    end.
Definition lift {A} (r : result A) : M A := fun self => (r, self).

(** [self.name = v] *)
Definition setattr (name : string) (v : pyval) : M unit :=
  fun self => (Ok tt, <[name := v]> self).

(** [self.name] *)
Definition getattr (name : string) : M pyval :=
  fun self =>
    match self !! name with
    | Some v => (Ok v, self)
    | None => (Raise (AttributeError name), self)
    end.

(** An attribute used as a float, an int or a str; a value of another
    kind fails the operation it is used in. *)
Definition get_float (name : string) : M float :=
  bind (getattr name) (fun v =>
    match v with VFloat f => ret f | _ => raise TypeErrorOperand end).
Definition get_int (name : string) : M Z :=
  bind (getattr name) (fun v =>
    match v with VInt z => ret z | _ => raise TypeErrorOperand end).
Definition get_str (name : string) : M string :=
  bind (getattr name) (fun v =>
    match v with VStr s => ret s | _ => raise TypeErrorOperand end).

(** [m] assigns no attribute outside [keys], whether it returns or raises. *)
Definition touches {A} (m : M A) (keys : list string) : Prop :=
  forall s r s', m s = (r, s') -> forall k, k ∉ keys -> s' !! k = s !! k.

(** [m] assigns nothing at all. *)
Definition reads {A} (m : M A) : Prop :=
  forall s r s', m s = (r, s') -> s' = s.

(** [m] cannot get past a missing attribute [a]: it raises, having
    assigned nothing. *)
Definition needs {A} (m : M A) (a : string) : Prop :=
  forall s, s !! a = None -> exists e, m s = (Raise e, s).

(** [m] raises from [s], leaving no attribute changed outside [keys]. *)
Definition raises_within {A} (m : M A) (keys : list string) (s : pyobj) : Prop :=
  exists e s', m s = (Raise e, s') /\ forall k, k ∉ keys -> s' !! k = s !! k.

End Obj.

Declare Scope obj_scope.
Delimit Scope obj_scope with obj.
Notation "x <- m ;; k" := (Obj.bind m (fun x => k))
  (at level 100, m at next level, k at level 200, right associativity) : obj_scope.
Notation "m ;; k" := (Obj.bind m (fun _ => k))
  (at level 100, k at level 200, right associativity) : obj_scope.

(** ** ApresHeader ([src/impdar/lib/ApresData/ApresHeader.py]) *)

Module ApresHeader.
Import Obj.
Local Open Scope obj_scope.

(** The double-quote character. *)
Definition dq : ascii := "034"%char.
Definition dq_str : string := String dq EmptyString.
(** The two-character delimiter between a register name and its payload. *)
Definition eq_dq : string := String "=" dq_str.

(** [np.pi] *)
Definition np_pi : float := 0x1.921fb54442d18p+1%float.

(** [ApresHeader.__init__] *)
Definition init : pyobj :=
  <["fs" := VFloat 4e4]> (<["fsysclk" := VFloat 1e9]> ∅).

(** The object after [__init__] once [self.header] holds the text [h]
    ([read_header] stores [str] of the first bytes of the file). *)
Definition with_header (h : string) : pyobj := <["header" := VStr h]> init.

(** [ApresHeader.file_format].  The last branch builds a [TypeError] and
    drops it: the source has no [raise] there. *)
Definition file_format : M unit :=
  header <- get_str "header" ;;
  if PyStr.contains "SW_Issue=" header then setattr "fileformat" (VInt 5)
  else if PyStr.contains "SubBursts in burst:" header then setattr "file_format" (VInt 4)
  else if PyStr.contains "*** Burst Header ***" header then setattr "file_format" (VInt 3)
  else if PyStr.contains "RADAR TIME" header then setattr "file_format" (VInt 2)
  else ret tt.

(** [l[k]] on a Python list. *)
Definition list_index (l : list Z) (k : nat) : M Z :=
  match nth_error l k with
  | Some v => ret v
  | None => raise IndexError
  end.

(** [int(c)] for a one-character string. *)
Definition int_of_char (c : ascii) : M Z :=
  lift (PyStr.int_of 10 (String c EmptyString)).

(** [i * f] and [i / f] with a Python int on the left. *)
Definition int_times (i : Z) (f : float) : M float :=
  x <- lift (PyNum.float_of_int i) ;; ret (PrimFloat.mul x f).
Definition int_over (i : Z) (f : float) : M float :=
  x <- lift (PyNum.float_of_int i) ;; lift (PyNum.fdiv x f).

(** [int(txt, 16)*self.fsysclk/(2**32)] *)
Definition scaled_by_clock (txt : string) : M float :=
  i <- lift (PyStr.int_of 16 txt) ;;
  fsysclk <- get_float "fsysclk" ;;
  p <- int_times i fsysclk ;;
  ret (PrimFloat.div p 4294967296%float).

(** [int(txt, 16)*4/self.fsysclk] *)
Definition scaled_time (txt : string) : M float :=
  i <- lift (PyStr.int_of 16 txt) ;;
  fsysclk <- get_float "fsysclk" ;;
  int_over (i * 4) fsysclk.

(** The quoted payload after the delimiter found at [l2]: [loc3] is where
    the closing quote is found in [header[l2+2:]], and
    [val = header[l2+2 : l2+loc3+2]]. *)
Definition payload (header : string) (l2 : Z) : string :=
  let loc3 := PyStr.find dq_str (PyStr.slice_from header (l2 + 2)) in
  PyStr.slice header (l2 + 2) (l2 + loc3 + 2).

(** One pass of the register loop: [case = header[loc1[k]:loc2[k]]]. *)
Definition register_case (header : string) (l1 l2 : Z) : M unit :=
  let case := PyStr.slice header l1 l2 in
  if String.eqb case "Reg01" then
    let val := payload header l2 in
    i <- lift (PyStr.int_of 16 val) ;;
    let val := PyStr.reverse (PyStr.bin i) in
    c18 <- lift (PyStr.index val 18) ;;
    hi <- int_of_char c18 ;;
    setattr "noDwellHigh" (VInt hi) ;;
    c17 <- lift (PyStr.index val 17) ;;
    lo <- int_of_char c17 ;;
    setattr "noDwellLow" (VInt lo)
  else if String.eqb case "Reg0B" then
    let val := payload header l2 in
    start <- scaled_by_clock (PyStr.slice_from val 8) ;;
    setattr "startFreq" (VFloat start) ;;
    stop <- scaled_by_clock (PyStr.slice_to val 8) ;;
    setattr "stopFreq" (VFloat stop)
  else if String.eqb case "Reg0C" then
    let val := payload header l2 in
    up <- scaled_by_clock (PyStr.slice_from val 8) ;;
    setattr "rampUpStep" (VFloat up) ;;
    down <- scaled_by_clock (PyStr.slice_to val 8) ;;
    setattr "rampDownStep" (VFloat down)
  else if String.eqb case "Reg0D" then
    let val := payload header l2 in
    up <- scaled_time (PyStr.slice_from val 4) ;;
    setattr "tstepUp" (VFloat up) ;;
    down <- scaled_time (PyStr.slice_to val 4) ;;
    setattr "tstepDown" (VFloat down)
  else ret tt.

(** [for k in range(len(loc1))]: [loc1] is walked, [loc2] is indexed. *)
Fixpoint register_loop (header : string) (loc1 loc2 : list Z) (k : nat) : M unit :=
  match loc1 with
  | [] => ret tt
  | l1 :: rest =>
      l2 <- list_index loc2 k ;;
      register_case header l1 l2 ;;
      register_loop header rest loc2 (S k)
  end.

(** A cell of the [<U32] array [output]: longer text is cut to 32
    characters on assignment. *)
Definition u32 (s : string) : string := PyStr.take 32 s.

(** One pass of the token loop; [cell] is what [output[i]] held before. *)
Definition token_value (header token cell : string) : string :=
  if PyStr.contains token header then
    let search_start := PyStr.find token header in
    let search_end := PyStr.find "\" (PyStr.slice_from header search_start) in
    u32 (PyStr.slice header (search_start + PyStr.len token) (search_end + search_start))
  else cell.

(** [a == b] between the kinds of value compared in the source: a str
    is never equal to a number. *)
Definition py_eq (a b : pyval) : bool :=
  match a, b with
  | VInt x, VInt y => x =? y
  | VFloat x, VFloat y => PrimFloat.eqb x y
  | VStr s, VStr t => String.eqb s t
  | VNone, VNone => true
  | _, _ => false
  end.

(** Lines 167-171: [self.fs = output[0]], then one of the two rates. *)
Definition sampling_rate (out0 : string) : M unit :=
  setattr "fs" (VStr out0) ;;
  fs <- getattr "fs" ;;
  if py_eq fs (VInt 1) then setattr "fs" (VFloat 8e4)
  else setattr "fs" (VFloat 4e4).

(** [self.chirpLength * self.fs]: the chirp length is an int until it is
    clamped, a float afterwards. *)
Definition times_float (v : pyval) (f : float) : M float :=
  match v with
  | VInt i => int_times i f
  | VFloat x => ret (PrimFloat.mul x f)
  | _ => raise TypeErrorOperand
  end.

(** Line 173: [self.snum = int(output[1])] *)
Definition set_snum (out1 : string) : M unit :=
  snum <- lift (PyStr.int_of 10 out1) ;;
  setattr "snum" (VInt snum).

(** Line 175:
    [self.nstepsDDS = round(abs((self.stopFreq - self.startFreq)/self.rampUpStep))] *)
Definition set_nstepsDDS : M unit :=
  stopFreq <- get_float "stopFreq" ;;
  startFreq <- get_float "startFreq" ;;
  rampUpStep <- get_float "rampUpStep" ;;
  q <- lift (PyNum.fdiv (PrimFloat.sub stopFreq startFreq) rampUpStep) ;;
  nstepsDDS <- lift (PyNum.round (PrimFloat.abs q)) ;;
  setattr "nstepsDDS" (VInt nstepsDDS).

(** Line 176: [self.chirpLength = int(self.nstepsDDS * self.tstepUp)] *)
Definition set_chirpLength : M unit :=
  nstepsDDS <- get_int "nstepsDDS" ;;
  tstepUp <- get_float "tstepUp" ;;
  p <- int_times nstepsDDS tstepUp ;;
  chirpLength <- lift (PyNum.int_of_float p) ;;
  setattr "chirpLength" (VInt chirpLength).

(** Line 177: [self.nchirpSamples = round(self.chirpLength * self.fs)] *)
Definition set_nchirpSamples : M unit :=
  chirpLength <- getattr "chirpLength" ;;
  fs <- get_float "fs" ;;
  p <- times_float chirpLength fs ;;
  nchirpSamples <- lift (PyNum.round p) ;;
  setattr "nchirpSamples" (VInt nchirpSamples).

(** Lines 181-182:
    [if self.nchirpSamples > self.snum: self.chirpLength = self.snum / self.fs] *)
Definition clamp_chirpLength : M unit :=
  nchirpSamples <- get_int "nchirpSamples" ;;
  snum <- get_int "snum" ;;
  if snum <? nchirpSamples then
    snum <- get_int "snum" ;;
    fs <- get_float "fs" ;;
    c <- int_over snum fs ;;
    setattr "chirpLength" (VFloat c)
  else ret tt.

(** Line 184: [self.K = 2.*np.pi*(self.rampUpStep/self.tstepUp)] *)
Definition set_K : M unit :=
  rampUpStep <- get_float "rampUpStep" ;;
  tstepUp <- get_float "tstepUp" ;;
  g <- lift (PyNum.fdiv rampUpStep tstepUp) ;;
  setattr "K" (VFloat (PrimFloat.mul (PrimFloat.mul 2%float np_pi) g)).

(** Lines 185-188: [down] above 400 MHz, [up] otherwise. *)
Definition set_rampDir : M unit :=
  stopFreq <- get_float "stopFreq" ;;
  if PrimFloat.ltb 400e6%float stopFreq then setattr "rampDir" (VStr "down")
  else setattr "rampDir" (VStr "up").

(** [self.noDwellHigh and self.noDwellLow] as a condition: the second
    attribute is read only when the first is not zero. *)
Definition both_no_dwell : M bool :=
  noDwellHigh <- get_int "noDwellHigh" ;;
  if noDwellHigh =? 0 then ret false
  else noDwellLow <- get_int "noDwellLow" ;; ret (negb (noDwellLow =? 0)).

(** Lines 190-192 *)
Definition apply_no_dwell : M unit :=
  both <- both_no_dwell ;;
  if both then
    setattr "rampDir" (VStr "upDown") ;;
    setattr "nchirpsPerPeriod" (VFloat PrimFloat.nan)
  else ret tt.

(** Lines 173-192 of [update_parameters], statement by statement. *)
Definition derive (out1 : string) : M unit :=
  set_snum out1 ;;
  set_nstepsDDS ;;
  set_chirpLength ;;
  set_nchirpSamples ;;
  clamp_chirpLength ;;
  set_K ;;
  set_rampDir ;;
  apply_no_dwell.

(** [ApresHeader.update_parameters].  [cell0] and [cell1] are the texts
    [np.empty((2)).astype(str)] happens to hold: each stays in [output]
    when its token is not in the header. *)
Definition update_parameters (cell0 cell1 : string) : M unit :=
  header <- get_str "header" ;;
  let loc1 := PyStr.finditer "Reg0" header in
  let loc2 := PyStr.finditer eq_dq header in
  register_loop header loc1 loc2 0 ;;
  let out0 := token_value header "SamplingFreqMode=" (u32 cell0) in
  let out1 := token_value header "N_ADC_SAMPLES=" (u32 cell1) in
  sampling_rate out0 ;;
  derive out1.

(** What a run leaves behind. *)
Definition outcome {A} (r : result A * pyobj) : result A := fst r.
Definition final {A} (r : result A * pyobj) : pyobj := snd r.

(** *** Readings of the decoded object used to state its properties *)

(** Both no-dwell flags are set, read the way [both_no_dwell] reads them. *)
Definition flags_both (s : pyobj) : bool :=
  match s !! "noDwellHigh" with
  | Some (VInt hi) =>
      if hi =? 0 then false
      else match s !! "noDwellLow" with
           | Some (VInt lo) => negb (lo =? 0)
           | _ => false
           end
  | _ => false
  end.

(** [self.chirpLength * self.fs] on the decoded object. *)
Definition chirp_samples (s : pyobj) : option float :=
  match s !! "chirpLength", s !! "fs" with
  | Some (VInt c), Some (VFloat fs) =>
      match PyNum.float_of_int c with
      | Ok x => Some (PrimFloat.mul x fs)
      | Raise _ => None
      end
  | Some (VFloat c), Some (VFloat fs) => Some (PrimFloat.mul c fs)
  | _, _ => None
  end.

(** [self.chirpLength * self.fs <= self.snum] *)
Definition within_budget (s : pyobj) : bool :=
  match chirp_samples s, s !! "snum" with
  | Some p, Some (VInt n) =>
      match PyNum.float_of_int n with
      | Ok x => PrimFloat.leb p x
      | Raise _ => false
      end
  | _, _ => false
  end.

(** The four registers the derived parameters are computed from. *)
Definition required_registers : list string := ["Reg01"; "Reg0B"; "Reg0C"; "Reg0D"].

(** The derived attributes whose value depends on a register: the ramp
    step count and what is computed from it on [Reg0B] and [Reg0C], the
    chirp gradient on [Reg0C] and [Reg0D], the ramp direction on the stop
    frequency ([Reg0B]) and on the no-dwell flags ([Reg01]). *)
Definition derived_from (reg : string) : list string :=
  if String.eqb reg "Reg01" then ["rampDir"; "nchirpsPerPeriod"]
  else if String.eqb reg "Reg0B" then ["nstepsDDS"; "chirpLength"; "nchirpSamples"; "rampDir"]
  else if String.eqb reg "Reg0C" then ["nstepsDDS"; "chirpLength"; "nchirpSamples"; "K"]
  else if String.eqb reg "Reg0D" then ["chirpLength"; "nchirpSamples"; "K"]
  else [].

(** A decode of [header] that fails without having computed any derived
    attribute that depends on [reg]. *)
Definition fails_before (cell0 cell1 header reg : string) : Prop :=
  exists e s',
    update_parameters cell0 cell1 (with_header header) = (Raise e, s') /\
    forall a, a ∈ derived_from reg -> s' !! a = None.

(** The attributes a run can have assigned by the time it stops on an
    attribute of a register that is not in the header. *)
Definition keys_Reg0B : list string :=
  ["noDwellHigh"; "noDwellLow"; "rampUpStep"; "rampDownStep"; "tstepUp"; "tstepDown";
   "fs"; "snum"].
Definition keys_Reg0C : list string :=
  ["noDwellHigh"; "noDwellLow"; "startFreq"; "stopFreq"; "tstepUp"; "tstepDown";
   "fs"; "snum"].
Definition keys_Reg0D : list string :=
  ["noDwellHigh"; "noDwellLow"; "startFreq"; "stopFreq"; "rampUpStep"; "rampDownStep";
   "fs"; "snum"; "nstepsDDS"].
Definition keys_Reg01 : list string :=
  ["startFreq"; "stopFreq"; "rampUpStep"; "rampDownStep"; "tstepUp"; "tstepDown";
   "fs"; "snum"; "nstepsDDS"; "chirpLength"; "nchirpSamples"; "K"; "rampDir"].

(** *** Example headers *)

Definition reg (name payload : string) : string :=
  name ++ eq_dq ++ payload ++ dq_str ++ "\r\n".

(** A header with the four registers and the two tokens, as [str] renders
    the bytes: ramp from 200 MHz to 400 MHz, [flags] in [Reg01], sampling
    mode [mode] and [samples] ADC samples. *)
Definition example_header (flags mode samples : string) : string :=
  "b'" ++ reg "Reg01" flags ++ reg "Reg0B" "6666666633333333" ++
  reg "Reg0C" "0000000100000001" ++ reg "Reg0D" "00010001" ++
  "SamplingFreqMode=" ++ mode ++ "\r\nN_ADC_SAMPLES=" ++ samples ++ "\r\n'".

(** The same without [Reg01]. *)
Definition header_without_Reg01 : string :=
  "b'" ++ reg "Reg0B" "6666666633333333" ++
  reg "Reg0C" "0000000100000001" ++ reg "Reg0D" "00010001" ++
  "SamplingFreqMode=0\r\nN_ADC_SAMPLES=40000\r\n'".

(** The object a fresh [ApresHeader] becomes when it decodes [header];
    the cells of [output] start as the text of [0.0]. *)
Definition decode (header : string) : result unit * pyobj :=
  update_parameters "0.0" "0.0" (with_header header).

End ApresHeader.

(** ** Binary data: little-endian fields and IEEE bit patterns *)

Module Bin.

Definition Z_of_byte (b : Byte.byte) : Z := Z.of_N (Byte.to_N b).

Definition byte_of_Z (z : Z) : Byte.byte :=
  match Byte.of_N (Z.to_N (z mod 256)) with
  | Some b => b
  | None => Byte.x00
  end.

(** The unsigned value of a little-endian field. *)
Fixpoint le_unsigned (bs : list Byte.byte) : Z :=
  match bs with
  | [] => 0
  | b :: rest => Z_of_byte b + 256 * le_unsigned rest
  end.

(** Two's complement reading of a [bits]-wide unsigned value. *)
Definition signed (bits z : Z) : Z :=
  if z <? 2 ^ (bits - 1) then z else z - 2 ^ bits.

(** Wrap-around of a [bits]-wide signed integer (numpy fixed-width
    scalars overflow silently). *)
Definition wrap (bits z : Z) : Z := signed bits (z mod 2 ^ bits).

(** The [n] little-endian bytes of [z] (two's complement for negatives). *)
Fixpoint le_bytes (n : nat) (z : Z) : list Byte.byte :=
  match n with
  | O => []
  | S n' => byte_of_Z z :: le_bytes n' (z / 256)
  end.

(** [float(z)] where it cannot overflow: the nearest binary64. *)
Definition Z2F (z : Z) : float := SF2Prim (binary_normalize prec emax z 0 false).

(** The number an IEEE 754 bit pattern denotes, as a binary64, for a
    format with [ebits] exponent bits and [mbits] stored mantissa bits
    (11/52 for float64, 8/23 for float32; every float32 is a binary64). *)
Definition ieee_of_bits (ebits mbits b : Z) : float :=
  let s := Z.testbit b (ebits + mbits) in
  let e := Z.land (Z.shiftr b mbits) (2 ^ ebits - 1) in
  let m := Z.land b (2 ^ mbits - 1) in
  let bias := 2 ^ (ebits - 1) - 1 in
  if e =? 2 ^ ebits - 1 then
    (if m =? 0 then (if s then neg_infinity else infinity) else nan)
  else if e =? 0 then
    match m with
    | Zpos p => SF2Prim (S754_finite s p (1 - bias - mbits)%Z)
    | _ => if s then neg_zero else zero
    end
  else
    match (m + 2 ^ mbits)%Z with
    | Zpos p => SF2Prim (S754_finite s p (e - bias - mbits)%Z)
    | _ => nan
    end.

Definition f64_of_bits (b : Z) : float := ieee_of_bits 11 52 b.
Definition f32_of_bits (b : Z) : float := ieee_of_bits 8 23 b.

(** Decoders of one item of each numpy type read by the loader. *)
Definition uint8 (bs : list Byte.byte) : Z := le_unsigned bs.
Definition int8 (bs : list Byte.byte) : Z := signed 8 (le_unsigned bs).
Definition int16 (bs : list Byte.byte) : Z := signed 16 (le_unsigned bs).
Definition int32 (bs : list Byte.byte) : Z := signed 32 (le_unsigned bs).
Definition float32 (bs : list Byte.byte) : float := f32_of_bits (le_unsigned bs).
Definition float64 (bs : list Byte.byte) : float := f64_of_bits (le_unsigned bs).

End Bin.

(** ** A forward-only reader over the bytes left in the file *)

Module Rd.

(** The state is what is left to read: [fid.tell() < eof] holds exactly
    when it is not empty. *)
Definition R (A : Type) : Type := list Byte.byte -> result (A * list Byte.byte).

Definition ret {A} (a : A) : R A := fun bs => Ok (a, bs).
Definition raise {A} (e : exn) : R A := fun _ => Raise e.
Definition bind {A B} (m : R A) (k : A -> R B) : R B :=
  fun bs =>
    match m bs with
    | Ok (a, bs') => k a bs'
    | Raise e => Raise e
    end.

(** The complete items among the next [count] items of [size] bytes. *)
Fixpoint items (size count : nat) (bs : list Byte.byte) : list (list Byte.byte) :=
  match count with
  | O => []
  | S c =>
      if (length bs <? size)%nat then []
      else firstn size bs :: items size c (skipn size bs)
  end.

(** [np.fromfile(fid, dtype, count)]: never fails; a short file gives
    fewer items, and the cursor moves over every byte that was read. *)
Definition fromfile {A} (size : nat) (dec : list Byte.byte -> A) (count : nat) : R (list A) :=
  fun bs => Ok (map dec (items size count bs), skipn (size * count) bs).

(** [a[0]] on the array just read. *)
Definition first {A} (a : list A) : R A :=
  match a with
  | x :: _ => ret x
  | [] => raise IndexError
  end.

(** [np.fromfile(fid, dtype, 1)[0]] *)
Definition one {A} (size : nat) (dec : list Byte.byte -> A) : R A :=
  bind (fromfile size dec 1) first.

(** [fid.read(n)] *)
Definition read (n : nat) : R (list Byte.byte) :=
  fun bs => Ok (firstn n bs, skipn n bs).

End Rd.

Declare Scope rd_scope.
Delimit Scope rd_scope with rd.
Notation "x <- m ;; k" := (Rd.bind m (fun x => k))
  (at level 100, m at next level, k at level 200, right associativity) : rd_scope.
Notation "m ;; k" := (Rd.bind m (fun _ => k))
  (at level 100, k at level 200, right associativity) : rd_scope.

(** ** The Gecko / St. Olaf trace-file loader ([src/impdar/lib/load_gecko.py]) *)

Module Gecko.
Import Rd Bin.
Local Open Scope rd_scope.

(** [date(1970,1,1).toordinal()] *)
Definition epoch_ordinal : float := 719163%float.

(** The version thresholds, as the binary64 numbers the literals
    [3.21], [3.8], [3.6] and [3.2] denote. *)
Definition v3_21 : float := 0x1.9ae147ae147aep+1%float.
Definition v3_8 : float := 0x1.e666666666666p+1%float.
Definition v3_6 : float := 0x1.ccccccccccccdp+1%float.
Definition v3_2 : float := 0x1.999999999999ap+1%float.

(** [self.Version = np.fromfile(fid, np.int16, 1)[0]/100] *)
Definition version_of (raw : Z) : float := PrimFloat.div (Z2F raw) 100%float.

(** The file header, as [__init__] stores it on [self].  A label that an
    unknown code leaves unassigned is [None]. *)
Record header := {
  Version : float;
  Filename : list Byte.byte;
  Serialtime : float;
  Timezone : Z;
  nChannels : Z;
  RecordMode : Z;
  RecordModeString : option string;
  RecordInterval : Z;
  NumberOfStacks : Z;
  SampFreq : float;
  dt : float;
  PreTriggerDepth : Z;
  PostTriggerDepth : Z;
  snum : Z;
  TriggerSource : Z;
  triggersourceString : option string;
  TriggerSlope : Z;
  TriggerSlopeString : option string;
  ExtTriggerRange : Z;
  ExtTriggerCoupling : Z;
  ExtTriggerCouplingString : option string;
  OdometerCalibration : option Z;
  NominalFrequency : pyval;
  AntennaSeparation : float
}.

(** Row [nn] of the per-channel arrays. *)
Record channel_header := {
  ChName : string;
  VoltRange : Z;
  Impedance : Z;
  ImpedanceString : option string;
  Coupling : Z;
  CouplingString : option string
}.

(** The per-trace arrays grown by the trace loop; [data] holds one row
    per stored trace until it is transposed. *)
Record traces := {
  trace_num : list float;
  decday : list float;
  trace_int : list float;
  trig_level : list float;
  Odometer : list float;
  pressure : list float;
  lat : list float;
  long : list float;
  elev : list float;
  GPSResolution : list float;
  data : list (list float)
}.

(** The finished object. *)
Record gecko_obj := {
  hdr : header;
  chan : Z;
  channels : list channel_header;
  travel_time : list float;
  cols : traces;
  tnum : Z;
  x_coord : list float;
  y_coord : list float;
  dist : list Z;
  trig : list float
}.

Definition lt (v c : float) : bool := PrimFloat.ltb v c.

Definition label (code : Z) (table : list (Z * string)) : option string :=
  snd <$> List.find (fun p => fst p =? code) table.

(** Lines 67-137: the file header. *)
Definition file_header : R header :=
  raw_version <- one 2 int16 ;;
  let Version := version_of raw_version in
  Filename <- read 64 ;;
  serial <- one 8 float64 ;;
  tz <- one 2 int16 ;;
  nChannels <- one 1 uint8 ;;
  RecordMode <- one 1 uint8 ;;
  RecordInterval <- one 2 int16 ;;
  NumberOfStacks <- one 2 int16 ;;
  samp <- one 2 int16 ;;
  let SampFreq := PrimFloat.mul (Z2F samp) 1e6%float in
  PreTriggerDepth <- one 2 int16 ;;
  PostTriggerDepth <- one 2 int16 ;;
  TriggerSource <- one 1 int8 ;;
  TriggerSlope <- one 1 uint8 ;;
  ExtTriggerRange <- one 2 int16 ;;
  ExtTriggerCoupling <- one 1 uint8 ;;
  OdometerCalibration <-
    (if lt Version v3_21 then x <- one 2 int16 ;; ret (Some x) else ret None) ;;
  NominalFrequency <-
    (if lt Version v3_8 then x <- one 2 int16 ;; ret (VInt x)
     else x <- one 4 float32 ;; ret (VFloat x)) ;;
  AntennaSeparation <- one 4 float32 ;;
  (if lt Version v3_6 then fromfile 1 int8 27 else ret []) ;;
  ret {| Version := Version;
         Filename := Filename;
         Serialtime := PrimFloat.add serial epoch_ordinal;
         Timezone := tz / 1440;
         nChannels := nChannels;
         RecordMode := RecordMode;
         RecordModeString :=
           label RecordMode [(0, "Odometer"); (1, "Stacks"); (2, "Time")];
         RecordInterval := RecordInterval;
         NumberOfStacks := NumberOfStacks;
         SampFreq := SampFreq;
         dt := PrimFloat.div 1%float SampFreq;
         PreTriggerDepth := PreTriggerDepth;
         PostTriggerDepth := PostTriggerDepth;
         snum := wrap 16 (PreTriggerDepth + PostTriggerDepth);
         TriggerSource := TriggerSource;
         triggersourceString :=
           label TriggerSource [(1, "Channel A"); (2, "Channel B"); (-1, "External")];
         TriggerSlope := TriggerSlope;
         TriggerSlopeString := label TriggerSlope [(0, "Positive"); (1, "Negative")];
         ExtTriggerRange := ExtTriggerRange;
         ExtTriggerCoupling := ExtTriggerCoupling;
         ExtTriggerCouplingString := label ExtTriggerCoupling [(0, "DC"); (1, "AC")];
         OdometerCalibration := OdometerCalibration;
         NominalFrequency := NominalFrequency;
         AntennaSeparation := AntennaSeparation |}.

(** [str(n)] *)
Definition str_of_int (n : Z) : string :=
  DecimalString.NilZero.string_of_int (Z.to_int n).

(** Lines 143-177: one channel header; [nn] is the 0-based loop index. *)
Definition channel_header_at (h : header) (nn : Z) : R channel_header :=
  nChan <- one 1 uint8 ;;
  if negb (nChan =? nn + 1) then raise (TypeErrorCorrupt nChan (nn + 1))
  else
    VoltRange <- one 2 int16 ;;
    Impedance <- one 1 uint8 ;;
    Coupling <- one 1 uint8 ;;
    (if lt (Version h) v3_6 then fromfile 1 int8 27 else ret []) ;;
    ret {| ChName := "Channel" ++ str_of_int nChan;
           VoltRange := VoltRange;
           Impedance := Impedance;
           ImpedanceString := label Impedance [(0, "1 MOhm"); (1, "50 Ohm")];
           Coupling := Coupling;
           CouplingString := label Coupling [(0, "DC"); (1, "AC")] |}.

(** [for nn in range(self.nChannels)] over the channel headers. *)
Fixpoint channel_headers (h : header) (count : nat) (nn : Z) : R (list channel_header) :=
  match count with
  | O => ret []
  | S c =>
      ch <- channel_header_at h nn ;;
      rest <- channel_headers h c (nn + 1) ;;
      ret (ch :: rest)
  end.

(** What the trace loop carries from one pass to the next: the arrays on
    [self], and the local [newdata] (unbound until a data record is read). *)
Record loop_state := {
  tr : traces;
  newdata : option (list Z)
}.

(** Lines 195-205: the arrays as first allocated; [np.empty((0, snum))]
    refuses a negative [snum]. *)
Definition preallocate (h : header) : result traces :=
  if snum h <? 0 then Raise ValueError
  else Ok {| trace_num := []; decday := []; trace_int := []; trig_level := [];
             Odometer := []; pressure := []; lat := []; long := []; elev := [];
             GPSResolution := []; data := [] |}.

(** Lines 248-261: the marker payload.  The third read adds a [date]
    object to the array just read, which fails as soon as the array holds
    an element. *)
Definition marker_payload : R unit :=
  fromfile 2 int16 1 ;;
  fromfile 4 int32 1 ;;
  buffer <- fromfile 8 float64 1 ;;
  match buffer with
  | _ :: _ => raise TypeErrorOperand
  | [] =>
      fromfile 8 float64 1 ;;
      fromfile 8 float64 1 ;;
      fromfile 4 float32 1 ;;
      fromfile 4 float32 1 ;;
      ret tt
  end.

(** The locals a trace header is read into. *)
Record scalars := {
  s_trace_num : Z;
  s_decday : float;
  s_trace_int : float;
  s_trig_level : Z;
  s_odometer : option (float * float);   (* Odometer and pressure, below 3.21 *)
  s_lat : float;
  s_long : float;
  s_elev : float;
  s_GPSResolution : float
}.

(** Lines 214-242: the fields of a trace header after the channel
    number, and the blank bytes that follow them before version 3.6. *)
Definition trace_fields (h : header) : R scalars :=
  trace_num' <- one 4 int32 ;;
  raw_day <- one 8 float64 ;;
  trace_int' <- one 4 float32 ;;
  trig_level' <- one 2 int16 ;;
  odo <- (if lt (Version h) v3_21
          then o <- one 4 float32 ;; p <- one 4 float32 ;; ret (Some (o, p))
          else ret None) ;;
  lat' <- one 8 float64 ;;
  long' <- one 8 float64 ;;
  elev' <- one 4 float32 ;;
  GPSResolution' <- one 4 float32 ;;
  (if lt (Version h) v3_6
   then (if lt (Version h) v3_2 then fromfile 1 int8 12 else fromfile 1 int8 14)
   else ret []) ;;
  ret {| s_trace_num := trace_num';
         s_decday := PrimFloat.add raw_day epoch_ordinal;
         s_trace_int := trace_int';
         s_trig_level := trig_level';
         s_odometer := odo;
         s_lat := lat';
         s_long := long';
         s_elev := elev';
         s_GPSResolution := GPSResolution' |}.

(** Lines 244-263: [if nHeaderType == 0: ... elif nHeaderType == 1: ...
    break].  Returns whether the pass ends in [break], and [newdata] as
    the branch leaves it.  ([nHeaderType] holds one element here: with
    none, the read of the channel number has already failed.) *)
Definition record_payload (h : header) (nHeaderType : list Z) (newdata : option (list Z))
  : R (bool * option (list Z)) :=
  kind <- first nHeaderType ;;
  if kind =? 0 then
    nd <- fromfile 2 int16 (Z.to_nat (snum h)) ;;
    ret (false, Some nd)
  else if kind =? 1 then
    marker_payload ;; ret (true, newdata)
  else ret (false, newdata).

(** Lines 265-276: the scalars of the first channel are appended. *)
Definition append_scalars (x : scalars) (t : traces) : traces :=
  {| trace_num := trace_num t ++ [Z2F (s_trace_num x)];
     decday := decday t ++ [s_decday x];
     trace_int := trace_int t ++ [s_trace_int x];
     trig_level := trig_level t ++ [Z2F (s_trig_level x)];
     Odometer := match s_odometer x with
                 | Some (o, _) => Odometer t ++ [o]
                 | None => Odometer t
                 end;
     pressure := match s_odometer x with
                 | Some (_, p) => pressure t ++ [p]
                 | None => pressure t
                 end;
     lat := lat t ++ [s_lat x];
     long := long t ++ [s_long x];
     elev := elev t ++ [s_elev x];
     GPSResolution := GPSResolution t ++ [s_GPSResolution x];
     data := data t |}.

(** Line 280: [self.data = np.append(self.data,[newdata],axis=0)] *)
Definition append_row (nd : list Z) (t : traces) : traces :=
  {| trace_num := trace_num t; decday := decday t; trace_int := trace_int t;
     trig_level := trig_level t; Odometer := Odometer t; pressure := pressure t;
     lat := lat t; long := long t; elev := elev t; GPSResolution := GPSResolution t;
     data := data t ++ [map Z2F nd] |}.

(** Lines 207-280: one pass of the channel loop of a trace.  The boolean
    tells whether the pass ended in [break]. *)
Definition channel_record (h : header) (chan nn : Z) (st : loop_state)
  : R (bool * loop_state) :=
  nHeaderType <- fromfile 1 uint8 1 ;;
  nChan <- one 1 uint8 ;;
  if negb (nChan =? nn + 1) then raise (TypeErrorCorrupt nChan (nn + 1))
  else
    x <- trace_fields h ;;
    p <- record_payload h nHeaderType (newdata st) ;;
    if fst p then ret (true, {| tr := tr st; newdata := snd p |})
    else
      (* if nn+1 == 1 *)
      let t1 := if nn + 1 =? 1 then append_scalars x (tr st) else tr st in
      (* if nn+1 == self.chan *)
      if nn + 1 =? chan then
        match snd p with
        | None => raise (UnboundLocalError "newdata")
        | Some nd =>
            if negb (Z.of_nat (length nd) =? snum h) then raise ValueError
            else ret (false, {| tr := append_row nd t1; newdata := Some nd |})
        end
      else ret (false, {| tr := t1; newdata := snd p |}).

(** [for nn in range(self.nChannels)] inside one trace, with its [break]. *)
Fixpoint channel_loop (h : header) (chan : Z) (count : nat) (nn : Z) (st : loop_state)
  : R loop_state :=
  match count with
  | O => ret st
  | S c =>
      r <- channel_record h chan nn st ;;
      if fst r then ret (snd r)
      else channel_loop h chan c (nn + 1) (snd r)
  end.

(** The arrays a pass of the trace loop works on: allocated when
    [nTrc == 1], those on [self] otherwise. *)
Definition pass_arrays (h : header) (nTrc : Z) (cur : option traces) : result traces :=
  if nTrc =? 1 then preallocate h
  else match cur with
       | Some t => Ok t
       | None => Raise (AttributeError "trace_num")
       end.

(** [while fid.tell() < eof].  [fuel] bounds the passes; [None] means the
    bound was reached with bytes still unread.  [cur] is [None] until the
    arrays were allocated. *)
Fixpoint trace_loop (fuel : nat) (h : header) (chan : Z) (nTrc : Z)
    (cur : option traces) (nd : option (list Z)) (bs : list Byte.byte)
  : option (result (option traces)) :=
  match bs with
  | [] => Some (Ok cur)
  | _ :: _ =>
      match fuel with
      | O => None
      | S fuel' =>
          (* nTrc += 1 *)
          match pass_arrays h (nTrc + 1) cur with
          | Raise e => Some (Raise e)
          | Ok t =>
              match channel_loop h chan (Z.to_nat (nChannels h)) 0
                      {| tr := t; newdata := nd |} bs with
              | Raise e => Some (Raise e)
              | Ok (st, bs') =>
                  trace_loop fuel' h chan (nTrc + 1) (Some (tr st)) (newdata st) bs'
              end
          end
      end
  end.

(** [np.transpose] of [rows] whose rows have [width] entries. *)
Definition transpose (width : nat) (rows : list (list float)) : list (list float) :=
  map (fun i => map (fun row => nth i row 0%float) rows) (seq 0 width).

Definition zeros (n : nat) : list float := repeat 0%float n.

(** [np.arange(lo, hi)] *)
Definition arange (lo hi : Z) : list Z :=
  map (fun i => lo + Z.of_nat i) (seq 0 (Z.to_nat (hi - lo))).

(** Lines 286-299: the finished object from the header, the channel
    headers and the arrays the loop built. *)
Definition finalize (h : header) (chan : Z) (chs : list channel_header)
    (cur : option traces) : result gecko_obj :=
  match cur with
  | None => Raise (AttributeError "data")
  | Some t =>
      let n := length (data t) in
      Ok {| hdr := h;
            chan := chan;
            channels := chs;
            travel_time :=
              map (fun i => PrimFloat.div (PrimFloat.mul (Z2F i) 1%float) (SampFreq h))
                  (arange (wrap 16 (- PreTriggerDepth h)) (PostTriggerDepth h));
            cols := {| trace_num := trace_num t;
                       decday := decday t;
                       trace_int := trace_int t;
                       trig_level := zeros n;
                       Odometer := Odometer t;
                       pressure := if PrimFloat.leb v3_6 (Version h) then zeros n
                                   else pressure t;
                       lat := lat t;
                       long := long t;
                       elev := elev t;
                       GPSResolution := GPSResolution t;
                       data := transpose (Z.to_nat (snum h)) (data t) |};
            tnum := Z.of_nat n;
            x_coord := zeros n;
            y_coord := zeros n;
            dist := arange 0 (Z.of_nat n);
            trig := zeros n |}
  end.

(** [gecko.__init__(fn, channel)] on the bytes of the file [fn]: [None]
    when the trace loop does not end, otherwise the object or the
    exception the constructor leaves with. *)
Definition gecko (file : list Byte.byte) (channel : Z) : option (result gecko_obj) :=
  match file_header file with
  | Raise e => Some (Raise e)
  | Ok (h, bs) =>
      match channel_headers h (Z.to_nat (nChannels h)) 0 bs with
      | Raise e => Some (Raise e)
      | Ok (chs, bs') =>
          match trace_loop (length bs') h channel 0 None None bs' with
          | None => None
          | Some (Raise e) => Some (Raise e)
          | Some (Ok cur) => Some (finalize h channel chs cur)
          end
      end
  end.

(** [load_gecko(fn)]: the first channel is the output channel. *)
Definition load_gecko (file : list Byte.byte) : option (result gecko_obj) :=
  gecko file 1.

End Gecko.

(** ** The byte layout of trace records

    What a writer puts in the file for one record, field by field in the
    order [channel_record] reads them.  Floating-point fields are given by
    their IEEE bit patterns. *)

Module Stream.
Import Bin.

Record record := {
  r_kind : Z;          (* 0 = trace, 1 = marker, 2 = comment *)
  r_chan : Z;          (* recording channel number, from 1 *)
  r_trace_num : Z;     (* int32 *)
  r_decday : Z;        (* float64 bits: days since 1 Jan 1970 *)
  r_trace_int : Z;     (* float32 bits *)
  r_trig_level : Z;    (* int16 *)
  r_odometer : Z;      (* float32 bits, versions below 3.21 only *)
  r_pressure : Z;      (* float32 bits, versions below 3.21 only *)
  r_lat : Z;           (* float64 bits *)
  r_long : Z;          (* float64 bits *)
  r_elev : Z;          (* float32 bits *)
  r_gps : Z;           (* float32 bits *)
  r_samples : list Z   (* int16 each; present in a record of kind 0 *)
}.

(** The blank bytes that end a trace header before version 3.6. *)
Definition padding (h : Gecko.header) : list Byte.byte :=
  if Gecko.lt (Gecko.Version h) Gecko.v3_6 then
    repeat Byte.x00 (if Gecko.lt (Gecko.Version h) Gecko.v3_2 then 12 else 14)
  else [].

Definition encode_samples (xs : list Z) : list Byte.byte :=
  concat (map (le_bytes 2) xs).

(** The fields of a trace header after the channel number. *)
Definition encode_fields (h : Gecko.header) (r : record) : list Byte.byte :=
  le_bytes 4 (r_trace_num r) ++
  le_bytes 8 (r_decday r) ++
  le_bytes 4 (r_trace_int r) ++
  le_bytes 2 (r_trig_level r) ++
  (if Gecko.lt (Gecko.Version h) Gecko.v3_21
   then le_bytes 4 (r_odometer r) ++ le_bytes 4 (r_pressure r) else []) ++
  le_bytes 8 (r_lat r) ++
  le_bytes 8 (r_long r) ++
  le_bytes 4 (r_elev r) ++
  le_bytes 4 (r_gps r) ++
  padding h.

Definition encode_record (h : Gecko.header) (r : record) : list Byte.byte :=
  le_bytes 1 (r_kind r) ++
  le_bytes 1 (r_chan r) ++
  encode_fields h r ++
  (if r_kind r =? 0 then encode_samples (r_samples r) else []).

(** One trace: a record per channel; a file body: trace after trace. *)
Definition encode_trace (h : Gecko.header) (t : list record) : list Byte.byte :=
  concat (map (encode_record h) t).
Definition encode_traces (h : Gecko.header) (ts : list (list record)) : list Byte.byte :=
  concat (map (encode_trace h) ts).

Definition in_range (lo hi z : Z) : bool := (lo <=? z) && (z <? hi).

(** Every field of the record fits the width it is written with. *)
Definition fields_fit (r : record) : bool :=
  in_range 0 256 (r_kind r) &&
  in_range 0 256 (r_chan r) &&
  in_range (- 2 ^ 31) (2 ^ 31) (r_trace_num r) &&
  in_range 0 (2 ^ 64) (r_decday r) &&
  in_range 0 (2 ^ 32) (r_trace_int r) &&
  in_range (- 2 ^ 15) (2 ^ 15) (r_trig_level r) &&
  in_range 0 (2 ^ 32) (r_odometer r) &&
  in_range 0 (2 ^ 32) (r_pressure r) &&
  in_range 0 (2 ^ 64) (r_lat r) &&
  in_range 0 (2 ^ 64) (r_long r) &&
  in_range 0 (2 ^ 32) (r_elev r) &&
  in_range 0 (2 ^ 32) (r_gps r) &&
  forallb (in_range (- 2 ^ 15) (2 ^ 15)) (r_samples r).

(** A data record for channel [c]: kind 0, the channel number in its
    place, and exactly [snum] samples. *)
Definition data_record (h : Gecko.header) (c : Z) (r : record) : bool :=
  fields_fit r && (r_kind r =? 0) && (r_chan r =? c) &&
  (Z.of_nat (length (r_samples r)) =? Gecko.snum h).

(** A comment record for channel [c]: kind 2 and no sample payload. *)
Definition comment_record (c : Z) (r : record) : bool :=
  fields_fit r && (r_kind r =? 2) && (r_chan r =? c).

(** A record for channel [c] that is neither a trace (kind 0) nor a
    marker (kind 1), a comment (kind 2) for one: the loader reads
    nothing after its header. *)
Definition bare_record (c : Z) (r : record) : bool :=
  fields_fit r && negb (r_kind r =? 0) && negb (r_kind r =? 1) && (r_chan r =? c).

(** Such records for the channels [c], [c+1], ... in this order. *)
Fixpoint bare_records (c : Z) (rs : list record) : bool :=
  match rs with
  | [] => true
  | r :: rest => bare_record c r && bare_records (c + 1) rest
  end.

(** Records for the channels [c], [c+1], ... in this order. *)
Fixpoint data_records (h : Gecko.header) (c : Z) (rs : list record) : bool :=
  match rs with
  | [] => true
  | r :: rest => data_record h c r && data_records h (c + 1) rest
  end.

(** A complete data trace: one data record per channel of the file. *)
Definition data_trace (h : Gecko.header) (t : list record) : bool :=
  (Z.of_nat (length t) =? Gecko.nChannels h) && data_records h 1 t.

Definition blank : record :=
  {| r_kind := 0; r_chan := 0; r_trace_num := 0; r_decday := 0; r_trace_int := 0;
     r_trig_level := 0; r_odometer := 0; r_pressure := 0; r_lat := 0; r_long := 0;
     r_elev := 0; r_gps := 0; r_samples := [] |}.

(** The record of channel [c] (from 1) in a trace. *)
Definition on_channel (c : Z) (t : list record) : record :=
  nth (Z.to_nat (c - 1)) t blank.

(** *** What the loader makes of the records *)

(** The locals the loader reads the header of [r] into. *)
Definition scalars_of (h : Gecko.header) (r : record) : Gecko.scalars :=
  {| Gecko.s_trace_num := r_trace_num r;
     Gecko.s_decday := PrimFloat.add (f64_of_bits (r_decday r)) Gecko.epoch_ordinal;
     Gecko.s_trace_int := f32_of_bits (r_trace_int r);
     Gecko.s_trig_level := r_trig_level r;
     Gecko.s_odometer :=
       if Gecko.lt (Gecko.Version h) Gecko.v3_21
       then Some (f32_of_bits (r_odometer r), f32_of_bits (r_pressure r)) else None;
     Gecko.s_lat := f64_of_bits (r_lat r);
     Gecko.s_long := f64_of_bits (r_long r);
     Gecko.s_elev := f32_of_bits (r_elev r);
     Gecko.s_GPSResolution := f32_of_bits (r_gps r) |}.

(** The arrays after a record read at loop index [nn] whose row, if it
    is on the output channel, is [row]. *)
Definition kept (h : Gecko.header) (chan nn : Z) (r : record) (row : list Z)
    (t : Gecko.traces) : Gecko.traces :=
  let t1 := if nn + 1 =? 1 then Gecko.append_scalars (scalars_of h r) t else t in
  if nn + 1 =? chan then Gecko.append_row row t1 else t1.

(** The loop state after the data record [r] read at loop index [nn]. *)
Definition store (h : Gecko.header) (chan nn : Z) (r : record) (st : Gecko.loop_state)
  : Gecko.loop_state :=
  {| Gecko.tr := kept h chan nn r (r_samples r) (Gecko.tr st);
     Gecko.newdata := Some (r_samples r) |}.

(** ... and after the data records [rs] read from loop index [nn] on. *)
Fixpoint store_all (h : Gecko.header) (chan nn : Z) (rs : list record)
    (st : Gecko.loop_state) : Gecko.loop_state :=
  match rs with
  | [] => st
  | r :: rest => store_all h chan (nn + 1) rest (store h chan nn r st)
  end.

(** ... and after the complete data traces [ts]. *)
Fixpoint store_traces (h : Gecko.header) (chan : Z) (ts : list (list record))
    (st : Gecko.loop_state) : Gecko.loop_state :=
  match ts with
  | [] => st
  | t :: rest => store_traces h chan rest (store_all h chan 0 t st)
  end.

(** The arrays at allocation. *)
Definition empty_traces : Gecko.traces :=
  {| Gecko.trace_num := []; Gecko.decday := []; Gecko.trace_int := [];
     Gecko.trig_level := []; Gecko.Odometer := []; Gecko.pressure := [];
     Gecko.lat := []; Gecko.long := []; Gecko.elev := []; Gecko.GPSResolution := [];
     Gecko.data := [] |}.

(** The values injected on channel 1 of each trace, column by column. *)
Definition injected {A} (f : record -> A) (ts : list (list record)) : list A :=
  map (fun t => f (on_channel 1 t)) ts.

(** The rows injected on channel [chan], as the loader stores them. *)
Definition injected_rows (chan : Z) (ts : list (list record)) : list (list float) :=
  map (fun t => map Z2F (r_samples (on_channel chan t))) ts.

(** The sample payload of the data record written last among the traces
    [ts] and the records [rs] that follow them, if there is one: what
    [newdata] holds once they are read. *)
Definition preceding_samples (ts : list (list record)) (rs : list record)
  : option (list Z) :=
  List.last (map (fun r => Some (r_samples r)) (concat ts ++ rs)) None.

(** *** Example files *)

(** The bytes of a file header: version [version] (in hundredths),
    [nchan] channels, trigger depths [pre] and [post]; stacked recording
    at 100 MHz, external trigger. *)
Definition file_header_bytes (version nchan pre post : Z) : list Byte.byte :=
  le_bytes 2 version ++ repeat Byte.x00 64 ++ le_bytes 8 0 ++ le_bytes 2 0 ++
  le_bytes 1 nchan ++ le_bytes 1 1 ++ le_bytes 2 0 ++ le_bytes 2 8 ++ le_bytes 2 100 ++
  le_bytes 2 pre ++ le_bytes 2 post ++ le_bytes 1 (-1) ++ le_bytes 1 0 ++
  le_bytes 2 1000 ++ le_bytes 1 0 ++
  (if version <? 321 then le_bytes 2 0 else []) ++
  (if version <? 380 then le_bytes 2 5 else le_bytes 4 0x40a00000) ++
  le_bytes 4 0x3f800000 ++
  (if version <? 360 then repeat Byte.x00 27 else []).

(** The bytes of the header of channel [i]. *)
Definition channel_header_bytes (version i : Z) : list Byte.byte :=
  le_bytes 1 i ++ le_bytes 2 500 ++ le_bytes 1 0 ++ le_bytes 1 1 ++
  (if version <? 360 then repeat Byte.x00 27 else []).

Definition blank_header : Gecko.header :=
  {| Gecko.Version := 0; Gecko.Filename := []; Gecko.Serialtime := 0;
     Gecko.Timezone := 0; Gecko.nChannels := 0; Gecko.RecordMode := 0;
     Gecko.RecordModeString := None; Gecko.RecordInterval := 0;
     Gecko.NumberOfStacks := 0; Gecko.SampFreq := 0; Gecko.dt := 0;
     Gecko.PreTriggerDepth := 0; Gecko.PostTriggerDepth := 0; Gecko.snum := 0;
     Gecko.TriggerSource := 0; Gecko.triggersourceString := None;
     Gecko.TriggerSlope := 0; Gecko.TriggerSlopeString := None;
     Gecko.ExtTriggerRange := 0; Gecko.ExtTriggerCoupling := 0;
     Gecko.ExtTriggerCouplingString := None; Gecko.OdometerCalibration := None;
     Gecko.NominalFrequency := VNone; Gecko.AntennaSeparation := 0 |}.

(** The header the loader reads at the start of [file]. *)
Definition header_of (file : list Byte.byte) : Gecko.header :=
  match Gecko.file_header file with
  | Ok (h, _) => h
  | Raise _ => blank_header
  end.

(** A record of kind [kind] for channel [c]: trace number [num], day 1.5,
    interval 1.0, trigger level 5, latitude pi, elevation 5.0. *)
Definition example_record (kind c num : Z) (samples : list Z) : record :=
  {| r_kind := kind; r_chan := c; r_trace_num := num;
     r_decday := 0x3FF8000000000000; r_trace_int := 0x3f800000; r_trig_level := 5;
     r_odometer := 0; r_pressure := 0; r_lat := 0x400921FB54442D18; r_long := 0;
     r_elev := 0x40a00000; r_gps := 0; r_samples := samples |}.

(** The header of a version 3.8 file with [nchan] channels and two
    samples per trace, and the bytes up to the first trace. *)
Definition h38 (nchan : Z) : Gecko.header := header_of (file_header_bytes 380 nchan 1 1).
Definition prefix38 (nchan : Z) : list Byte.byte :=
  file_header_bytes 380 nchan 1 1 ++
  concat (map (channel_header_bytes 380) (Gecko.arange 1 (nchan + 1))).

(** One channel, two data traces. *)
Definition two_traces : list (list record) :=
  [[example_record 0 1 7 [3; -4]]; [example_record 0 1 8 [5; 6]]].
Definition two_trace_file : list Byte.byte :=
  prefix38 1 ++ encode_traces (h38 1) two_traces.

(** One channel; the only record is a marker, with its payload. *)
Definition marker_file : list Byte.byte :=
  prefix38 1 ++ encode_record (h38 1) (example_record 1 1 7 []) ++ repeat Byte.x00 38.

(** Two channels; the record of the second channel is a comment. *)
Definition comment_on_second : list (list record) :=
  [[example_record 0 1 7 [3; -4]; example_record 2 2 7 []]].
Definition comment_on_second_file : list Byte.byte :=
  prefix38 2 ++ encode_traces (h38 2) comment_on_second.

(** One channel; a data trace, then a comment record. *)
Definition comment_after_data : list (list record) :=
  [[example_record 0 1 7 [3; -4]]; [example_record 2 1 8 []]].
Definition comment_after_data_file : list Byte.byte :=
  prefix38 1 ++ encode_traces (h38 1) comment_after_data.

(** One channel; the first record is a comment. *)
Definition comment_first_file : list Byte.byte :=
  prefix38 1 ++ encode_record (h38 1) (example_record 2 1 7 []).

(** Two channels; the only trace has a comment on each, and a data
    trace follows. *)
Definition comments_on_both : list record :=
  [example_record 2 1 7 []; example_record 2 2 7 []].
Definition comments_on_both_file : list Byte.byte :=
  prefix38 2 ++ encode_trace (h38 2) comments_on_both ++
  encode_trace (h38 2) [example_record 0 1 8 [3; -4]; example_record 0 2 8 [5; 6]].



(** The first channel header of the example files, decoded. *)
Definition channel1 : Gecko.channel_header :=
  {| Gecko.ChName := "Channel1"; Gecko.VoltRange := 500; Gecko.Impedance := 0;
     Gecko.ImpedanceString := Some "1 MOhm"; Gecko.Coupling := 1;
     Gecko.CouplingString := Some "AC" |}.

(** ... and the second. *)
Definition channel2 : Gecko.channel_header :=
  {| Gecko.ChName := "Channel2"; Gecko.VoltRange := 500; Gecko.Impedance := 0;
     Gecko.ImpedanceString := Some "1 MOhm"; Gecko.Coupling := 1;
     Gecko.CouplingString := Some "AC" |}.

End Stream.

(** ** Integer-to-float conversion through the primitive operation *)

Module Fast.

(** [float(z)] computed with the machine conversion of the magnitude. *)
Definition Z2F (z : Z) : float :=
  if z <? 0 then PrimFloat.opp (PrimFloat.of_uint63 (Uint63.of_Z (- z)))
  else PrimFloat.of_uint63 (Uint63.of_Z z).

(** [self.Version] from the raw field, with that conversion. *)
Definition version_of (raw : Z) : float := PrimFloat.div (Z2F raw) 100%float.

End Fast.

(** ** Readings of the Gecko decoder used to state what it guarantees *)

Module Layout.
Import Rd Gecko.

(** The version numbers an [int16] field can hold, as [raw/100]. *)
Fixpoint count_from (z : Z) (n : nat) : list Z :=
  match n with
  | O => []
  | S k => z :: count_from (z + 1) k
  end.
Definition raw_versions : list Z := count_from (-32768) (Z.to_nat 65536).

(** The comparisons of [self.Version] made by the loader agree with the
    comparisons of the raw field against the same number of hundredths. *)
Definition thresholds_agree (raw : Z) : bool :=
  Bool.eqb (lt (Fast.version_of raw) v3_21) (raw <? 321) &&
  Bool.eqb (lt (Fast.version_of raw) v3_8) (raw <? 380) &&
  Bool.eqb (lt (Fast.version_of raw) v3_6) (raw <? 360) &&
  Bool.eqb (lt (Fast.version_of raw) v3_2) (raw <? 320) &&
  Bool.eqb (PrimFloat.leb v3_6 (Fast.version_of raw)) (360 <=? raw).

(** [m] moves the cursor forward only. *)
Definition forward {A} (m : R A) : Prop :=
  forall bs a bs', m bs = Ok (a, bs') -> (length bs' <= length bs)%nat.

(** The bytes of a trace header between the channel number and the blank
    tail: 42, and 8 more for the odometer and pressure fields below
    version 3.21. *)
Definition fields_width (h : header) : nat :=
  if lt (Version h) v3_21 then 50%nat else 42%nat.

(** Every row stored so far has [snum] samples. *)
Definition rectangular (h : header) (t : traces) : Prop :=
  Forall (fun row => length row = Z.to_nat (snum h)) (data t).

(** The per-trace arrays hold one entry per stored row; the odometer and
    pressure arrays do so below version 3.21 and stay empty from there on. *)
Definition aligned (h : header) (t : traces) : Prop :=
  let n := length (data t) in
  length (trace_num t) = n /\ length (decday t) = n /\ length (trace_int t) = n /\
  length (trig_level t) = n /\ length (lat t) = n /\ length (long t) = n /\
  length (elev t) = n /\ length (GPSResolution t) = n /\
  length (Odometer t) = (if lt (Version h) v3_21 then n else 0%nat) /\
  length (pressure t) = (if lt (Version h) v3_21 then n else 0%nat).

End Layout.

(** ** Readings of the ApRES header decoder used to state what it guarantees *)

Module Bits.

(** The binary digits of a positive number, least significant first:
    what [bin(x)[::-1]] holds before the reversed prefix. *)
Fixpoint lsb (p : positive) : string :=
  match p with
  | xH => "1"
  | xO q => String "0" (lsb q)
  | xI q => String "1" (lsb q)
  end.

(** The digit character of a bit. *)
Definition digit (b : bool) : ascii := if b then "1"%char else "0"%char.

End Bits.

Module HeaderKeys.

(** The attributes the register loop assigns. *)
Definition registers : list string :=
  ["noDwellHigh"; "noDwellLow"; "startFreq"; "stopFreq"; "rampUpStep"; "rampDownStep";
   "tstepUp"; "tstepDown"].

(** The attributes [update_parameters] assigns. *)
Definition assigned : list string :=
  ["noDwellHigh"; "noDwellLow"; "startFreq"; "stopFreq"; "rampUpStep"; "rampDownStep";
   "tstepUp"; "tstepDown"; "fs"; "snum"; "nstepsDDS"; "chirpLength"; "nchirpSamples";
   "K"; "rampDir"; "nchirpsPerPeriod"].

End HeaderKeys.

(** ** [str] of a bytes object, and [ApresHeader.read_header] *)

Module PyBytes.
Import Bin.

Definition char_of (b : Byte.byte) : ascii := Ascii.ascii_of_byte b.

(** A digit of the lower-case hexadecimal escape. *)
Definition hex_digit (n : Z) : ascii :=
  ascii_of_N (Z.to_N (if n <? 10 then 48 + n else 87 + n)).

(** How [repr] writes one byte between quotes [quote]. *)
Definition escape (quote : ascii) (b : Byte.byte) : string :=
  let c := char_of b in
  let n := Z_of_byte b in
  if Ascii.eqb c quote || Ascii.eqb c "\" then String "\" (String c EmptyString)
  else if n =? 9 then "\t"
  else if n =? 10 then "\n"
  else if n =? 13 then "\r"
  else if (n <? 32) || (127 <=? n) then
    String "\" (String "x" (String (hex_digit (n / 16))
                              (String (hex_digit (n mod 16)) EmptyString)))
  else String c EmptyString.

Fixpoint render (quote : ascii) (bs : list Byte.byte) : string :=
  match bs with
  | [] => EmptyString
  | b :: rest => escape quote b ++ render quote rest
  end.

(** Single quotes, unless the bytes hold a single quote and no double
    quote. *)
Definition quote_of (bs : list Byte.byte) : ascii :=
  if existsb (fun b => Z_of_byte b =? 39) bs && negb (existsb (fun b => Z_of_byte b =? 34) bs)
  then "034"%char else "'"%char.

(** [str(bs)], which is [repr(bs)] *)
Definition repr (bs : list Byte.byte) : string :=
  let q := quote_of bs in
  String "b" (String q (render q bs ++ String q EmptyString)).

(** Every character of [s] passes [f]. *)
Fixpoint all (f : ascii -> bool) (s : string) : bool :=
  match s with
  | EmptyString => true
  | String c s' => f c && all f s'
  end.

Definition code (c : ascii) : Z := Z.of_N (N_of_ascii c).

(** Printable ASCII. *)
Definition printable (c : ascii) : bool := (32 <=? code c) && (code c <? 127).

(** Printable ASCII that [repr] writes as it is. *)
Definition plain (c : ascii) : bool :=
  printable c && negb (code c =? 92) && negb (code c =? 39) && negb (code c =? 34).

Definition is_digit (c : ascii) : bool := (48 <=? code c) && (code c <=? 57).

(** The first character of [s] occurs nowhere else in [s]. *)
Definition fresh_head (s : string) : bool :=
  match s with
  | String c rest => all (fun d => negb (Ascii.eqb c d)) rest
  | EmptyString => false
  end.

End PyBytes.

Module ApresRead.
Import Obj.

(** The default of [max_header_len]. *)
Definition default_len : Z := 2000.

(** [fid.read(n)] on a file just opened with [open(fn_apres, 'rb')], on
    a 64-bit build.  [-1] reads to the end of the file and any smaller
    count raises [ValueError]; a count that is not negative gives the
    first [n] bytes, the whole file when it is shorter.  A count that
    does not fit the signed index type, or that no bytes object can
    have (its header takes 33 bytes), raises [OverflowError].  Below
    that the buffer of the request is taken to be granted: running out
    of memory is not modelled. *)
Definition read (file : list Byte.byte) (n : Z) : result (list Byte.byte) :=
  if (n <? - 2 ^ 63) || (2 ^ 63 - 33 <=? n) then Raise OverflowError
  else if n <? -1 then Raise ValueError
  else if n =? -1 then Ok file
  else Ok (firstn (Z.to_nat n) file).

(** [ApresHeader.read_header] on the bytes of the file [fn_apres]:
    [self.header = str(fid.read(max_header_len))]. *)
Definition read_header (file : list Byte.byte) (max_header_len : Z) : M unit :=
  match read file max_header_len with
  | Ok bs => setattr "header" (VStr (PyBytes.repr bs))
  | Raise e => raise e
  end.

(** The token names [update_parameters] looks for. *)
Definition tokens : list string := ["SamplingFreqMode="; "N_ADC_SAMPLES="].

(** The carriage return that ends a line of the header. *)
Definition CR : Byte.byte := Byte.x0d.

(** A line of a file, with its line end. *)
Definition line (text : string) : list Byte.byte :=
  (list_byte_of_string text ++ [Byte.x0d; Byte.x0a])%list.

Definition quoted (name payload : string) : string :=
  name ++ ApresHeader.eq_dq ++ payload ++ ApresHeader.dq_str.

(** The bytes of a file whose text [str] renders as
    [ApresHeader.example_header flags mode samples]. *)
Definition example_file (flags mode samples : string) : list Byte.byte :=
  (line (quoted "Reg01" flags) ++ line (quoted "Reg0B" "6666666633333333") ++
   line (quoted "Reg0C" "0000000100000001") ++ line (quoted "Reg0D" "00010001") ++
   line ("SamplingFreqMode=" ++ mode) ++ line ("N_ADC_SAMPLES=" ++ samples))%list.

End ApresRead.

(** ** The channel number in the name of a UoA file
    ([src/impdar/lib/load/load_UoA_mat.py], lines 59-69) *)

Module UoA.

(** A [str] is the list of its code points: a file name can hold any
    character, and [int()] knows the decimal digits of every script. *)
Definition str : Type := list Z.

(** The [str] of a literal of the source. *)
Definition lit (s : string) : str :=
  map (fun c => Z.of_N (N_of_ascii c)) (list_ascii_of_string s).

Definition len (s : str) : Z := Z.of_nat (length s).

(** [a == b] *)
Fixpoint eqb (a b : str) : bool :=
  match a, b with
  | [], [] => true
  | x :: a', y :: b' => (x =? y) && eqb a' b'
  | _, _ => false
  end.

Fixpoint starts_with (p s : str) : bool :=
  match p, s with
  | [], _ => true
  | a :: p', b :: s' => if a =? b then starts_with p' s' else false
  | _ :: _, [] => false
  end.

(** [sub in s] *)
Fixpoint contains (sub s : str) : bool :=
  if starts_with sub s then true
  else match s with
       | [] => false
       | _ :: s' => contains sub s'
       end.

(** The lowest index of an occurrence of [sub] from index [i] on. *)
Fixpoint find_at (sub : str) (i : Z) (s : str) : option Z :=
  if starts_with sub s then Some i
  else match s with
       | [] => None
       | _ :: s' => find_at sub (i + 1) s'
       end.

(** [s.index(sub)]: [ValueError] when [sub] is not in [s]. *)
Definition str_index (sub s : str) : result Z :=
  match find_at sub 0 s with
  | Some i => Ok i
  | None => Raise ValueError
  end.

(** [s[lo:]] *)
Definition slice_from (s : str) (lo : Z) : str :=
  skipn (Z.to_nat (PyStr.bound (len s) lo)) s.

(** [s[i]]: [IndexError] out of range. *)
Definition index (s : str) (i : Z) : result Z :=
  let j := if i <? 0 then i + len s else i in
  if (j <? 0) || (len s <=? j) then Raise IndexError
  else match nth_error s (Z.to_nat j) with
       | Some c => Ok c
       | None => Raise IndexError
       end.

Section Decimal.

(** The decimal digit a code point stands for in the Unicode tables of
    the interpreter, if it is one: what [int()] reads a character as. *)
Variable todecimal : Z -> option Z.

(** [int(c)] for a [str] of the one character [c]: a lone sign, space
    or underscore is no number. *)
Definition int_of_char (c : Z) : result Z :=
  match todecimal c with
  | Some d => Ok d
  | None => Raise ValueError
  end.

(** [int(s[i])] *)
Definition digit_at (s : str) (i : Z) : result Z :=
  match index s i with
  | Ok c => int_of_char c
  | Raise e => Raise e
  end.

(** The tag is looked for, then the character [skip] places after its
    start is read as a number. *)
Definition after_tag (tag : str) (skip : Z) (fn_mat : str) : result Z :=
  match str_index tag fn_mat with
  | Ok idx => digit_at fn_mat (idx + skip)
  | Raise e => Raise e
  end.

(** [UoA_data.chan] as [load_UoA_mat] sets it from the file name. *)
Definition chan_of_name (fn_mat : str) : result Z :=
  if eqb (slice_from fn_mat (-10)) (lit "_files.mat") then Ok 999
  else if contains (lit "hannel") fn_mat then after_tag (lit "hannel") 6 fn_mat
  else if contains (lit "Ch") fn_mat then after_tag (lit "Ch") 2 fn_mat
  else Ok 10.

End Decimal.

(** What the tables of every Unicode version agree on: a decimal digit
    has a value from 0 to 9, and below 128 the decimal digits are the
    ten characters [0] to [9]. *)
Definition decimal_table (todecimal : Z -> option Z) : Prop :=
  (forall c d, todecimal c = Some d -> 0 <= d <= 9) /\
  (forall c, 0 <= c < 128 ->
             todecimal c = if (48 <=? c) && (c <=? 57) then Some (c - 48) else None).

(** The decimal digits of Unicode 1.1 up to U+06FF: ASCII, Arabic-Indic
    and extended Arabic-Indic.  Every later table extends this one. *)
Definition decimal_1_1 (c : Z) : option Z :=
  if (48 <=? c) && (c <=? 57) then Some (c - 48)
  else if (0x660 <=? c) && (c <=? 0x669) then Some (c - 0x660)
  else if (0x6F0 <=? c) && (c <=? 0x6F9) then Some (c - 0x6F0)
  else None.

(** The first character of [s] occurs nowhere else in [s]. *)
Definition fresh_head (s : str) : bool :=
  match s with
  | c :: rest => forallb (fun d => negb (c =? d)) rest
  | [] => false
  end.

End UoA.

(** ** The start day of an MCoRDS file
    ([src/impdar/lib/load/load_mcords.py]) *)

Module Calendar.

(** The proleptic Gregorian calendar of Python's [datetime]. *)
Definition is_leap (y : Z) : bool :=
  (y mod 4 =? 0) && (negb (y mod 100 =? 0) || (y mod 400 =? 0)).

Definition days_before_year (y : Z) : Z :=
  let y1 := y - 1 in y1 * 365 + y1 / 4 - y1 / 100 + y1 / 400.

Definition days_in_month (y m : Z) : Z :=
  if (m =? 2) && is_leap y then 29
  else nth (Z.to_nat m) [-1; 31; 28; 31; 30; 31; 30; 31; 31; 30; 31; 30; 31] 0.

Definition days_before_month (y m : Z) : Z :=
  nth (Z.to_nat m) [-1; 0; 31; 59; 90; 120; 151; 181; 212; 243; 273; 304; 334] 0
  + (if (2 <? m) && is_leap y then 1 else 0).

(** A date the constructor accepts. *)
Definition valid_date (y m d : Z) : bool :=
  (1 <=? y) && (y <=? 9999) && (1 <=? m) && (m <=? 12) &&
  (1 <=? d) && (d <=? days_in_month y m).

(** [datetime(y, m, d).toordinal()]: day 1 is 1 Jan of year 1. *)
Definition toordinal (y m d : Z) : result Z :=
  if valid_date y m d then Ok (days_before_year y + days_before_month y m + d)
  else Raise ValueError.

End Calendar.

Module Mcords.
Import Calendar.

(** Lines 46-48 of [load_mcords_nc]: the date is cut from fixed columns
    of the units text of the time variable, and 366 days take the
    ordinal to a MATLAB date number. *)
Definition start_day_nc (units : string) : result float :=
  match PyStr.int_of 10 (PyStr.slice units 14 18) with
  | Raise e => Raise e
  | Ok y =>
      match PyStr.int_of 10 (PyStr.slice units 19 21) with
      | Raise e => Raise e
      | Ok m =>
          match PyStr.int_of 10 (PyStr.slice units 22 24) with
          | Raise e => Raise e
          | Ok d =>
              match toordinal y m d with
              | Raise e => Raise e
              | Ok ord => Ok (PrimFloat.add (Bin.Z2F ord) 366%float)
              end
          end
      end
  end.

(** Line 91 of [load_mcords_mat] *)
Definition start_day_mat : result float :=
  match toordinal 1970 1 1 with
  | Raise e => Raise e
  | Ok ord => Ok (PrimFloat.add (Bin.Z2F ord) 366%float)
  end.

(** A number written with [width] decimal digits, zeros in front. *)
Fixpoint padded (width : nat) (n : Z) : string :=
  match width with
  | O => EmptyString
  | S w => padded w (n / 10) ++ String (ascii_of_N (Z.to_N (48 + n mod 10))) EmptyString
  end.

(** The units text of a time axis counted from the day [y-m-d]. *)
Definition units_since (y m d : Z) (clock : string) : string :=
  "seconds since " ++ padded 4 y ++ "-" ++ padded 2 m ++ "-" ++ padded 2 d ++ clock.

(** The numbers below [n]. *)
Definition below (n : Z) : list Z := Layout.count_from 0 (Z.to_nat n).

(** [int] reads back every number below [n] written with [width] digits. *)
Definition reads_back (width : nat) (n : Z) : bool :=
  forallb (fun v => match PyStr.int_of 10 (padded width v) with
                    | Ok v' => v' =? v
                    | Raise _ => false
                    end) (below n).

End Mcords.

(** ** The calls [plot] makes ([src/impdar/lib/plot.py], lines 19-61)

    [plot] only chooses and forwards: the loading, the drawing and the
    saving are done by the functions it calls.  What is embedded is
    [plot] itself, over the answers of these functions: the model keeps
    the log of the calls made, with their arguments, and a raise in a
    call ends [plot]. *)

Module Plot.
Local Open Scope list_scope.

Section Calls.

(** Radar data objects, figures, and the [tr] argument. *)
Context {dat fig tr_arg : Type}.

Inductive call :=
| Load (kind : string) (fn : list string)
| PlotTraces (d : dat) (tr : tr_arg)
| PlotRadargram (d : dat) (interactive : bool) (xdat ydat : string)
    (x_range : option (Z * Z))
| Savefig (f : fig) (name : string) (dpi : Z)
| Show.

(** What the functions called give back; the answer may depend on the
    calls made before. *)
Record world := {
  load : list call -> string -> list string -> result (list dat);
  plot_traces : list call -> dat -> tr_arg -> result fig;
  plot_radargram :
    list call -> dat -> bool -> string -> string -> option (Z * Z) -> result fig;
  savefig : list call -> fig -> string -> Z -> result unit;
  show : list call -> result unit;
  (* os.path.splitext(fn0)[0] *)
  stem : string -> string
}.

(** A computation that makes calls: the log so far in, the outcome and
    the log out. *)
Definition P (A : Type) : Type := list call -> result A * list call.

Definition ret {A} (a : A) : P A := fun log => (Ok a, log).
Definition raise {A} (e : exn) : P A := fun log => (Raise e, log).
Definition bind {A B} (m : P A) (k : A -> P B) : P B :=
  fun log =>
    match m log with
    | (Ok a, log') => k a log'
    | (Raise e, log') => (Raise e, log')
    end.

(** One call: its answer, and the call added to the log. *)
Definition made {A} (c : call) (answer : list call -> result A) : P A :=
  fun log => (answer log, log ++ [c]).

(** A list comprehension whose element makes calls. *)
Fixpoint each {A B} (f : A -> P B) (l : list A) : P (list B) :=
  match l with
  | [] => ret []
  | a :: rest => bind (f a) (fun b => bind (each f rest) (fun bs => ret (b :: bs)))
  end.

Variable w : world.

(** [plot(fn, tr, gssi, pe, s, ftype, dpi, xd, yd, x_range)] *)
Definition plot (fn : list string) (tr : option tr_arg) (gssi pe s : bool)
    (ftype : string) (dpi : Z) (xd yd : bool) (x_range : Z * Z) : P unit :=
  if gssi && pe then raise ValueError
  else
    let kind := if gssi then "gssi" else if pe then "pe" else "mat" in
    bind (made (Load kind fn) (fun log => load w log kind fn)) (fun radar_data =>
    let xdat := if xd then "dist" else "tracenum" in
    let ydat := if yd then "depth" else "twtt" in
    bind (match tr with
          | Some t =>
              each (fun d => made (PlotTraces d t) (fun log => plot_traces w log d t))
                radar_data
          | None =>
              each (fun d =>
                      made (PlotRadargram d (negb s) xdat ydat None)
                        (fun log => plot_radargram w log d (negb s) xdat ydat None))
                radar_data
          end) (fun figs =>
    if s then
      bind (each (fun p : fig * string =>
                    let name := (stem w (snd p) ++ "." ++ ftype)%string in
                    made (Savefig (fst p) name dpi)
                      (fun log => savefig w log (fst p) name dpi))
              (combine figs fn)) (fun _ => ret tt)
    else made Show (show w))).

End Calls.

(** The axis names [plot_radargram] accepts. *)
Definition xdat_choices : list string := ["tracenum"; "dist"].
Definition ydat_choices : list string := ["twtt"; "depth"].

(** A call of [plot_radargram] as [plot] makes it. *)
Definition forwarded {dat fig tr_arg : Type} (s : bool) (c : @call dat fig tr_arg) : Prop :=
  match c with
  | PlotRadargram _ interactive xdat ydat x_range =>
      x_range = None /\ interactive = negb s /\
      In xdat xdat_choices /\ In ydat ydat_choices
  | _ => True
  end.

(** An example world: [load] gives the file names back as data, the
    figure of a radargram records the range it was asked for, and every
    call returns. *)
Definition echo : @world string (string * option (Z * Z)) Z :=
  {| load := fun _ _ fn => Ok fn;
     plot_traces := fun _ d _ => Ok (d, None);
     plot_radargram := fun _ d _ _ _ r => Ok (d, r);
     savefig := fun _ _ _ _ => Ok tt;
     show := fun _ => Ok tt;
     stem := fun name => name |}.

End Plot.

(** ** ApresData.check_attrs *)

Section CheckAttrs.
Import ApresData.

Lemma check_guaranteed_raises (self : pyobj) (attrs : list string) (a : string) :
  a ∈ attrs ->
  self !! a = None \/ self !! a = Some VNone ->
  exists b w, check_guaranteed self attrs = Raise (ImpdarError b w).
Proof.
  induction attrs as [|x attrs IH]; intros Hin Ha.
  - apply elem_of_nil in Hin. contradiction.
  - apply elem_of_cons in Hin. simpl.
    destruct (self !! x) as [v|] eqn:Hx; [|eauto].
    destruct v; eauto;
      (destruct Hin as [->|Hin]; [destruct Ha; congruence | auto]).
Qed.

Lemma check_guaranteed_passes (self : pyobj) (attrs : list string) :
  (forall a, a ∈ attrs -> exists v, self !! a = Some v /\ v <> VNone) ->
  check_guaranteed self attrs = Ok tt.
Proof.
  induction attrs as [|x attrs IH]; intros H; [reflexivity|].
  simpl. destruct (H x) as (v & -> & Hv); [left|].
  rewrite IH by (intros a Ha; apply H; right; exact Ha).
  destruct v; congruence.
Qed.

Lemma check_optional_passes (self : pyobj) (attrs : list string) :
  (forall a, a ∈ attrs -> is_Some (self !! a)) ->
  check_optional self attrs = Ok tt.
Proof.
  induction attrs as [|x attrs IH]; intros H; [reflexivity|].
  simpl. destruct (H x) as (v & ->); [left|].
  apply IH. intros a Ha. apply H. right. exact Ha.
Qed.

End CheckAttrs.

(** C2. [check_attrs] raises [ImpdarError] on every instance whose [dt] is
    [None] (or was never declared), whatever the other attributes hold; and
    on an instance whose nine required attributes are all set to something
    other than [None], whose five optional attributes are all declared and
    whose [data] is an array, it returns: the attributes are left as they
    were, [data_dtype] apart. *)
Theorem check_attrs_dt_unset_raises_complete_passes :
  (forall self : pyobj,
      self !! "dt" = None \/ self !! "dt" = Some VNone ->
      exists a w, ApresData.check_attrs self = Raise (ImpdarError a w)) /\
  (forall self : pyobj,
      (forall a, a ∈ ApresData.attrs_guaranteed -> exists v, self !! a = Some v /\ v <> VNone) ->
      (forall a, a ∈ ApresData.attrs_optional -> is_Some (self !! a)) ->
      (exists d shape cells, self !! "data" = Some (VArray d shape cells)) ->
      exists self', ApresData.check_attrs self = Ok self' /\
                    forall a, a <> "data_dtype" -> self' !! a = self !! a).
Proof.
  split.
  - intros self Hdt. unfold ApresData.check_attrs.
    destruct (check_guaranteed_raises self ApresData.attrs_guaranteed "dt") as (b & w & ->);
      [do 2 apply list_elem_of_further; apply list_elem_of_here | exact Hdt | eauto].
  - intros self Hg Ho (d & shape & cells & Hdata). unfold ApresData.check_attrs.
    rewrite check_guaranteed_passes by exact Hg.
    rewrite check_optional_passes by exact Ho.
    rewrite Hdata. simpl.
    destruct (self !! "data_dtype") as [v|] eqn:Hd.
    + destruct v; eexists; (split; [reflexivity|]); intros a Ha;
        try reflexivity; apply lookup_insert_ne; congruence.
    + eexists; split; [reflexivity|]. intros a Ha. apply lookup_insert_ne. congruence.
Qed.

Lemma check_attrs_witness :
  (exists a w, ApresData.check_attrs (<["dt" := VNone]> ApresData.populated_model) = Raise (ImpdarError a w)) /\
  (exists self', ApresData.check_attrs ApresData.populated_model = Ok self' /\
                 forall a, a <> "data_dtype" -> self' !! a = ApresData.populated_model !! a).
Proof.
  split.
  - apply (proj1 check_attrs_dt_unset_raises_complete_passes). right. reflexivity.
  - apply (proj2 check_attrs_dt_unset_raises_complete_passes).
    + intros a Ha. unfold ApresData.attrs_guaranteed in Ha.
      repeat (apply elem_of_cons in Ha; destruct Ha as [->|Ha];
              [eexists; split; [reflexivity|discriminate]|]).
      apply elem_of_nil in Ha. contradiction.
    + intros a Ha. unfold ApresData.attrs_optional in Ha.
      repeat (apply elem_of_cons in Ha; destruct Ha as [->|Ha]; [eexists; reflexivity|]).
      apply elem_of_nil in Ha. contradiction.
    + do 3 eexists. reflexivity.
Defined.

(** ** Python strings: a slice occurs in the string it is cut from *)

Section StringFacts.
Import PyStr.

Lemma starts_with_app (p s : string) : starts_with p (p ++ s) = true.
Proof.
  induction p as [|a p IH]; simpl; [reflexivity|].
  rewrite Ascii.eqb_refl. exact IH.
Qed.

Lemma contains_here (p s : string) : starts_with p s = true -> contains p s = true.
Proof. intros H. destruct s; simpl in *; rewrite H; reflexivity. Qed.

Lemma contains_later (p pre s : string) :
  contains p s = true -> contains p (pre ++ s) = true.
Proof.
  intros H. induction pre as [|a pre IH]; simpl; [exact H|].
  rewrite IH. destruct (starts_with p (String a (pre ++ s))); reflexivity.
Qed.

Lemma take_drop (n : nat) (s : string) : s = (take n s ++ drop n s)%string.
Proof.
  revert s. induction n as [|n IH]; intros s; simpl; [reflexivity|].
  destruct s as [|a s]; simpl; [reflexivity|].
  change (String a s = String a (take n s ++ drop n s)%string). f_equal. apply IH.
Qed.

Lemma take_contains (n : nat) (s : string) : contains (take n s) s = true.
Proof.
  assert (H : contains (take n s) (take n s ++ drop n s)%string = true)
    by apply contains_here, starts_with_app.
  rewrite <- take_drop in H. exact H.
Qed.

Lemma slice_contains (s : string) (lo hi : Z) : contains (slice s lo hi) s = true.
Proof.
  unfold slice.
  set (a := Z.to_nat (bound (len s) lo)).
  set (m := Z.to_nat (bound (len s) hi - bound (len s) lo)).
  assert (H : contains (take m (drop a s)) (take a s ++ drop a s)%string = true)
    by apply contains_later, take_contains.
  rewrite <- take_drop in H. exact H.
Qed.

(** The text between two positions equals a word only if the word is in
    the string. *)
Lemma slice_eqb_contains (s word : string) (lo hi : Z) :
  String.eqb (slice s lo hi) word = true -> contains word s = true.
Proof.
  intros H. apply String.eqb_eq in H. subst word. apply slice_contains.
Qed.

End StringFacts.

(** ** Running a method body step by step *)

Section ObjFacts.
Import Obj.

Lemma bind_Ok {A B} (m : M A) (k : A -> M B) (s s' : pyobj) (b : B) :
  bind m k s = (Ok b, s') ->
  exists a s1, m s = (Ok a, s1) /\ k a s1 = (Ok b, s').
Proof.
  unfold bind. destruct (m s) as [[a|e] s1]; intros H; [eauto | discriminate].
Qed.

Lemma getattr_Ok (n : string) (s s' : pyobj) (v : pyval) :
  getattr n s = (Ok v, s') -> s' = s /\ s !! n = Some v.
Proof.
  unfold getattr. destruct (s !! n); intros H; inversion H; subst; auto.
Qed.

Lemma get_float_Ok (n : string) (s s' : pyobj) (f : float) :
  get_float n s = (Ok f, s') -> s' = s /\ s !! n = Some (VFloat f).
Proof.
  unfold get_float, bind, getattr, ret, raise.
  destruct (s !! n) as [[]|]; intros H; inversion H; subst; auto.
Qed.

Lemma get_int_Ok (n : string) (s s' : pyobj) (z : Z) :
  get_int n s = (Ok z, s') -> s' = s /\ s !! n = Some (VInt z).
Proof.
  unfold get_int, bind, getattr, ret, raise.
  destruct (s !! n) as [[]|]; intros H; inversion H; subst; auto.
Qed.

Lemma get_str_Ok (n : string) (s s' : pyobj) (t : string) :
  get_str n s = (Ok t, s') -> s' = s /\ s !! n = Some (VStr t).
Proof.
  unfold get_str, bind, getattr, ret, raise.
  destruct (s !! n) as [[]|]; intros H; inversion H; subst; auto.
Qed.

Lemma setattr_Ok (n : string) (v : pyval) (s s' : pyobj) (u : unit) :
  setattr n v s = (Ok u, s') -> s' = <[n := v]> s.
Proof. unfold setattr. intros H. inversion H. reflexivity. Qed.

Lemma lift_Ok {A} (r : result A) (s s' : pyobj) (a : A) :
  lift r s = (Ok a, s') -> s' = s /\ r = Ok a.
Proof. unfold lift. intros H. inversion H. auto. Qed.

Lemma ret_Ok {A} (a b : A) (s s' : pyobj) :
  ret a s = (Ok b, s') -> s' = s /\ b = a.
Proof. unfold ret. intros H. inversion H. auto. Qed.

Lemma touches_ret {A} (a : A) keys : touches (ret a) keys.
Proof. intros s r s' H k _. inversion H. reflexivity. Qed.

Lemma touches_raise {A} (e : exn) keys : touches (@raise A e) keys.
Proof. intros s r s' H k _. inversion H. reflexivity. Qed.

Lemma touches_lift {A} (x : result A) keys : touches (lift x) keys.
Proof. intros s r s' H k _. inversion H. reflexivity. Qed.

Lemma touches_getattr (n : string) keys : touches (getattr n) keys.
Proof.
  intros s r s' H k _. unfold getattr in H.
  destruct (s !! n); inversion H; reflexivity.
Qed.

Lemma touches_setattr (n : string) (v : pyval) keys :
  n ∈ keys -> touches (setattr n v) keys.
Proof.
  intros Hn s r s' H k Hk. inversion H. apply lookup_insert_ne.
  intros ->. contradiction.
Qed.

Lemma touches_bind {A B} (m : M A) (f : A -> M B) keys :
  touches m keys -> (forall a, touches (f a) keys) -> touches (bind m f) keys.
Proof.
  intros Hm Hf s r s' H k Hk. unfold bind in H.
  destruct (m s) as [[a|e] s1] eqn:E.
  - rewrite (Hf a _ _ _ H k Hk). exact (Hm _ _ _ E k Hk).
  - inversion H; subst. exact (Hm _ _ _ E k Hk).
Qed.

Lemma touches_if {A} (b : bool) (m1 m2 : M A) keys :
  touches m1 keys -> touches m2 keys -> touches (if b then m1 else m2) keys.
Proof. destruct b; auto. Qed.

Lemma raises_within_bind {A B} (m : M A) (f : A -> M B) keys (s : pyobj) :
  touches m keys ->
  (forall a s1, m s = (Ok a, s1) -> raises_within (f a) keys s1) ->
  raises_within (bind m f) keys s.
Proof.
  intros Hm Hf. unfold raises_within, bind.
  destruct (m s) as [[a|e] s1] eqn:E.
  - destruct (Hf a s1 eq_refl) as (e & s' & -> & Hs').
    exists e, s'. split; [reflexivity|]. intros k Hk.
    rewrite (Hs' k Hk). exact (Hm _ _ _ E k Hk).
  - exists e, s1. split; [reflexivity|]. exact (Hm _ _ _ E).
Qed.

Lemma raises_within_first {A B} (m : M A) (f : A -> M B) keys (s : pyobj) :
  raises_within m keys s -> raises_within (bind m f) keys s.
Proof.
  intros (e & s' & Hm & Hs'). exists e, s'. unfold bind. rewrite Hm. auto.
Qed.

End ObjFacts.

Ltac touches_tac :=
  repeat first
    [ apply touches_ret | apply touches_raise | apply touches_lift
    | apply touches_getattr
    | apply touches_setattr; set_solver
    | apply touches_bind; [|intros ?]
    | apply touches_if
    | match goal with |- Obj.touches (match ?x with _ => _ end) _ => destruct x end ].

(** ** ApresHeader: the sampling rate and the derived parameters *)

Section HeaderFacts.
Import Obj ApresHeader.
Local Open Scope obj_scope.

(** The comparison with [1] never holds: [self.fs] is then a str. *)
Lemma sampling_rate_run (out0 : string) (s : pyobj) :
  sampling_rate out0 s = (Ok tt, <["fs" := VFloat 4e4]> (<["fs" := VStr out0]> s)).
Proof.
  unfold sampling_rate, bind, setattr, getattr.
  rewrite lookup_insert_eq. reflexivity.
Qed.

Lemma int_times_Ok (i : Z) (f x : float) (s s' : pyobj) :
  int_times i f s = (Ok x, s') ->
  s' = s /\ exists y, PyNum.float_of_int i = Ok y /\ x = PrimFloat.mul y f.
Proof.
  unfold int_times, bind, lift, ret.
  destruct (PyNum.float_of_int i); intros H; inversion H; eauto.
Qed.

Lemma int_over_Ok (i : Z) (f x : float) (s s' : pyobj) :
  int_over i f s = (Ok x, s') ->
  s' = s /\ exists y, PyNum.float_of_int i = Ok y /\ PyNum.fdiv y f = Ok x.
Proof.
  unfold int_over, bind, lift.
  destruct (PyNum.float_of_int i); intros H; inversion H; eauto.
Qed.

Lemma set_snum_Ok (out1 : string) (s s' : pyobj) :
  set_snum out1 s = (Ok tt, s') ->
  exists n, PyStr.int_of 10 out1 = Ok n /\ s' = <["snum" := VInt n]> s.
Proof.
  unfold set_snum. intros H.
  apply bind_Ok in H as (n & s1 & H1 & H2).
  apply lift_Ok in H1 as [-> H1]. apply setattr_Ok in H2. eauto.
Qed.

Lemma set_nstepsDDS_Ok (s s' : pyobj) :
  set_nstepsDDS s = (Ok tt, s') -> exists n, s' = <["nstepsDDS" := VInt n]> s.
Proof.
  unfold set_nstepsDDS. intros H.
  apply bind_Ok in H as (a & s1 & H1 & H). apply get_float_Ok in H1 as [-> _].
  apply bind_Ok in H as (b & s1 & H1 & H). apply get_float_Ok in H1 as [-> _].
  apply bind_Ok in H as (c & s1 & H1 & H). apply get_float_Ok in H1 as [-> _].
  apply bind_Ok in H as (q & s1 & H1 & H). apply lift_Ok in H1 as [-> _].
  apply bind_Ok in H as (n & s1 & H1 & H). apply lift_Ok in H1 as [-> _].
  apply setattr_Ok in H. eauto.
Qed.

Lemma set_chirpLength_Ok (s s' : pyobj) :
  set_chirpLength s = (Ok tt, s') -> exists c, s' = <["chirpLength" := VInt c]> s.
Proof.
  unfold set_chirpLength. intros H.
  apply bind_Ok in H as (a & s1 & H1 & H). apply get_int_Ok in H1 as [-> _].
  apply bind_Ok in H as (b & s1 & H1 & H). apply get_float_Ok in H1 as [-> _].
  apply bind_Ok in H as (p & s1 & H1 & H). apply int_times_Ok in H1 as [-> _].
  apply bind_Ok in H as (c & s1 & H1 & H). apply lift_Ok in H1 as [-> _].
  apply setattr_Ok in H. eauto.
Qed.

Lemma set_nchirpSamples_Ok (s s' : pyobj) :
  set_nchirpSamples s = (Ok tt, s') ->
  exists v fs p ns,
    s !! "chirpLength" = Some v /\ s !! "fs" = Some (VFloat fs) /\
    times_float v fs s = (Ok p, s) /\ PyNum.round p = Ok ns /\
    s' = <["nchirpSamples" := VInt ns]> s.
Proof.
  unfold set_nchirpSamples. intros H.
  apply bind_Ok in H as (v & s1 & H1 & H). apply getattr_Ok in H1 as [-> Hv].
  apply bind_Ok in H as (fs & s1 & H1 & H). apply get_float_Ok in H1 as [-> Hfs].
  apply bind_Ok in H as (p & s1 & H1 & H).
  assert (s1 = s) as ->.
  { destruct v; simpl in H1; try discriminate.
    - apply int_times_Ok in H1 as [-> _]. reflexivity.
    - apply ret_Ok in H1 as [-> _]. reflexivity. }
  apply bind_Ok in H as (ns & s1 & H2 & H). apply lift_Ok in H2 as [-> Hr].
  apply setattr_Ok in H. exists v, fs, p, ns. auto.
Qed.

Lemma clamp_chirpLength_Ok (s s' : pyobj) :
  clamp_chirpLength s = (Ok tt, s') ->
  exists ns n,
    s !! "nchirpSamples" = Some (VInt ns) /\ s !! "snum" = Some (VInt n) /\
    ((ns <= n /\ s' = s) \/
     (n < ns /\ exists fs x c,
         s !! "fs" = Some (VFloat fs) /\ PyNum.float_of_int n = Ok x /\
         PyNum.fdiv x fs = Ok c /\ s' = <["chirpLength" := VFloat c]> s)).
Proof.
  unfold clamp_chirpLength. intros H.
  apply bind_Ok in H as (ns & s1 & H1 & H). apply get_int_Ok in H1 as [-> Hns].
  apply bind_Ok in H as (n & s1 & H1 & H). apply get_int_Ok in H1 as [-> Hn].
  exists ns, n. split; [exact Hns|]. split; [exact Hn|].
  destruct (n <? ns) eqn:E.
  - right. apply Z.ltb_lt in E. split; [exact E|].
    apply bind_Ok in H as (n' & s1 & H1 & H). apply get_int_Ok in H1 as [-> Hn'].
    assert (n' = n) as -> by congruence.
    apply bind_Ok in H as (fs & s1 & H1 & H). apply get_float_Ok in H1 as [-> Hfs].
    apply bind_Ok in H as (c & s1 & H1 & H). apply int_over_Ok in H1 as [-> (x & Hx & Hc)].
    apply setattr_Ok in H. exists fs, x, c. auto.
  - left. apply Z.ltb_ge in E. apply ret_Ok in H as [-> _]. auto.
Qed.

Lemma set_K_Ok (s s' : pyobj) :
  set_K s = (Ok tt, s') -> exists g, s' = <["K" := VFloat g]> s.
Proof.
  unfold set_K. intros H.
  apply bind_Ok in H as (a & s1 & H1 & H). apply get_float_Ok in H1 as [-> _].
  apply bind_Ok in H as (b & s1 & H1 & H). apply get_float_Ok in H1 as [-> _].
  apply bind_Ok in H as (g & s1 & H1 & H). apply lift_Ok in H1 as [-> _].
  apply setattr_Ok in H. eauto.
Qed.

Lemma set_rampDir_Ok (s s' : pyobj) :
  set_rampDir s = (Ok tt, s') ->
  exists stop,
    s !! "stopFreq" = Some (VFloat stop) /\
    s' = <["rampDir" := VStr (if PrimFloat.ltb 400e6%float stop then "down" else "up")]> s.
Proof.
  unfold set_rampDir. intros H.
  apply bind_Ok in H as (stop & s1 & H1 & H). apply get_float_Ok in H1 as [-> Hs].
  exists stop. split; [exact Hs|].
  destruct (PrimFloat.ltb 400e6%float stop); apply setattr_Ok in H; exact H.
Qed.

Lemma both_no_dwell_Ok (s s' : pyobj) (b : bool) :
  both_no_dwell s = (Ok b, s') -> s' = s /\ b = flags_both s.
Proof.
  unfold both_no_dwell, flags_both. intros H.
  apply bind_Ok in H as (hi & s1 & H1 & H). apply get_int_Ok in H1 as [-> Hhi].
  rewrite Hhi. destruct (hi =? 0).
  - apply ret_Ok in H as [-> ->]. auto.
  - apply bind_Ok in H as (lo & s1 & H1 & H). apply get_int_Ok in H1 as [-> Hlo].
    rewrite Hlo. apply ret_Ok in H as [-> ->]. auto.
Qed.

Lemma apply_no_dwell_Ok (s s' : pyobj) :
  apply_no_dwell s = (Ok tt, s') ->
  (flags_both s = false /\ s' = s) \/
  (flags_both s = true /\
   s' = <["nchirpsPerPeriod" := VFloat PrimFloat.nan]> (<["rampDir" := VStr "upDown"]> s)).
Proof.
  unfold apply_no_dwell. intros H.
  apply bind_Ok in H as (b & s1 & H1 & H). apply both_no_dwell_Ok in H1 as [-> ->].
  destruct (flags_both s).
  - right. split; [reflexivity|].
    apply bind_Ok in H as ([] & s1 & H1 & H). apply setattr_Ok in H1, H. subst. reflexivity.
  - left. apply ret_Ok in H as [-> _]. auto.
Qed.

(** [flags_both] reads two attributes only. *)
Lemma flags_both_ext (s s' : pyobj) :
  s' !! "noDwellHigh" = s !! "noDwellHigh" ->
  s' !! "noDwellLow" = s !! "noDwellLow" ->
  flags_both s' = flags_both s.
Proof. unfold flags_both. intros -> ->. reflexivity. Qed.

(** What a completed run went through, from the token loop on. *)
Lemma update_parameters_Ok (cell0 cell1 : string) (s s' : pyobj) :
  update_parameters cell0 cell1 s = (Ok tt, s') ->
  exists header s1 out0 out1 s3 s4 s5 s6 s7 s8,
    s !! "header" = Some (VStr header) /\
    set_snum out1 (<["fs" := VFloat 4e4]> (<["fs" := VStr out0]> s1)) = (Ok tt, s3) /\
    set_nstepsDDS s3 = (Ok tt, s4) /\
    set_chirpLength s4 = (Ok tt, s5) /\
    set_nchirpSamples s5 = (Ok tt, s6) /\
    clamp_chirpLength s6 = (Ok tt, s7) /\
    set_K s7 = (Ok tt, s8) /\
    exists s9, set_rampDir s8 = (Ok tt, s9) /\ apply_no_dwell s9 = (Ok tt, s').
Proof.
  unfold update_parameters, derive. intros H.
  apply bind_Ok in H as (header & s0 & H0 & H). apply get_str_Ok in H0 as [-> Hh].
  apply bind_Ok in H as ([] & s1 & _ & H).
  apply bind_Ok in H as ([] & s2 & H2 & H). rewrite sampling_rate_run in H2.
  apply bind_Ok in H as ([] & s3 & H3 & H).
  apply bind_Ok in H as ([] & s4 & H4 & H).
  apply bind_Ok in H as ([] & s5 & H5 & H).
  apply bind_Ok in H as ([] & s6 & H6 & H).
  apply bind_Ok in H as ([] & s7 & H7 & H).
  apply bind_Ok in H as ([] & s8 & H8 & H).
  apply bind_Ok in H as ([] & s9 & H9 & H).
  inversion H2; subst s2.
  exists header, s1. do 2 eexists. exists s3, s4, s5, s6, s7, s8.
  repeat (split; [eassumption|]).
  exists s9. auto.
Qed.

End HeaderFacts.

(** ** Binary64: rounding, division and multiplication on mantissas

    The operations of [SpecFloat] on numbers whose mantissa has 53 bits,
    in terms of integer arithmetic. *)

Section Binary64Facts.
Import Binary64.

Lemma digits2_bounds (m : positive) :
  2 ^ (Z.pos (digits2_pos m) - 1) <= Z.pos m < 2 ^ Z.pos (digits2_pos m).
Proof.
  induction m as [m IH|m IH|]; cbn [digits2_pos].
  - rewrite Pos2Z.inj_succ. replace (Z.succ (Z.pos (digits2_pos m)) - 1) with (Z.succ (Z.pos (digits2_pos m) - 1)) by lia.
    rewrite !Z.pow_succ_r by lia. lia.
  - rewrite Pos2Z.inj_succ. replace (Z.succ (Z.pos (digits2_pos m)) - 1) with (Z.succ (Z.pos (digits2_pos m) - 1)) by lia.
    rewrite !Z.pow_succ_r by lia. lia.
  - cbn. lia.
Qed.

Lemma digits2_unique (m : positive) (d : Z) :
  2 ^ (d - 1) <= Z.pos m < 2 ^ d -> Z.pos (digits2_pos m) = d.
Proof.
  intros H. pose proof (digits2_bounds m) as B.
  set (d' := Z.pos (digits2_pos m)) in *.
  assert (Hd : 0 < d).
  { destruct (Z.lt_ge_cases 0 d) as [|Hd]; [assumption|].
    assert (2 ^ d <= 1).
    { destruct (Z.eq_dec d 0) as [->|]; [cbn; lia|]. rewrite Z.pow_neg_r by lia. lia. }
    lia. }
  destruct (Z.lt_trichotomy d' d) as [Hlt|[->|Hgt]]; [|reflexivity|].
  - assert (2 ^ d' <= 2 ^ (d - 1)) by (apply Z.pow_le_mono_r; lia). lia.
  - assert (2 ^ d <= 2 ^ (d' - 1)) by (apply Z.pow_le_mono_r; lia). lia.
Qed.

Lemma iter_pos_nat {A} (f : A -> A) (p : positive) :
  forall x, SpecFloat.iter_pos f p x = Nat.iter (Pos.to_nat p) f x.
Proof.
  induction p as [p IH|p IH|]; intros x; cbn [SpecFloat.iter_pos].
  - rewrite !IH. rewrite Pos2Nat.inj_xI.
    replace (S (2 * Pos.to_nat p))%nat with (Pos.to_nat p + (Pos.to_nat p + 1))%nat by lia.
    rewrite !Nat.iter_add. reflexivity.
  - rewrite !IH. rewrite Pos2Nat.inj_xO.
    replace (2 * Pos.to_nat p)%nat with (Pos.to_nat p + Pos.to_nat p)%nat by lia.
    rewrite Nat.iter_add. reflexivity.
  - reflexivity.
Qed.

Lemma shr_1_nonneg (m : Z) (r s : bool) :
  0 <= m ->
  shr_1 {| shr_m := m; shr_r := r; shr_s := s |}
  = {| shr_m := m / 2; shr_r := Z.odd m; shr_s := r || s |}.
Proof.
  intros H. destruct m as [|p|p]; [reflexivity| |lia].
  destruct p as [p|p|]; cbn [shr_1].
  - rewrite <- Z.div2_div. reflexivity.
  - rewrite <- Z.div2_div. reflexivity.
  - reflexivity.
Qed.

(** [k + 1] shifts of an exact record. *)
Lemma shr_iter (k : nat) (m : Z) :
  0 <= m ->
  Nat.iter (S k) shr_1 {| shr_m := m; shr_r := false; shr_s := false |}
  = {| shr_m := m / 2 ^ Z.of_nat (S k);
       shr_r := Z.odd (m / 2 ^ Z.of_nat k);
       shr_s := negb (m mod 2 ^ Z.of_nat k =? 0) |}.
Proof.
  intros Hm. induction k as [|k IH].
  - cbn [Nat.iter]. rewrite shr_1_nonneg by exact Hm.
    change (2 ^ Z.of_nat 1) with 2. change (2 ^ Z.of_nat 0) with 1.
    rewrite Z.div_1_r, Z.mod_1_r. reflexivity.
  - change (Nat.iter (S (S k)) shr_1 ?x) with (shr_1 (Nat.iter (S k) shr_1 x)).
    rewrite IH. rewrite shr_1_nonneg by (apply Z.div_pos; lia).
    assert (P : 0 < 2 ^ Z.of_nat k) by (apply Z.pow_pos_nonneg; lia).
    f_equal.
    + rewrite Z.div_div by lia. f_equal.
      rewrite (Nat2Z.inj_succ (S k)), Z.pow_succ_r by lia. lia.
    + assert (E : 2 ^ Z.of_nat (S k) = 2 ^ Z.of_nat k * 2)
        by (rewrite Nat2Z.inj_succ, Z.pow_succ_r by lia; lia).
      rewrite E. rewrite Z.rem_mul_r by lia.
      rewrite (Zmod_odd (m / 2 ^ Z.of_nat k)).
      pose proof (Z.mod_pos_bound m (2 ^ Z.of_nat k) P) as B.
      destruct (Z.odd (m / 2 ^ Z.of_nat k)); cbn [orb].
      * symmetry. apply negb_true_iff, Z.eqb_neq. lia.
      * rewrite Z.mul_0_r, Z.add_0_r. reflexivity.
Qed.

(** Where the bits shifted out put the number between two multiples of
    [2^k]. *)
Lemma shr_loc (k : nat) (m : Z) :
  0 <= m ->
  loc_of_shr_record (Nat.iter (S k) shr_1 {| shr_m := m; shr_r := false; shr_s := false |})
  = if m mod 2 ^ Z.of_nat (S k) =? 0 then loc_Exact
    else loc_Inexact (Z.compare (2 * (m mod 2 ^ Z.of_nat (S k))) (2 ^ Z.of_nat (S k))).
Proof.
  intros Hm. rewrite shr_iter by exact Hm. cbn [loc_of_shr_record].
  assert (P : 0 < 2 ^ Z.of_nat k) by (apply Z.pow_pos_nonneg; lia).
  assert (E : 2 ^ Z.of_nat (S k) = 2 ^ Z.of_nat k * 2)
    by (rewrite Nat2Z.inj_succ, Z.pow_succ_r by lia; lia).
  rewrite E, Z.rem_mul_r by lia.
  rewrite (Zmod_odd (m / 2 ^ Z.of_nat k)).
  pose proof (Z.mod_pos_bound m (2 ^ Z.of_nat k) P) as B.
  destruct (Z.odd (m / 2 ^ Z.of_nat k)).
  - destruct (Z.eqb_spec (m mod 2 ^ Z.of_nat k) 0) as [E0|N0]; cbn [negb].
    + rewrite E0. replace (0 + 2 ^ Z.of_nat k * 1 =? 0) with false
        by (symmetry; apply Z.eqb_neq; lia).
      f_equal. symmetry. apply Z.compare_eq_iff. lia.
    + replace (m mod 2 ^ Z.of_nat k + 2 ^ Z.of_nat k * 1 =? 0) with false
        by (symmetry; apply Z.eqb_neq; lia).
      f_equal. symmetry. apply Z.compare_gt_iff. lia.
  - rewrite Z.mul_0_r, Z.add_0_r.
    destruct (Z.eqb_spec (m mod 2 ^ Z.of_nat k) 0) as [E0|N0]; cbn [negb]; [reflexivity|].
    f_equal. symmetry. apply Z.compare_lt_iff. lia.
Qed.

(** Shifting an exact mantissa right by [k] places and rounding. *)
Lemma round_shr (k : positive) (m : Z) :
  0 <= m ->
  let mrs := SpecFloat.iter_pos shr_1 k {| shr_m := m; shr_r := false; shr_s := false |} in
  round_nearest_even (shr_m mrs) (loc_of_shr_record mrs) = rnd m (2 ^ Z.pos k).
Proof.
  intros Hm mrs. unfold mrs. rewrite iter_pos_nat.
  destruct (Pos.to_nat k) as [|j] eqn:Ej; [lia|].
  assert (Ek : Z.pos k = Z.of_nat (S j)) by lia.
  rewrite Ek. rewrite shr_loc by exact Hm. rewrite shr_iter by exact Hm. cbn [shr_m].
  unfold rnd.
  assert (P : 0 < 2 ^ Z.of_nat (S j)) by (apply Z.pow_pos_nonneg; lia).
  pose proof (Z.mod_pos_bound m _ P) as B.
  destruct (Z.eqb_spec (m mod 2 ^ Z.of_nat (S j)) 0) as [E0|N0].
  - rewrite E0. replace (2 * 0 ?= 2 ^ Z.of_nat (S j)) with Lt
      by (symmetry; apply Z.compare_lt_iff; lia). reflexivity.
  - cbn [round_nearest_even].
    destruct (2 * (m mod 2 ^ Z.of_nat (S j)) ?= 2 ^ Z.of_nat (S j)); reflexivity.
Qed.

Lemma rnd_bounds (a b : Z) :
  0 <= a -> 0 < b -> - b <= 2 * (b * rnd a b - a) <= b.
Proof.
  intros Ha Hb. unfold rnd.
  pose proof (Z.div_mod a b ltac:(lia)) as D.
  pose proof (Z.mod_pos_bound a b Hb) as B.
  destruct (Z.compare_spec (2 * (a mod b)) b) as [E|L|G].
  - destruct (Z.even (a / b)); lia.
  - lia.
  - lia.
Qed.

Lemma rnd_exact (a b : Z) : 0 < b -> a mod b = 0 -> rnd a b = a / b.
Proof.
  intros Hb E. unfold rnd. rewrite E.
  replace (2 * 0 ?= b) with Lt by (symmetry; apply Z.compare_lt_iff; lia). reflexivity.
Qed.

Lemma rnd_mul (a b : Z) : 0 < b -> rnd (a * b) b = a.
Proof.
  intros Hb. rewrite rnd_exact; [apply Z.div_mul; lia|exact Hb|apply Z.mod_mul; lia].
Qed.

Lemma rnd_range (a b lo hi : Z) :
  0 < b -> lo * b <= a -> a <= hi * b -> lo <= rnd a b <= hi.
Proof.
  intros Hb Hlo Hhi.
  unfold rnd.
  pose proof (Z.div_mod a b ltac:(lia)) as D.
  pose proof (Z.mod_pos_bound a b Hb) as B.
  assert (Hq : lo <= a / b) by (apply Z.div_le_lower_bound; lia).
  assert (Hq' : a / b <= hi) by (apply Z.div_le_upper_bound; lia).
  destruct (Z.compare_spec (2 * (a mod b)) b) as [E|L|G].
  - destruct (Z.even (a / b)); [lia|]. split; [lia|].
    assert (a / b <> hi) by (intros Eh; rewrite Eh in D; lia). lia.
  - lia.
  - split; [lia|]. assert (a / b <> hi) by (intros Eh; rewrite Eh in D; lia). lia.
Qed.

Lemma fexp_normal (x : Z) : -1021 <= x -> fexp prec emax x = x - 53.
Proof. intros H. unfold fexp, SpecFloat.emin, prec, emax. lia. Qed.

Lemma digits_53 (k m : Z) :
  0 <= k -> 2 ^ (52 + k) <= m < 2 ^ (53 + k) -> Zdigits2 m = 53 + k.
Proof.
  intros Hk H. destruct m as [|p|p].
  - assert (0 < 2 ^ (52 + k)) by (apply Z.pow_pos_nonneg; lia). lia.
  - cbn [Zdigits2]. apply digits2_unique. replace (53 + k - 1) with (52 + k) by lia. exact H.
  - assert (0 < 2 ^ (52 + k)) by (apply Z.pow_pos_nonneg; lia). lia.
Qed.

(** The last step of a rounding: a mantissa that reached [2^53] is
    halved, and the exponent is checked. *)
Lemma round_finish (sx : bool) (R e : Z) :
  2 ^ 52 <= R <= 2 ^ 53 -> -1074 <= e ->
  (let '(mrs, e') := shr_fexp prec emax R e loc_Exact in
   match shr_m mrs with
   | Z0 => S754_zero sx
   | Zpos m => if e' <=? emax - prec then S754_finite sx m e' else S754_infinity sx
   | Zneg _ => S754_nan
   end) = pack sx R e.
Proof.
  intros HR He. unfold shr_fexp, pack.
  destruct (Z.ltb_spec R (2 ^ 53)) as [Hlt|Hge].
  - rewrite (digits_53 0 R) by (cbn; lia). rewrite fexp_normal by lia.
    replace (53 + 0 + e - 53 - e) with 0 by lia. cbn [shr shr_record_of_loc shr_m].
    destruct R as [|r|r]; [lia| |lia]. reflexivity.
  - assert (R = 2 ^ 53) by lia. subst R.
    rewrite (digits_53 1 (2 ^ 53)) by (cbn; lia). rewrite fexp_normal by lia.
    replace (53 + 1 + e - 53 - e) with 1 by lia.
    cbn [shr shr_record_of_loc SpecFloat.iter_pos]. cbn. reflexivity.
Qed.

(** Rounding an exact mantissa of [53 + k] digits. *)
Lemma round_exact (sx : bool) (m : positive) (e k : Z) :
  0 <= k -> 2 ^ (52 + k) <= Z.pos m < 2 ^ (53 + k) -> -1074 <= e + k ->
  binary_round_aux prec emax sx (Z.pos m) e loc_Exact = pack sx (rnd (Z.pos m) (2 ^ k)) (e + k).
Proof.
  intros Hk Hm He.
  assert (HR : 2 ^ 52 <= rnd (Z.pos m) (2 ^ k) <= 2 ^ 53).
  { apply rnd_range; [apply Z.pow_pos_nonneg; lia| |];
      rewrite <- Z.pow_add_r by lia; lia. }
  rewrite <- (round_finish sx _ _ HR He).
  unfold binary_round_aux.
  unfold shr_fexp at 1. rewrite (digits_53 k) by assumption. rewrite fexp_normal by lia.
  replace (53 + k + e - 53 - e) with k by lia.
  destruct k as [|kp|kp]; [| |lia].
  - cbn [shr shr_record_of_loc shr_m loc_of_shr_record round_nearest_even].
    change (2 ^ 0) with 1. rewrite rnd_exact by (try apply Z.mod_1_r; lia).
    rewrite Z.div_1_r, Z.add_0_r. reflexivity.
  - cbn [shr shr_record_of_loc].
    rewrite (round_shr kp (Z.pos m)) by lia. reflexivity.
Qed.

Lemma pack_carry (s : bool) (e : Z) : pack s (2 ^ 53) e = pack s (2 ^ 52) (e + 1).
Proof. reflexivity. Qed.

Lemma pack_finite (s : bool) (m e : Z) :
  2 ^ 52 <= m < 2 ^ 53 -> e <= 971 -> pack s m e = S754_finite s (Z.to_pos m) e.
Proof.
  intros Hm He. unfold pack.
  replace (m <? 2 ^ 53) with true by (symmetry; apply Z.ltb_lt; lia).
  replace (e <=? 971) with true by (symmetry; apply Z.leb_le; lia). reflexivity.
Qed.

Lemma pack_infinite (s : bool) (m e : Z) :
  2 ^ 52 <= m < 2 ^ 53 -> 971 < e -> pack s m e = S754_infinity s.
Proof.
  intros Hm He. unfold pack.
  replace (m <? 2 ^ 53) with true by (symmetry; apply Z.ltb_lt; lia).
  replace (e <=? 971) with false by (symmetry; apply Z.leb_gt; lia). reflexivity.
Qed.

Lemma iter_xO (d : positive) (m : positive) :
  Z.pos (Pos.iter xO m d) = Z.pos m * 2 ^ Z.pos d.
Proof.
  induction d as [|d IH] using Pos.peano_ind.
  - cbn [Pos.iter]. lia.
  - rewrite Pos.iter_succ, Pos2Z.inj_succ, Z.pow_succ_r by lia.
    rewrite Pos2Z.inj_xO, IH. lia.
Qed.

(** [float(n)] for a positive [n], with the sign [s]: a mantissa of 53
    bits and an exponent of at least [-52]; below exponent 0 nothing
    is rounded. *)
Lemma round_int (s : bool) (n : positive) :
  exists mx ex,
    binary_round prec emax s n 0 = pack s mx ex /\
    2 ^ 52 <= mx < 2 ^ 53 /\ -52 <= ex /\
    (ex < 0 -> mx = Z.pos n * 2 ^ (- ex)).
Proof.
  unfold binary_round.
  pose proof (digits2_bounds n) as B.
  set (d := Z.pos (digits2_pos n)) in *.
  assert (Hd : 1 <= d) by (unfold d; lia).
  rewrite fexp_normal by lia. unfold shl_align.
  replace (d + 0 - 53 - 0) with (d - 53) by lia.
  destruct (d - 53) as [|kp|kp] eqn:Ek.
  - rewrite (round_exact s n 0 0) by (replace (52 + 0) with (d - 1) by lia;
                                      replace (53 + 0) with d by lia; lia).
    exists (Z.pos n), 0. change (2 ^ 0) with 1.
    rewrite rnd_exact by (try apply Z.mod_1_r; lia). rewrite Z.div_1_r.
    replace (d - 1) with 52 in B by lia. replace d with 53 in B by lia.
    repeat split; lia.
  - assert (Hr : 2 ^ 52 <= rnd (Z.pos n) (2 ^ Z.pos kp) <= 2 ^ 53).
    { apply rnd_range; [apply Z.pow_pos_nonneg; lia| |];
        rewrite <- Z.pow_add_r by lia.
      - replace (52 + Z.pos kp) with (d - 1) by lia. lia.
      - replace (53 + Z.pos kp) with d by lia. lia. }
    rewrite (round_exact s n 0 (Z.pos kp))
      by (replace (52 + Z.pos kp) with (d - 1) by lia;
          replace (53 + Z.pos kp) with d by lia; lia).
    rewrite Z.add_0_l.
    destruct (Z.eq_dec (rnd (Z.pos n) (2 ^ Z.pos kp)) (2 ^ 53)) as [E|N].
    + rewrite E, pack_carry. exists (2 ^ 52), (Z.pos kp + 1). repeat split; lia.
    + exists (rnd (Z.pos n) (2 ^ Z.pos kp)), (Z.pos kp). repeat split; lia.
  - assert (E : Z.pos (Pos.iter xO n kp) = Z.pos n * 2 ^ Z.pos kp) by apply iter_xO.
    assert (Hm : 2 ^ 52 <= Z.pos n * 2 ^ Z.pos kp < 2 ^ 53).
    { assert (E1 : 2 ^ 52 = 2 ^ (d - 1) * 2 ^ Z.pos kp)
        by (rewrite <- Z.pow_add_r by lia; f_equal; lia).
      assert (E2 : 2 ^ 53 = 2 ^ d * 2 ^ Z.pos kp)
        by (rewrite <- Z.pow_add_r by lia; f_equal; lia).
      assert (0 < 2 ^ Z.pos kp) by (apply Z.pow_pos_nonneg; lia).
      rewrite E1, E2. nia. }
    replace (d + 0 - 53) with (Z.neg kp) by lia.
    rewrite (round_exact s (Pos.iter xO n kp) (Z.neg kp) 0) by (rewrite ?E; cbn [Z.add]; lia).
    rewrite E. change (2 ^ 0) with 1.
    rewrite rnd_exact by (try apply Z.mod_1_r; lia). rewrite Z.div_1_r, Z.add_0_r.
    exists (Z.pos n * 2 ^ Z.pos kp), (Z.neg kp).
    split; [reflexivity|]. split; [exact Hm|]. split; [lia|].
    intros _. reflexivity.
Qed.

(** *** Division *)

Lemma loc_of_record_of_loc (q : Z) (l : location) :
  loc_of_shr_record (shr_record_of_loc q l) = l.
Proof. destruct l as [|[]]; reflexivity. Qed.

Lemma shr_m_record_of_loc (q : Z) (l : location) : shr_m (shr_record_of_loc q l) = q.
Proof. destruct l as [|[]]; reflexivity. Qed.

Lemma new_location_even_divisor (b r : Z) :
  Z.even b = true ->
  new_location b r = if r =? 0 then loc_Exact else loc_Inexact (Z.compare (2 * r) b).
Proof. intros H. unfold new_location. rewrite H. reflexivity. Qed.

(** Rounding a quotient from its floor and the place of the remainder. *)
Lemma round_loc0 (a b : Z) :
  0 < b -> Z.even b = true ->
  round_nearest_even (a / b) (new_location b (a mod b)) = rnd a b.
Proof.
  intros Hb He. rewrite new_location_even_divisor by exact He. unfold rnd.
  destruct (Z.eqb_spec (a mod b) 0) as [E|N].
  - rewrite E. replace (2 * 0 ?= b) with Lt by (symmetry; apply Z.compare_lt_iff; lia).
    reflexivity.
  - cbn [round_nearest_even]. destruct (2 * (a mod b) ?= b); reflexivity.
Qed.

(** ... and after one more halving. *)
Lemma round_loc1 (a b : Z) :
  0 <= a -> 0 < b -> Z.even b = true ->
  let mrs := shr_1 (shr_record_of_loc (a / b) (new_location b (a mod b))) in
  round_nearest_even (shr_m mrs) (loc_of_shr_record mrs) = rnd a (b * 2).
Proof.
  intros Ha Hb He mrs. unfold mrs. rewrite new_location_even_divisor by exact He.
  assert (Hq : 0 <= a / b) by (apply Z.div_pos; lia).
  pose proof (Z.mod_pos_bound a b Hb) as B.
  unfold rnd. rewrite Z.rem_mul_r by lia. rewrite <- Z.div_div by lia.
  rewrite (Zmod_odd (a / b)).
  destruct (Z.eqb_spec (a mod b) 0) as [E|N].
  - cbn [shr_record_of_loc]. rewrite shr_1_nonneg by exact Hq. cbn [shr_m loc_of_shr_record orb].
    rewrite E. destruct (Z.odd (a / b)).
    + replace (2 * (0 + b * 1) ?= b * 2) with Eq by (symmetry; apply Z.compare_eq_iff; lia).
      reflexivity.
    + replace (2 * (0 + b * 0) ?= b * 2) with Lt by (symmetry; apply Z.compare_lt_iff; lia).
      reflexivity.
  - assert (Hrec : shr_1 (shr_record_of_loc (a / b) (loc_Inexact (2 * (a mod b) ?= b)))
                   = {| shr_m := a / b / 2; shr_r := Z.odd (a / b); shr_s := true |}).
    { destruct (2 * (a mod b) ?= b); cbn [shr_record_of_loc];
        rewrite shr_1_nonneg by exact Hq; reflexivity. }
    rewrite Hrec. cbn [shr_m loc_of_shr_record].
    destruct (Z.odd (a / b)).
    + replace (2 * (a mod b + b * 1) ?= b * 2) with Gt
        by (symmetry; apply Z.compare_gt_iff; lia).
      reflexivity.
    + replace (2 * (a mod b + b * 0) ?= b * 2) with Lt
        by (symmetry; apply Z.compare_lt_iff; lia).
      reflexivity.
Qed.

(** The quotient of two mantissas of 53 bits, as [SFdiv] hands it to the
    rounding: 53 more bits of the dividend. *)
Lemma div_core (mx my : positive) (ex ey : Z) :
  2 ^ 52 <= Z.pos mx < 2 ^ 53 -> 2 ^ 52 <= Z.pos my < 2 ^ 53 -> -1021 <= ex - ey ->
  SFdiv_core_binary prec emax (Z.pos mx) ex (Z.pos my) ey
  = ((Z.pos mx * 2 ^ 53) / Z.pos my, ex - ey - 53,
     new_location (Z.pos my) ((Z.pos mx * 2 ^ 53) mod Z.pos my)).
Proof.
  intros Hx Hy He. unfold SFdiv_core_binary.
  rewrite (digits_53 0 (Z.pos mx)), (digits_53 0 (Z.pos my)) by (cbn; lia).
  replace (53 + 0 + ex - (53 + 0 + ey)) with (ex - ey) by lia.
  rewrite fexp_normal by lia.
  replace (Z.min (ex - ey - 53) (ex - ey)) with (ex - ey - 53) by lia.
  replace (ex - ey - (ex - ey - 53)) with 53 by lia.
  rewrite Z.shiftl_mul_pow2 by lia.
  unfold Z.div, Z.modulo.
  destruct (Z.div_eucl (Z.pos mx * 2 ^ 53) (Z.pos my)) as [q r]. reflexivity.
Qed.

(** The quotient of two positive numbers with mantissas of 53 bits, the
    divisor's even. *)
Lemma div_finite (sx : bool) (mx my : positive) (ex ey : Z) :
  2 ^ 52 <= Z.pos mx < 2 ^ 53 -> 2 ^ 52 <= Z.pos my < 2 ^ 53 ->
  Z.even (Z.pos my) = true -> -968 <= ex - ey ->
  SFdiv prec emax (S754_finite sx mx ex) (S754_finite false my ey)
  = if Z.pos mx <? Z.pos my
    then pack sx (rnd (Z.pos mx * 2 ^ 53) (Z.pos my)) (ex - ey - 53)
    else pack sx (rnd (Z.pos mx * 2 ^ 53) (Z.pos my * 2)) (ex - ey - 52).
Proof.
  intros Hx Hy Hev He. cbn [SFdiv]. rewrite div_core by (assumption || lia).
  rewrite xorb_false_r.
  destruct (Z.ltb_spec (Z.pos mx) (Z.pos my)) as [Hlt|Hge];
    set (a := Z.pos mx * 2 ^ 53); set (b := Z.pos my) in *;
    assert (Ha : 0 <= a) by (unfold a; lia);
    assert (Hb : 0 < b) by (unfold b; lia);
    pose proof (Z.div_mod a b ltac:(lia)) as D;
    pose proof (Z.mod_pos_bound a b Hb) as B.
  - assert (Hq : 2 ^ 52 <= a / b < 2 ^ 53).
    { split; [apply Z.div_le_lower_bound; unfold a, b; lia|].
      apply Z.div_lt_upper_bound; unfold a, b; lia. }
    assert (HR : 2 ^ 52 <= rnd a b <= 2 ^ 53)
      by (apply rnd_range; unfold a, b; lia).
    rewrite <- (round_finish sx _ _ HR) by lia.
    unfold binary_round_aux. unfold shr_fexp at 1.
    rewrite (digits_53 0 (a / b)) by (rewrite ?Z.add_0_r; lia). rewrite fexp_normal by lia.
    replace (53 + 0 + (ex - ey - 53) - 53 - (ex - ey - 53)) with 0 by lia.
    cbn [shr]. rewrite shr_m_record_of_loc, loc_of_record_of_loc.
    rewrite round_loc0 by assumption. reflexivity.
  - assert (Hq : 2 ^ 53 <= a / b < 2 ^ 54).
    { split; [apply Z.div_le_lower_bound; unfold a, b; lia|].
      apply Z.div_lt_upper_bound; unfold a, b; lia. }
    assert (HR : 2 ^ 52 <= rnd a (b * 2) <= 2 ^ 53)
      by (apply rnd_range; unfold a, b; lia).
    replace (ex - ey - 52) with (ex - ey - 53 + 1) by lia.
    rewrite <- (round_finish sx _ _ HR) by lia.
    unfold binary_round_aux. unfold shr_fexp at 1.
    rewrite (digits_53 1 (a / b)) by (change (52 + 1) with 53; change (53 + 1) with 54; lia). rewrite fexp_normal by lia.
    replace (53 + 1 + (ex - ey - 53) - 53 - (ex - ey - 53)) with 1 by lia.
    cbn [shr SpecFloat.iter_pos].
    rewrite (round_loc1 a b) by assumption. reflexivity.
Qed.

(** The product of two numbers with mantissas of 53 bits. *)
Lemma mul_finite (sx : bool) (mx my : positive) (ex ey : Z) :
  2 ^ 52 <= Z.pos mx < 2 ^ 53 -> 2 ^ 52 <= Z.pos my < 2 ^ 53 -> -1126 <= ex + ey ->
  SFmul prec emax (S754_finite sx mx ex) (S754_finite false my ey)
  = if Z.pos mx * Z.pos my <? 2 ^ 105
    then pack sx (rnd (Z.pos mx * Z.pos my) (2 ^ 52)) (ex + ey + 52)
    else pack sx (rnd (Z.pos mx * Z.pos my) (2 ^ 53)) (ex + ey + 53).
Proof.
  intros Hx Hy He. cbn [SFmul]. rewrite xorb_false_r.
  change (Z.pos (mx * my)) with (Z.pos mx * Z.pos my).
  assert (HM : 2 ^ 104 <= Z.pos mx * Z.pos my < 2 ^ 106) by nia.
  destruct (Z.ltb_spec (Z.pos mx * Z.pos my) (2 ^ 105)) as [Hlt|Hge].
  - change (Z.pos mx * Z.pos my) with (Z.pos (mx * my)).
    apply (round_exact sx (mx * my) (ex + ey) 52); [lia| |lia].
    rewrite Pos2Z.inj_mul. cbn. lia.
  - change (Z.pos mx * Z.pos my) with (Z.pos (mx * my)).
    apply (round_exact sx (mx * my) (ex + ey) 53); [lia| |lia].
    rewrite Pos2Z.inj_mul. cbn. lia.
Qed.

Lemma Prim2SF_4e4 : Prim2SF 4e4 = S754_finite false m4e4 (-37).
Proof. reflexivity. Qed.

(** Dividing by 40000.0 and multiplying back moves the mantissa by at most
    one unit, and not at all when it is below that of 40000.0. *)
Lemma div_mul_4e4 (sx : bool) (mx : positive) (ex : Z) :
  2 ^ 52 <= Z.pos mx < 2 ^ 53 -> -52 <= ex <= 971 ->
  exists P,
    SFmul prec emax
      (SFdiv prec emax (S754_finite sx mx ex) (S754_finite false m4e4 (-37)))
      (S754_finite false m4e4 (-37))
    = pack sx P ex /\
    Z.pos mx - 1 <= P <= Z.pos mx + 1 /\
    (P <> Z.pos mx -> Z.pos m4e4 <= Z.pos mx).
Proof.
  intros Hx He.
  rewrite div_finite by (try reflexivity; try assumption; unfold m4e4; lia).
  set (A := Z.pos mx * 2 ^ 53).
  destruct (Z.ltb_spec (Z.pos mx) (Z.pos m4e4)) as [Hlt|Hge].
  - set (Q := rnd A (Z.pos m4e4)).
    pose proof (rnd_bounds A (Z.pos m4e4) ltac:(unfold A; lia) ltac:(lia)) as B1. fold Q in B1.
    assert (HQ : 2 ^ 52 <= Q <= 2 ^ 53 - 1)
      by (apply rnd_range; unfold A, m4e4 in *; lia).
    rewrite pack_finite by lia.
    rewrite mul_finite by (rewrite ?Z2Pos.id by lia; unfold m4e4; lia).
    rewrite Z2Pos.id by lia.
    assert (HM : 2 ^ 105 <= Q * Z.pos m4e4).
    { destruct (Z.eq_dec (Z.pos mx) (2 ^ 52)) as [E|N].
      - unfold Q, A. rewrite E. vm_compute. discriminate.
      - unfold A, m4e4 in *. lia. }
    replace (Q * Z.pos m4e4 <? 2 ^ 105) with false by (symmetry; apply Z.ltb_ge; exact HM).
    set (P := rnd (Q * Z.pos m4e4) (2 ^ 53)).
    pose proof (rnd_bounds (Q * Z.pos m4e4) (2 ^ 53) ltac:(lia) ltac:(lia)) as B2. fold P in B2.
    assert (EP : P = Z.pos mx) by (unfold A, m4e4 in *; lia).
    exists P. replace (ex - -37 - 53 + -37 + 53) with ex by lia.
    split; [reflexivity|]. split; [lia|]. intros N. contradiction.
  - set (Q := rnd A (Z.pos m4e4 * 2)).
    pose proof (rnd_bounds A (Z.pos m4e4 * 2) ltac:(unfold A; lia) ltac:(lia)) as B1.
    fold Q in B1.
    assert (HQ : 2 ^ 52 <= Q <= 2 ^ 53 - 1)
      by (apply rnd_range; unfold A, m4e4 in *; lia).
    rewrite pack_finite by lia.
    rewrite mul_finite by (rewrite ?Z2Pos.id by lia; unfold m4e4; lia).
    rewrite Z2Pos.id by lia.
    assert (HM : Q * Z.pos m4e4 < 2 ^ 105) by (unfold A, m4e4 in *; lia).
    replace (Q * Z.pos m4e4 <? 2 ^ 105) with true by (symmetry; apply Z.ltb_lt; exact HM).
    set (P := rnd (Q * Z.pos m4e4) (2 ^ 52)).
    pose proof (rnd_bounds (Q * Z.pos m4e4) (2 ^ 52) ltac:(lia) ltac:(lia)) as B2. fold P in B2.
    exists P. replace (ex - -37 - 52 + -37 + 52) with ex by lia.
    split; [reflexivity|]. split; [unfold A, m4e4 in *; lia|]. intros _. exact Hge.
Qed.

Lemma SFone_value : SFone prec emax = S754_finite false (Z.to_pos (2 ^ 52)) (-52).
Proof. reflexivity. Qed.

(** One unit in the last place of a number of exponent [ex]. *)
Lemma ulp_finite (s : bool) (mx : positive) (ex : Z) :
  2 ^ 52 <= Z.pos mx < 2 ^ 53 -> -52 <= ex <= 971 ->
  SFulp prec emax (S754_finite s mx ex) = S754_finite false (Z.to_pos (2 ^ 52)) (ex - 52).
Proof.
  intros Hx He. unfold SFulp, SFfrexp.
  assert (Hd : Zdigits2 (Z.pos mx) = 53 + 0) by (apply digits_53; rewrite ?Z.add_0_r; lia).
  cbn [Zdigits2] in Hd.
  rewrite Hd. change (prec <=? 53 + 0) with true. cbv iota. cbn [snd].
  change (ex + prec) with (ex + 53). rewrite fexp_normal by lia.
  replace (ex + 53 - 53) with ex by lia.
  rewrite SFone_value. unfold SFldexp, binary_round.
  change (Z.pos (digits2_pos (Z.to_pos (2 ^ 52)))) with 53.
  rewrite fexp_normal by lia. unfold shl_align.
  replace (53 + (-52 + ex) - 53 - (-52 + ex)) with 0 by lia. cbv iota.
  rewrite (round_exact false (Z.to_pos (2 ^ 52)) (-52 + ex) 0)
    by (rewrite ?Z.add_0_r, ?Z2Pos.id; lia).
  change (rnd (Z.pos (Z.to_pos (2 ^ 52))) (2 ^ 0)) with (2 ^ 52).
  rewrite pack_finite by lia. f_equal. lia.
Qed.

(** A mantissa carried with 52 more bits. *)
Lemma normalize_shifted (m ex : Z) :
  2 ^ 52 <= m <= 2 ^ 53 -> -52 <= ex <= 971 ->
  binary_normalize prec emax (m * 2 ^ 52) (ex - 52) false = pack false m ex.
Proof.
  intros Hm He.
  destruct (m * 2 ^ 52) as [|p|p] eqn:Ep; [lia| |lia].
  cbn [binary_normalize]. unfold binary_round.
  destruct (Z.eq_dec m (2 ^ 53)) as [E|N].
  - assert (Hd : Zdigits2 (Z.pos p) = 53 + 53) by (apply digits_53; lia).
    cbn [Zdigits2] in Hd. rewrite Hd, fexp_normal by lia. unfold shl_align.
    replace (53 + 53 + (ex - 52) - 53 - (ex - 52)) with 53 by lia. cbv iota.
    rewrite (round_exact false p (ex - 52) 53) by lia.
    rewrite <- Ep, E. replace (ex - 52 + 53) with (ex + 1) by lia. reflexivity.
  - assert (Hd : Zdigits2 (Z.pos p) = 53 + 52) by (apply digits_53; lia).
    cbn [Zdigits2] in Hd. rewrite Hd, fexp_normal by lia. unfold shl_align.
    replace (53 + 52 + (ex - 52) - 53 - (ex - 52)) with 52 by lia. cbv iota.
    rewrite (round_exact false p (ex - 52) 52) by lia.
    rewrite <- Ep, rnd_mul by lia. replace (ex - 52 + 52) with ex by lia. reflexivity.
Qed.

Lemma shl_align_52 (mx : positive) (ex : Z) :
  Z.pos (fst (shl_align mx ex (ex - 52))) = Z.pos mx * 2 ^ 52.
Proof.
  unfold shl_align. replace (ex - 52 - ex) with (-52) by lia. cbn [fst]. apply iter_xO.
Qed.

Lemma shl_align_same (mx : positive) (ex : Z) : fst (shl_align mx ex ex) = mx.
Proof. unfold shl_align. rewrite Z.sub_diag. reflexivity. Qed.

(** The number after a positive one. *)
Lemma succ_finite (mx : positive) (ex : Z) :
  2 ^ 52 <= Z.pos mx < 2 ^ 53 -> -52 <= ex <= 971 ->
  SFsucc prec emax (S754_finite false mx ex) = pack false (Z.pos mx + 1) ex.
Proof.
  intros Hx He. cbn [SFsucc]. rewrite ulp_finite by assumption. cbn [SFadd].
  replace (Z.min ex (ex - 52)) with (ex - 52) by lia.
  cbn [cond_Zopp]. rewrite shl_align_52, shl_align_same.
  rewrite Z2Pos.id by lia.
  replace (Z.pos mx * 2 ^ 52 + 2 ^ 52) with ((Z.pos mx + 1) * 2 ^ 52) by lia.
  apply normalize_shifted; lia.
Qed.

(** The number before a positive one that is not a power of two. *)
Lemma pred_finite (mx : positive) (ex : Z) :
  2 ^ 52 < Z.pos mx < 2 ^ 53 -> -52 <= ex <= 971 ->
  SFpred_pos prec emax (S754_finite false mx ex) = pack false (Z.pos mx - 1) ex.
Proof.
  intros Hx He. cbn [SFpred_pos].
  replace (Pos.eqb mx~0 (Pos.iter xO 1%positive (Z.to_pos prec))) with false.
  2:{ symmetry. apply Pos.eqb_neq. intros E.
      assert (E' : Z.pos mx~0 = 2 ^ 53) by (rewrite E; reflexivity). lia. }
  rewrite ulp_finite by lia. cbn [SFsub].
  replace (Z.min ex (ex - 52)) with (ex - 52) by lia.
  cbn [cond_Zopp]. rewrite shl_align_52, shl_align_same.
  rewrite Z2Pos.id by lia.
  replace (Z.pos mx * 2 ^ 52 - 2 ^ 52) with ((Z.pos mx - 1) * 2 ^ 52) by lia.
  apply normalize_shifted; lia.
Qed.

Lemma SFopp_pack (s : bool) (m e : Z) : SFopp (pack s m e) = pack (negb s) m e.
Proof. unfold pack. destruct (m <? 2 ^ 53), (e <=? 971), (e + 1 <=? 971); reflexivity. Qed.

End Binary64Facts.

(** ** Binary64: dividing by the sampling rate and multiplying back *)

Section SamplingRate.
Import Binary64.

Lemma pack_same (s : bool) (mx : positive) (ex : Z) :
  2 ^ 52 <= Z.pos mx < 2 ^ 53 -> ex <= 971 -> pack s (Z.pos mx) ex = S754_finite s mx ex.
Proof. intros Hm He. rewrite pack_finite by assumption. reflexivity. Qed.

(** [(x / 40000.0) * 40000.0] is [x] or one of the two numbers next to it,
    for a number [x] whose exponent is at least [-52]. *)
Lemma neighbours_4e4 (x : float) (s : bool) (mx : positive) (ex : Z) :
  Prim2SF x = S754_finite s mx ex ->
  2 ^ 52 <= Z.pos mx < 2 ^ 53 -> -52 <= ex <= 971 ->
  PrimFloat.mul (PrimFloat.div x 4e4) 4e4 = x \/
  PrimFloat.mul (PrimFloat.div x 4e4) 4e4 = PrimFloat.next_up x \/
  PrimFloat.mul (PrimFloat.div x 4e4) 4e4 = PrimFloat.next_down x.
Proof.
  intros Hx Hm He.
  destruct (div_mul_4e4 s mx ex Hm He) as (P & EP & HP & Hne).
  assert (Ep : Prim2SF (PrimFloat.mul (PrimFloat.div x 4e4) 4e4) = pack s P ex).
  { rewrite mul_spec, div_spec, Hx, Prim2SF_4e4. exact EP. }
  destruct (Z.eq_dec P (Z.pos mx)) as [E0|N0].
  { left. apply Prim2SF_inj. rewrite Ep, Hx, E0. apply pack_same; lia. }
  assert (Hbig : 2 ^ 52 < Z.pos mx) by (specialize (Hne N0); unfold m4e4 in Hne; lia).
  assert (Eup : Prim2SF (PrimFloat.next_up x)
                = if s then pack true (Z.pos mx - 1) ex else pack false (Z.pos mx + 1) ex).
  { rewrite next_up_spec, Hx. unfold SF64succ. destruct s.
    - cbn [SFsucc SFopp negb]. rewrite pred_finite by lia. apply SFopp_pack.
    - apply succ_finite; assumption. }
  assert (Edown : Prim2SF (PrimFloat.next_down x)
                  = if s then pack true (Z.pos mx + 1) ex else pack false (Z.pos mx - 1) ex).
  { rewrite next_down_spec, Hx. unfold SF64pred, SFpred. destruct s.
    - cbn [SFopp negb]. rewrite succ_finite by assumption. apply SFopp_pack.
    - cbn [SFopp negb SFsucc]. rewrite pred_finite by lia. rewrite !SFopp_pack. reflexivity. }
  right.
  destruct (Z.eq_dec P (Z.pos mx + 1)) as [E1|N1].
  - destruct s; [right|left]; apply Prim2SF_inj; rewrite Ep, ?Eup, ?Edown, E1; reflexivity.
  - assert (E2 : P = Z.pos mx - 1) by lia.
    destruct s; [left|right]; apply Prim2SF_inj; rewrite Ep, ?Eup, ?Edown, E2; reflexivity.
Qed.

(** [float(z)] for an integer other than zero: a mantissa of 53 bits and
    an exponent of at least [-52]; below exponent 0 the mantissa holds
    the integer itself. *)
Lemma float_of_int_shape (z : Z) (x : float) :
  PyNum.float_of_int z = Ok x -> z <> 0 ->
  exists mx ex,
    Prim2SF x = S754_finite (z <? 0) mx ex /\
    2 ^ 52 <= Z.pos mx < 2 ^ 53 /\ -52 <= ex <= 971 /\
    (ex < 0 -> Z.pos mx = Z.abs z * 2 ^ (- ex)).
Proof.
  intros H Hz. unfold PyNum.float_of_int in H.
  assert (Hn : exists n, binary_normalize prec emax z 0 false
                         = binary_round prec emax (z <? 0) n 0 /\ Z.abs z = Z.pos n).
  { destruct z as [|n|n]; [contradiction| |]; exists n; split; reflexivity. }
  destruct Hn as (n & En & Ea). rewrite En in H.
  destruct (round_int (z <? 0) n) as (m & e & Er & Hm & He & Hex).
  rewrite Er in H.
  destruct (Z.le_gt_cases e 971) as [Hle|Hgt].
  - rewrite pack_finite in H by assumption.
    assert (Ex : x = SF2Prim (S754_finite (z <? 0) (Z.to_pos m) e))
      by (injection H as E; symmetry; exact E).
    clear H. rewrite Ex.
    exists (Z.to_pos m), e. rewrite Z2Pos.id by lia.
    split; [|rewrite Ea; auto with zarith].
    apply Prim2SF_SF2Prim. cbn [valid_binary]. unfold bounded, canonical_mantissa.
    assert (Hd : Zdigits2 (Z.pos (Z.to_pos m)) = 53 + 0)
      by (apply digits_53; rewrite ?Z.add_0_r, ?Z2Pos.id; lia).
    cbn [Zdigits2] in Hd. rewrite Hd, fexp_normal by lia.
    apply andb_true_intro. split; [apply Z.eqb_eq; lia|apply Z.leb_le; exact Hle].
  - rewrite pack_infinite in H by assumption. discriminate H.
Qed.

(** The clamped chirp length times the sampling rate:
    [float(n) / 40000.0 * 40000.0] is [float(n)] or one of its two
    neighbours. *)
Lemma clamped_product (n : Z) (x : float) :
  PyNum.float_of_int n = Ok x ->
  PrimFloat.mul (PrimFloat.div x 4e4) 4e4 = x \/
  PrimFloat.mul (PrimFloat.div x 4e4) 4e4 = PrimFloat.next_up x \/
  PrimFloat.mul (PrimFloat.div x 4e4) 4e4 = PrimFloat.next_down x.
Proof.
  intros H. destruct (Z.eq_dec n 0) as [->|Hn].
  - left. inversion H. reflexivity.
  - destruct (float_of_int_shape n x H Hn) as (mx & ex & Hx & Hm & He & _).
    exact (neighbours_4e4 x _ mx ex Hx Hm He).
Qed.

End SamplingRate.

Section NominalCount.
Import Binary64.

(** A float that holds the integer [V] (in magnitude): [round] gives it
    back, and the comparison with an int is that of the integers. *)
Lemma integer_float (p : float) (s : bool) (mp : positive) (ep V : Z) :
  Prim2SF p = S754_finite s mp ep ->
  (0 <= ep /\ V = Z.pos mp * 2 ^ ep) \/ (ep < 0 /\ Z.pos mp = V * 2 ^ (- ep)) ->
  PyNum.round p = Ok (if s then - V else V) /\
  forall n, (if s then - V else V) <= n -> PyNum.le_int p n = true.
Proof.
  intros Hp [[He HV]|[He HV]]; unfold PyNum.round, PyNum.le_int; rewrite Hp;
    unfold PyNum.split_half.
  - replace (0 <=? ep) with true by (symmetry; apply Z.leb_le; exact He).
    rewrite <- HV. split; [reflexivity|].
    intros n Hn. apply Z.leb_le. destruct s; [|lia].
    change (Z.neg mp) with (- Z.pos mp). lia.
  - replace (0 <=? ep) with false by (symmetry; apply Z.leb_gt; exact He).
    assert (Hd : 0 < 2 ^ (- ep)) by (apply Z.pow_pos_nonneg; lia).
    rewrite HV, Z.div_mul, Z.mod_mul, Z.eqb_refl by lia.
    split; [reflexivity|].
    intros n Hn. apply Z.leb_le. destruct s.
    + change (Z.neg mp) with (- Z.pos mp). rewrite HV. nia.
    + nia.
Qed.

(** The nominal chirp length times the sampling rate:
    [float(c) * 40000.0] holds an integer, so that when it rounds to a
    count within [n] it is itself within [n]. *)
Lemma nominal_product (c ns n : Z) (x : float) :
  PyNum.float_of_int c = Ok x ->
  PyNum.round (PrimFloat.mul x 4e4) = Ok ns ->
  ns <= n ->
  PyNum.le_int (PrimFloat.mul x 4e4) n = true.
Proof.
  intros Hx Hr Hn. destruct (Z.eq_dec c 0) as [->|Hc].
  - assert (Ex : x = 0%float) by (injection Hx as E; symmetry; exact E).
    subst x. assert (E : ns = 0) by (vm_compute in Hr; congruence). subst ns.
    unfold PyNum.le_int. change (Prim2SF (0 * 4e4)) with (S754_zero false).
    apply Z.leb_le. exact Hn.
  - destruct (float_of_int_shape c x Hx Hc) as (mc & ec & Hs & Hm & He & Hex).
    set (s := c <? 0) in *.
    set (M := Z.pos mc * Z.pos m4e4).
    assert (HM : 2 ^ 104 <= M < 2 ^ 106) by (unfold M, m4e4; lia).
    assert (Ep : exists k,
               (k = 52 \/ k = 53) /\ 2 ^ (52 + k) <= M < 2 ^ (53 + k) /\
               Prim2SF (PrimFloat.mul x 4e4) = pack s (rnd M (2 ^ k)) (ec - 37 + k)).
    { rewrite mul_spec, Hs, Prim2SF_4e4.
      rewrite mul_finite by (unfold m4e4; lia). fold M.
      destruct (Z.ltb_spec M (2 ^ 105)) as [Hlt|Hge].
      - exists 52. split; [auto|]. split; [simpl Z.add; lia|].
        f_equal; lia.
      - exists 53. split; [auto|]. split; [simpl Z.add; lia|].
        f_equal; lia. }
    destruct Ep as (k & Hk & HMk & Ep).
    set (R := rnd M (2 ^ k)) in *.
    assert (HR : 2 ^ 52 <= R <= 2 ^ 53).
    { apply rnd_range; [apply Z.pow_pos_nonneg; lia| |];
        rewrite <- Z.pow_add_r by lia; lia. }
    (* the canonical mantissa and exponent of the product *)
    assert (Hfin : exists mp ep,
               Prim2SF (PrimFloat.mul x 4e4) = S754_finite s mp ep /\
               ((R < 2 ^ 53 /\ Z.pos mp = R /\ ep = ec - 37 + k) \/
                (R = 2 ^ 53 /\ Z.pos mp = 2 ^ 52 /\ ep = ec - 37 + k + 1))).
    { unfold PyNum.round in Hr. rewrite Ep in Hr |- *. unfold pack in *.
      destruct (Z.ltb_spec R (2 ^ 53)) as [Hlt|Hge].
      - destruct (ec - 37 + k <=? 971); [|discriminate Hr].
        exists (Z.to_pos R), (ec - 37 + k). split; [reflexivity|].
        left. rewrite Z2Pos.id by lia. auto.
      - destruct (ec - 37 + k + 1 <=? 971); [|discriminate Hr].
        exists (Z.to_pos (2 ^ 52)), (ec - 37 + k + 1). split; [reflexivity|].
        right. split; [lia|]. split; reflexivity. }
    destruct Hfin as (mp & ep & Hp & Hcanon).
    destruct (Z.le_gt_cases 0 ep) as [Hpos|Hneg].
    + destruct (integer_float _ s mp ep (Z.pos mp * 2 ^ ep) Hp) as [Hround Hle];
        [left; auto|].
      rewrite Hround in Hr. injection Hr as <-. apply Hle. exact Hn.
    + (* below exponent 0 nothing was rounded *)
      assert (Hec : ec < 0) by lia.
      specialize (Hex Hec).
      set (u := 37 - k - ec).
      assert (Hu : 0 < u) by (unfold u; lia).
      assert (EM : M = Z.abs c * 40000 * 2 ^ u * 2 ^ k).
      { assert (Epow : 2 ^ (- ec) * 2 ^ 37 = 2 ^ u * 2 ^ k)
          by (rewrite <- !Z.pow_add_r by lia; f_equal; unfold u; lia).
        assert (E4 : Z.pos m4e4 = 40000 * 2 ^ 37) by reflexivity.
        unfold M. rewrite Hex, E4.
        rewrite <- (Z.mul_assoc (Z.abs c * 40000)), <- Epow. ring. }
      assert (ER : R = Z.abs c * 40000 * 2 ^ u).
      { unfold R. rewrite EM. apply rnd_mul. apply Z.pow_pos_nonneg; lia. }
      assert (HRlt : R < 2 ^ 53).
      { assert (Hk2 : 0 < 2 ^ k) by (apply Z.pow_pos_nonneg; lia).
        assert (E53 : 2 ^ (53 + k) = 2 ^ 53 * 2 ^ k) by (apply Z.pow_add_r; lia).
        rewrite EM, <- ER, E53 in HMk. nia. }
      destruct Hcanon as [(_ & Emp & Eep)|(E53 & _)]; [|lia].
      destruct (integer_float _ s mp ep (Z.abs c * 40000) Hp) as [Hround Hle].
      { right. split; [exact Hneg|]. rewrite Emp, ER. f_equal. f_equal. unfold u. lia. }
      rewrite Hround in Hr. injection Hr as <-. apply Hle. exact Hn.
Qed.

End NominalCount.

Section HeaderTheorems.
Import Obj ApresHeader.

Ltac look := repeat first [rewrite lookup_insert_eq | rewrite lookup_insert_ne by discriminate].

Lemma ramp_direction_run (cell0 cell1 : string) (s s' : pyobj) :
  update_parameters cell0 cell1 s = (Ok tt, s') ->
  exists stop,
    s' !! "stopFreq" = Some (VFloat stop) /\
    (flags_both s' = false ->
     s' !! "rampDir" = Some (VStr (if PrimFloat.ltb 400e6%float stop then "down" else "up"))) /\
    (flags_both s' = true ->
     s' !! "rampDir" = Some (VStr "upDown") /\
     s' !! "nchirpsPerPeriod" = Some (VFloat PrimFloat.nan)).
Proof.
  intros H.
  apply update_parameters_Ok in H
    as (header & s1 & out0 & out1 & s3 & s4 & s5 & s6 & s7 & s8 & _ & _ & _ & _ & _ & _ & _
        & s9 & Hdir & Hdw).
  apply set_rampDir_Ok in Hdir as (stop & Hstop & ->).
  exists stop.
  apply apply_no_dwell_Ok in Hdw as [[Hf ->]|[Hf ->]].
  - split; [look; exact Hstop|]. split.
    + intros _. look. reflexivity.
    + intros Ht. congruence.
  - assert (Hsame : flags_both
              (<["nchirpsPerPeriod" := VFloat PrimFloat.nan]>
                 (<["rampDir" := VStr "upDown"]>
                    (<["rampDir" := VStr (if PrimFloat.ltb 400e6%float stop
                                          then "down" else "up")]> s8))) = true).
    { rewrite <- Hf. apply flags_both_ext; look; reflexivity. }
    split; [look; exact Hstop|]. split.
    + intros Hc. congruence.
    + intros _. split; look; reflexivity.
Qed.

Lemma chirp_length_run (cell0 cell1 : string) (s s' : pyobj) :
  update_parameters cell0 cell1 s = (Ok tt, s') ->
  exists n ns,
    s' !! "snum" = Some (VInt n) /\
    s' !! "fs" = Some (VFloat 4e4) /\
    s' !! "nchirpSamples" = Some (VInt ns) /\
    ((ns <= n /\
      exists c x, s' !! "chirpLength" = Some (VInt c) /\
                  PyNum.float_of_int c = Ok x /\
                  PyNum.round (PrimFloat.mul x 4e4) = Ok ns) \/
     (n < ns /\
      exists x, PyNum.float_of_int n = Ok x /\
                s' !! "chirpLength" = Some (VFloat (PrimFloat.div x 4e4)))).
Proof.
  intros H.
  apply update_parameters_Ok in H
    as (header & s1 & out0 & out1 & s3 & s4 & s5 & s6 & s7 & s8 & _ & H3 & H4 & H5 & H6 & H7
        & H8 & s9 & H9 & H10).
  apply set_snum_Ok in H3 as (n & _ & ->).
  apply set_nstepsDDS_Ok in H4 as (nsteps & ->).
  apply set_chirpLength_Ok in H5 as (c & ->).
  apply set_nchirpSamples_Ok in H6 as (v & fs & p & ns & Hv & Hfs & Hp & Hr & ->).
  revert Hv Hfs. look. intros Hv Hfs. inversion Hv; subst v. inversion Hfs; subst fs.
  apply int_times_Ok in Hp as [_ (x & Hx & ->)].
  apply clamp_chirpLength_Ok in H7 as (ns' & n' & Hns' & Hn' & Hclamp).
  revert Hns' Hn'. look. intros Hns' Hn'. inversion Hns'; subst ns'. inversion Hn'; subst n'.
  apply set_K_Ok in H8 as (g & ->).
  apply set_rampDir_Ok in H9 as (stop & _ & ->).
  exists n, ns.
  destruct Hclamp as [[Hle ->]|[Hlt (fs & y & q & Hfs' & Hy & Hq & ->)]].
  - apply apply_no_dwell_Ok in H10 as [[_ ->]|[_ ->]];
      (split; [look; reflexivity|]); (split; [look; reflexivity|]);
      (split; [look; reflexivity|]);
      left; (split; [exact Hle|]); exists c, x; (split; [look; reflexivity|]); auto.
  - revert Hfs'. look. intros Hfs'. inversion Hfs'; subst fs.
    unfold PyNum.fdiv in Hq. simpl in Hq. inversion Hq; subst q.
    apply apply_no_dwell_Ok in H10 as [[_ ->]|[_ ->]];
      (split; [look; reflexivity|]); (split; [look; reflexivity|]);
      (split; [look; reflexivity|]);
      right; (split; [exact Hlt|]); exists y; (split; [exact Hy|]); look; reflexivity.
Qed.

(** C7. When [update_parameters] completes, the ramp direction is
    [down] if the decoded stop frequency is above 400 MHz and [up]
    otherwise, unless both decoded no-dwell flags are set: then it is
    [upDown] and [nchirpsPerPeriod] is not-a-number. *)
Theorem ramp_direction_resolved (cell0 cell1 : string) (s : pyobj) :
  outcome (update_parameters cell0 cell1 s) = Ok tt ->
  exists stop,
    final (update_parameters cell0 cell1 s) !! "stopFreq" = Some (VFloat stop) /\
    (flags_both (final (update_parameters cell0 cell1 s)) = false ->
     final (update_parameters cell0 cell1 s) !! "rampDir"
       = Some (VStr (if PrimFloat.ltb 400e6%float stop then "down" else "up"))) /\
    (flags_both (final (update_parameters cell0 cell1 s)) = true ->
     final (update_parameters cell0 cell1 s) !! "rampDir" = Some (VStr "upDown") /\
     final (update_parameters cell0 cell1 s) !! "nchirpsPerPeriod"
       = Some (VFloat PrimFloat.nan)).
Proof.
  destruct (update_parameters cell0 cell1 s) as [[[]|e] s'] eqn:E; simpl;
    [intros _ | discriminate].
  exact (ramp_direction_run cell0 cell1 s s' E).
Qed.

(** C6, as the code has it.  When [update_parameters] completes, the
    sampling rate is 40 kHz and one of two things holds.  Either the
    nominal sample count [nchirpSamples = round(chirpLength * fs)] is
    within [snum]: the chirp length is the integer it was computed as,
    and the product [chirpLength * fs] does not exceed [snum] (the
    float is compared with the int exactly, as Python does).  Or the
    nominal count exceeds [snum]: the chirp length is the binary64
    quotient [float(snum) / fs], and the product [chirpLength * fs] is
    [float(snum)] or one of the two binary64 numbers next to it, so
    that it exceeds [float(snum)] by one unit in the last place at
    most. *)
Theorem chirp_length_clamped (cell0 cell1 : string) (s : pyobj) :
  outcome (update_parameters cell0 cell1 s) = Ok tt ->
  exists n ns p,
    final (update_parameters cell0 cell1 s) !! "snum" = Some (VInt n) /\
    final (update_parameters cell0 cell1 s) !! "fs" = Some (VFloat 4e4) /\
    final (update_parameters cell0 cell1 s) !! "nchirpSamples" = Some (VInt ns) /\
    chirp_samples (final (update_parameters cell0 cell1 s)) = Some p /\
    ((ns <= n /\
      (exists c x,
          final (update_parameters cell0 cell1 s) !! "chirpLength" = Some (VInt c) /\
          PyNum.float_of_int c = Ok x /\
          p = PrimFloat.mul x 4e4 /\
          PyNum.round p = Ok ns) /\
      PyNum.le_int p n = true) \/
     (n < ns /\
      exists x,
        PyNum.float_of_int n = Ok x /\
        final (update_parameters cell0 cell1 s) !! "chirpLength"
          = Some (VFloat (PrimFloat.div x 4e4)) /\
        p = PrimFloat.mul (PrimFloat.div x 4e4) 4e4 /\
        (p = x \/ p = PrimFloat.next_up x \/ p = PrimFloat.next_down x))).
Proof.
  destruct (update_parameters cell0 cell1 s) as [[[]|e] s'] eqn:E; simpl;
    [intros _ | discriminate].
  destruct (chirp_length_run cell0 cell1 s s' E) as (n & ns & Hn & Hfs & Hns & Hcase).
  destruct Hcase as [(Hle & c & x & Hc & Hx & Hr)|(Hlt & x & Hx & Hc)].
  - exists n, ns, (PrimFloat.mul x 4e4).
    split; [exact Hn|]. split; [exact Hfs|]. split; [exact Hns|].
    split; [unfold chirp_samples; rewrite Hc, Hfs, Hx; reflexivity|].
    left. split; [exact Hle|]. split.
    + exists c, x. auto.
    + exact (nominal_product c ns n x Hx Hr Hle).
  - exists n, ns, (PrimFloat.mul (PrimFloat.div x 4e4) 4e4).
    split; [exact Hn|]. split; [exact Hfs|]. split; [exact Hns|].
    split; [unfold chirp_samples; rewrite Hc, Hfs; reflexivity|].
    right. split; [exact Hlt|]. exists x.
    split; [exact Hx|]. split; [exact Hc|]. split; [reflexivity|].
    exact (clamped_product n x Hx).
Qed.

End HeaderTheorems.

(** ** ApresHeader: a register that is not in the header *)

Section MissingRegister.
Import Obj ApresHeader.

Lemma touches_weaken {A} (m : M A) (keys keys' : list string) :
  touches m keys -> (forall k, k ∈ keys -> k ∈ keys') -> touches m keys'.
Proof. intros H Hsub s r s' Hm k Hk. apply (H s r s' Hm). auto. Qed.

Lemma reads_ret {A} (a : A) : reads (ret a).
Proof. intros s r s' H. inversion H. reflexivity. Qed.
Lemma reads_raise {A} (e : exn) : reads (@raise A e).
Proof. intros s r s' H. inversion H. reflexivity. Qed.
Lemma reads_lift {A} (x : result A) : reads (lift x).
Proof. intros s r s' H. inversion H. reflexivity. Qed.
Lemma reads_getattr (n : string) : reads (getattr n).
Proof. intros s r s' H. unfold getattr in H. destruct (s !! n); inversion H; reflexivity. Qed.
Lemma reads_bind {A B} (m : M A) (f : A -> M B) :
  reads m -> (forall a, reads (f a)) -> reads (bind m f).
Proof.
  intros Hm Hf s r s' H. unfold bind in H.
  destruct (m s) as [[a|e] s1] eqn:E.
  - rewrite (Hf a _ _ _ H). exact (Hm _ _ _ E).
  - inversion H; subst. exact (Hm _ _ _ E).
Qed.

Lemma needs_getattr (a : string) : needs (getattr a) a.
Proof. intros s H. unfold getattr. rewrite H. eauto. Qed.

Lemma needs_bind_l {A B} (m : M A) (f : A -> M B) (a : string) :
  needs m a -> needs (bind m f) a.
Proof. intros Hm s H. destruct (Hm s H) as (e & E). exists e. unfold bind. rewrite E. reflexivity. Qed.

Lemma needs_bind_r {A B} (m : M A) (f : A -> M B) (a : string) :
  reads m -> (forall x, needs (f x) a) -> needs (bind m f) a.
Proof.
  intros Hm Hf s H. unfold bind. destruct (m s) as [[x|e] s1] eqn:E.
  - rewrite (Hm _ _ _ E). exact (Hf x s H).
  - rewrite (Hm _ _ _ E). eauto.
Qed.

Lemma needs_raises_within {A} (m : M A) (a : string) (keys : list string) (s : pyobj) :
  needs m a -> s !! a = None -> raises_within m keys s.
Proof. intros Hm H. destruct (Hm s H) as (e & E). exists e, s. auto. Qed.

Lemma raises_within_after {A B} (m : M A) (f : A -> M B) (keys : list string) (s : pyobj) :
  touches m keys ->
  (forall x s1, (forall k, k ∉ keys -> s1 !! k = s !! k) -> raises_within (f x) keys s1) ->
  raises_within (bind m f) keys s.
Proof.
  intros Hm Hf. apply raises_within_bind; [exact Hm|].
  intros x s1 E. apply Hf. exact (Hm _ _ _ E).
Qed.

End MissingRegister.

Ltac notin :=
  let H := fresh in
  intros H; repeat (apply elem_of_cons in H as [H|H]; [discriminate H|]);
  apply elem_of_nil in H; exact H.

Ltac isin := solve [repeat first [apply list_elem_of_here | apply list_elem_of_further]].

Ltac reads_tac :=
  repeat first
    [ apply reads_ret | apply reads_raise | apply reads_lift | apply reads_getattr
    | apply reads_bind; [|intros ?]
    | match goal with |- Obj.reads (if ?b then _ else _) => destruct b end
    | match goal with |- Obj.reads (match ?x with _ => _ end) => destruct x end ].

Ltac touches_keys :=
  repeat first
    [ apply touches_ret | apply touches_raise | apply touches_lift
    | apply touches_getattr
    | apply touches_setattr; first [assumption | isin]
    | apply touches_bind; [|intros ?]
    | match goal with |- Obj.touches (if ?b then _ else _) _ => destruct b end
    | match goal with |- Obj.touches (match ?x with _ => _ end) _ => destruct x end ].

Section MissingRegister2.
Import Obj ApresHeader.

Ltac unfold_ops :=
  unfold scaled_by_clock, scaled_time, int_times, int_over, int_of_char,
    get_float, get_int, get_str, list_index, times_float.

(** The register loop assigns the attributes of a register only when the
    register's name is in the header. *)
Lemma register_case_touches (header reg : string) (l1 l2 : Z) (keys : list string) :
  PyStr.contains reg header = false ->
  (reg <> "Reg01" -> "noDwellHigh" ∈ keys /\ "noDwellLow" ∈ keys) ->
  (reg <> "Reg0B" -> "startFreq" ∈ keys /\ "stopFreq" ∈ keys) ->
  (reg <> "Reg0C" -> "rampUpStep" ∈ keys /\ "rampDownStep" ∈ keys) ->
  (reg <> "Reg0D" -> "tstepUp" ∈ keys /\ "tstepDown" ∈ keys) ->
  touches (register_case header l1 l2) keys.
Proof.
  intros Hno H01 H0B H0C H0D. unfold register_case.
  assert (Hcase : forall word, String.eqb (PyStr.slice header l1 l2) word = true ->
                               reg <> word).
  { intros word E ->. apply slice_eqb_contains in E. congruence. }
  destruct (String.eqb _ "Reg01") eqn:E1.
  { destruct (H01 (Hcase _ E1)). unfold_ops. touches_keys. }
  destruct (String.eqb _ "Reg0B") eqn:E2.
  { destruct (H0B (Hcase _ E2)). unfold_ops. touches_keys. }
  destruct (String.eqb _ "Reg0C") eqn:E3.
  { destruct (H0C (Hcase _ E3)). unfold_ops. touches_keys. }
  destruct (String.eqb _ "Reg0D") eqn:E4.
  { destruct (H0D (Hcase _ E4)). unfold_ops. touches_keys. }
  apply touches_ret.
Qed.

Lemma register_loop_touches (header reg : string) (loc1 loc2 : list Z) (k : nat)
    (keys : list string) :
  PyStr.contains reg header = false ->
  (reg <> "Reg01" -> "noDwellHigh" ∈ keys /\ "noDwellLow" ∈ keys) ->
  (reg <> "Reg0B" -> "startFreq" ∈ keys /\ "stopFreq" ∈ keys) ->
  (reg <> "Reg0C" -> "rampUpStep" ∈ keys /\ "rampDownStep" ∈ keys) ->
  (reg <> "Reg0D" -> "tstepUp" ∈ keys /\ "tstepDown" ∈ keys) ->
  touches (register_loop header loc1 loc2 k) keys.
Proof.
  intros Hno H01 H0B H0C H0D. revert k.
  induction loc1 as [|l1 loc1 IH]; intros k; simpl; [apply touches_ret|].
  apply touches_bind; [unfold list_index; destruct (nth_error loc2 k); touches_keys|].
  intros l2. apply touches_bind; [|intros _; apply IH].
  apply (register_case_touches header reg); assumption.
Qed.

Lemma needs_get_float (a : string) : needs (get_float a) a.
Proof. apply needs_bind_l, needs_getattr. Qed.
Lemma needs_get_int (a : string) : needs (get_int a) a.
Proof. apply needs_bind_l, needs_getattr. Qed.

Lemma reads_get_float (a : string) : reads (get_float a).
Proof. unfold get_float. reads_tac. Qed.
Lemma reads_get_int (a : string) : reads (get_int a).
Proof. unfold get_int. reads_tac. Qed.

Lemma set_nstepsDDS_needs_stopFreq : needs set_nstepsDDS "stopFreq".
Proof. apply needs_bind_l, needs_get_float. Qed.

Lemma set_nstepsDDS_needs_rampUpStep : needs set_nstepsDDS "rampUpStep".
Proof.
  unfold set_nstepsDDS.
  apply needs_bind_r; [apply reads_get_float|intros ?].
  apply needs_bind_r; [apply reads_get_float|intros ?].
  apply needs_bind_l, needs_get_float.
Qed.

Lemma set_chirpLength_needs_tstepUp : needs set_chirpLength "tstepUp".
Proof.
  unfold set_chirpLength.
  apply needs_bind_r; [apply reads_get_int|intros ?].
  apply needs_bind_l, needs_get_float.
Qed.

Lemma apply_no_dwell_needs_noDwellHigh : needs apply_no_dwell "noDwellHigh".
Proof. apply needs_bind_l, needs_bind_l, needs_get_int. Qed.

Lemma stage_touches :
  forall keys,
    (forall out1, "snum" ∈ keys -> touches (set_snum out1) keys) /\
    ("nstepsDDS" ∈ keys -> touches set_nstepsDDS keys) /\
    ("chirpLength" ∈ keys -> touches set_chirpLength keys) /\
    ("nchirpSamples" ∈ keys -> touches set_nchirpSamples keys) /\
    ("chirpLength" ∈ keys -> touches clamp_chirpLength keys) /\
    ("K" ∈ keys -> touches set_K keys) /\
    ("rampDir" ∈ keys -> touches set_rampDir keys) /\
    ("fs" ∈ keys -> forall out0, touches (sampling_rate out0) keys).
Proof.
  intros keys.
  repeat split; intros; try intros ?;
    unfold set_snum, set_nstepsDDS, set_chirpLength, set_nchirpSamples, clamp_chirpLength,
      set_K, set_rampDir, sampling_rate;
    unfold_ops; touches_keys.
Qed.

End MissingRegister2.

Section MissingRegister3.
Import Obj ApresHeader.

Ltac look := repeat first [rewrite lookup_insert_eq | rewrite lookup_insert_ne by discriminate].

Lemma with_header_lookup (header a : string) :
  a <> "header" -> a <> "fs" -> a <> "fsysclk" -> with_header header !! a = None.
Proof.
  intros H1 H2 H3. unfold with_header, init.
  rewrite !lookup_insert_ne by congruence. apply lookup_empty.
Qed.

(** The run up to [derive] leaves [a] unset when the register that
    assigns it is not in the header; if [derive] then cannot get past the
    missing attribute, the whole call raises. *)
Lemma update_parameters_raises (cell0 cell1 header reg a : string) (keys : list string) :
  PyStr.contains reg header = false ->
  (reg <> "Reg01" -> "noDwellHigh" ∈ keys /\ "noDwellLow" ∈ keys) ->
  (reg <> "Reg0B" -> "startFreq" ∈ keys /\ "stopFreq" ∈ keys) ->
  (reg <> "Reg0C" -> "rampUpStep" ∈ keys /\ "rampDownStep" ∈ keys) ->
  (reg <> "Reg0D" -> "tstepUp" ∈ keys /\ "tstepDown" ∈ keys) ->
  "fs" ∈ keys ->
  a ∉ keys ->
  with_header header !! a = None ->
  (forall out1 s, s !! a = None -> raises_within (derive out1) keys s) ->
  raises_within (update_parameters cell0 cell1) keys (with_header header).
Proof.
  intros Hno H01 H0B H0C H0D Hfs Ha Hinit Hderive. unfold update_parameters.
  apply raises_within_bind; [unfold get_str; touches_keys|].
  intros header' s1 E. apply get_str_Ok in E as [-> E].
  assert (header' = header) as ->.
  { unfold with_header in E. rewrite lookup_insert_eq in E. congruence. }
  apply raises_within_after;
    [apply (register_loop_touches header reg); assumption|].
  intros [] s2 F2.
  apply raises_within_after; [apply stage_touches; exact Hfs|].
  intros [] s3 F3. apply Hderive.
  rewrite (F3 a Ha), (F2 a Ha). exact Hinit.
Qed.

Ltac stage H :=
  apply raises_within_after;
  [ apply stage_touches; isin
  | let F := fresh "F" in
    intros [] ? F;
    match type of H with
    | ?s !! ?a = None =>
        let H' := fresh "H" in
        pose proof (F a ltac:(notin)) as H'; rewrite H in H'; clear H F; rename H' into H
    end ].

Ltac stops_at lem H :=
  first [ apply (needs_raises_within _ _ _ _ lem H)
        | apply raises_within_first; apply (needs_raises_within _ _ _ _ lem H) ].

Lemma missing_Reg0B (cell0 cell1 header : string) :
  PyStr.contains "Reg0B" header = false ->
  raises_within (update_parameters cell0 cell1) keys_Reg0B (with_header header).
Proof.
  intros Hno.
  apply (update_parameters_raises _ _ header "Reg0B" "stopFreq"); try exact Hno;
    try (intros Hc; congruence); try (intros _; split; isin); try isin; try notin.
  - apply with_header_lookup; discriminate.
  - intros out1 s H. unfold derive.
    stage H. stops_at set_nstepsDDS_needs_stopFreq H.
Qed.

Lemma missing_Reg0C (cell0 cell1 header : string) :
  PyStr.contains "Reg0C" header = false ->
  raises_within (update_parameters cell0 cell1) keys_Reg0C (with_header header).
Proof.
  intros Hno.
  apply (update_parameters_raises _ _ header "Reg0C" "rampUpStep"); try exact Hno;
    try (intros Hc; congruence); try (intros _; split; isin); try isin; try notin.
  - apply with_header_lookup; discriminate.
  - intros out1 s H. unfold derive.
    stage H. stops_at set_nstepsDDS_needs_rampUpStep H.
Qed.

Lemma missing_Reg0D (cell0 cell1 header : string) :
  PyStr.contains "Reg0D" header = false ->
  raises_within (update_parameters cell0 cell1) keys_Reg0D (with_header header).
Proof.
  intros Hno.
  apply (update_parameters_raises _ _ header "Reg0D" "tstepUp"); try exact Hno;
    try (intros Hc; congruence); try (intros _; split; isin); try isin; try notin.
  - apply with_header_lookup; discriminate.
  - intros out1 s H. unfold derive.
    stage H. stage H. stops_at set_chirpLength_needs_tstepUp H.
Qed.

Lemma missing_Reg01 (cell0 cell1 header : string) :
  PyStr.contains "Reg01" header = false ->
  raises_within (update_parameters cell0 cell1) keys_Reg01 (with_header header).
Proof.
  intros Hno.
  apply (update_parameters_raises _ _ header "Reg01" "noDwellHigh"); try exact Hno;
    try (intros Hc; congruence); try (intros _; split; isin); try isin; try notin.
  - apply with_header_lookup; discriminate.
  - intros out1 s H. unfold derive.
    do 7 stage H. stops_at apply_no_dwell_needs_noDwellHigh H.
Qed.

(** C5, as the code has it.  When one of the four register names does
    not occur in the header, [update_parameters] on a fresh object raises
    (an [AttributeError] on the first attribute it misses, if nothing
    fails earlier), and no derived attribute that depends on the absent
    register has been assigned -- except [rampDir], which holds its
    [up]/[down] value by the time the no-dwell flags of an absent [Reg01]
    are looked up. *)
Theorem missing_register_raises (cell0 cell1 header reg : string) :
  reg ∈ required_registers ->
  PyStr.contains reg header = false ->
  exists e s',
    update_parameters cell0 cell1 (with_header header) = (Raise e, s') /\
    forall a, a ∈ derived_from reg -> (reg = "Reg01" -> a <> "rampDir") -> s' !! a = None.
Proof.
  intros Hreg Hno. unfold required_registers in Hreg.
  repeat (apply elem_of_cons in Hreg as [->|Hreg]).
  - destruct (missing_Reg01 cell0 cell1 header Hno) as (e & s' & E & F).
    exists e, s'. split; [exact E|]. intros a Ha Hx. simpl in Ha.
    repeat (apply elem_of_cons in Ha as [->|Ha]).
    + exfalso. apply Hx; reflexivity.
    + rewrite F by notin. apply with_header_lookup; discriminate.
    + apply elem_of_nil in Ha. contradiction.
  - destruct (missing_Reg0B cell0 cell1 header Hno) as (e & s' & E & F).
    exists e, s'. split; [exact E|]. intros a Ha _. simpl in Ha.
    repeat (apply elem_of_cons in Ha as [->|Ha]);
      try (rewrite F by notin; apply with_header_lookup; discriminate).
    apply elem_of_nil in Ha. contradiction.
  - destruct (missing_Reg0C cell0 cell1 header Hno) as (e & s' & E & F).
    exists e, s'. split; [exact E|]. intros a Ha _. simpl in Ha.
    repeat (apply elem_of_cons in Ha as [->|Ha]);
      try (rewrite F by notin; apply with_header_lookup; discriminate).
    apply elem_of_nil in Ha. contradiction.
  - destruct (missing_Reg0D cell0 cell1 header Hno) as (e & s' & E & F).
    exists e, s'. split; [exact E|]. intros a Ha _. simpl in Ha.
    repeat (apply elem_of_cons in Ha as [->|Ha]);
      try (rewrite F by notin; apply with_header_lookup; discriminate).
    apply elem_of_nil in Ha. contradiction.
  - apply elem_of_nil in Hreg. contradiction.
Qed.

End MissingRegister3.

Section HeaderExamples.
Import Obj ApresHeader.

Lemma ramp_direction_resolved_witness :
  outcome (update_parameters "0.0" "0.0"
             (with_header (example_header "000E0000" "0" "40000"))) = Ok tt /\
  exists stop,
    final (decode (example_header "000E0000" "0" "40000")) !! "stopFreq"
      = Some (VFloat stop) /\
    (flags_both (final (decode (example_header "000E0000" "0" "40000"))) = false ->
     final (decode (example_header "000E0000" "0" "40000")) !! "rampDir"
       = Some (VStr (if PrimFloat.ltb 400e6%float stop then "down" else "up"))) /\
    (flags_both (final (decode (example_header "000E0000" "0" "40000"))) = true ->
     final (decode (example_header "000E0000" "0" "40000")) !! "rampDir"
       = Some (VStr "upDown") /\
     final (decode (example_header "000E0000" "0" "40000")) !! "nchirpsPerPeriod"
       = Some (VFloat PrimFloat.nan)).
Proof.
  split; [vm_compute; reflexivity|].
  apply (ramp_direction_resolved "0.0" "0.0"
           (with_header (example_header "000E0000" "0" "40000"))).
  vm_compute; reflexivity.
Defined.

Lemma chirp_length_clamped_witness :
  outcome (update_parameters "0.0" "0.0"
             (with_header (example_header "00080000" "0" "51"))) = Ok tt /\
  exists n ns p,
    final (decode (example_header "00080000" "0" "51")) !! "snum" = Some (VInt n) /\
    final (decode (example_header "00080000" "0" "51")) !! "fs" = Some (VFloat 4e4) /\
    final (decode (example_header "00080000" "0" "51")) !! "nchirpSamples"
      = Some (VInt ns) /\
    chirp_samples (final (decode (example_header "00080000" "0" "51"))) = Some p /\
    ((ns <= n /\
      (exists c x,
          final (decode (example_header "00080000" "0" "51")) !! "chirpLength"
            = Some (VInt c) /\
          PyNum.float_of_int c = Ok x /\
          p = PrimFloat.mul x 4e4 /\
          PyNum.round p = Ok ns) /\
      PyNum.le_int p n = true) \/
     (n < ns /\
      exists x,
        PyNum.float_of_int n = Ok x /\
        final (decode (example_header "00080000" "0" "51")) !! "chirpLength"
          = Some (VFloat (PrimFloat.div x 4e4)) /\
        p = PrimFloat.mul (PrimFloat.div x 4e4) 4e4 /\
        (p = x \/ p = PrimFloat.next_up x \/ p = PrimFloat.next_down x))).
Proof.
  split; [vm_compute; reflexivity|].
  apply (chirp_length_clamped "0.0" "0.0"
           (with_header (example_header "00080000" "0" "51"))).
  vm_compute; reflexivity.
Defined.

(** Against C6 as stated: with 51 ADC samples the clamped chirp length
    times the sampling rate is 51.00000000000001, above [snum]. *)
Lemma chirp_budget_exceeded :
  outcome (decode (example_header "00080000" "0" "51")) = Ok tt /\
  final (decode (example_header "00080000" "0" "51")) !! "snum" = Some (VInt 51) /\
  chirp_samples (final (decode (example_header "00080000" "0" "51")))
    = Some 0x1.9800000000001p+5%float /\
  within_budget (final (decode (example_header "00080000" "0" "51"))) = false.
Proof. repeat split; vm_compute; reflexivity. Qed.

(** The two branches on the example header: with 51 ADC samples the
    product is the binary64 number after 51.0; with 200000 the chirp
    length stays 3, the nominal count is 120000 and the product is
    120000.0. *)
Lemma chirp_product_examples :
  chirp_samples (final (decode (example_header "00080000" "0" "51")))
    = Some (PrimFloat.next_up 51) /\
  final (decode (example_header "00080000" "0" "200000")) !! "chirpLength"
    = Some (VInt 3) /\
  chirp_samples (final (decode (example_header "00080000" "0" "200000")))
    = Some 120000%float /\
  PyNum.le_int 120000 200000 = true.
Proof. repeat split; vm_compute; reflexivity. Qed.

(** C3 fails on the code: with [SamplingFreqMode=1] in the header the
    decoded token is the text [1], the comparison with the number [1] is
    false, and the sampling rate is 40 kHz. *)
Theorem sampling_mode_one_gives_40kHz :
  token_value (example_header "00080000" "1" "40000") "SamplingFreqMode=" (u32 "0.0") = "1" /\
  outcome (decode (example_header "00080000" "1" "40000")) = Ok tt /\
  final (decode (example_header "00080000" "1" "40000")) !! "fs" = Some (VFloat 4e4).
Proof. repeat split; vm_compute; reflexivity. Qed.

Lemma file_format_no_token (s : pyobj) (header : string) :
  s !! "header" = Some (VStr header) ->
  PyStr.contains "SW_Issue=" header = false ->
  PyStr.contains "SubBursts in burst:" header = false ->
  PyStr.contains "*** Burst Header ***" header = false ->
  PyStr.contains "RADAR TIME" header = false ->
  file_format s = (Ok tt, s).
Proof.
  intros Hh H1 H2 H3 H4. cbv [file_format bind get_str getattr].
  rewrite Hh. cbv [ret]. rewrite H1, H2, H3, H4. reflexivity.
Qed.

(** C4 fails on the code: on a header with none of the four keywords
    [file_format] returns normally and assigns nothing. *)
Theorem file_format_unknown_returns :
  PyStr.contains "SW_Issue=" "b'no keyword in here'" = false /\
  PyStr.contains "SubBursts in burst:" "b'no keyword in here'" = false /\
  PyStr.contains "*** Burst Header ***" "b'no keyword in here'" = false /\
  PyStr.contains "RADAR TIME" "b'no keyword in here'" = false /\
  file_format (with_header "b'no keyword in here'")
    = (Ok tt, with_header "b'no keyword in here'").
Proof. repeat split; vm_compute; reflexivity. Qed.

(** Against C5 as stated: without [Reg01] the call raises, but [rampDir]
    has been assigned. *)
Lemma missing_Reg01_leaves_rampDir :
  PyStr.contains "Reg01" header_without_Reg01 = false /\
  outcome (decode header_without_Reg01) = Raise (AttributeError "noDwellHigh") /\
  final (decode header_without_Reg01) !! "rampDir" = Some (VStr "up") /\
  ~ fails_before "0.0" "0.0" header_without_Reg01 "Reg01".
Proof.
  repeat split; try (vm_compute; reflexivity).
  intros (e & s' & E & F).
  assert (H : final (decode header_without_Reg01) !! "rampDir" = Some (VStr "up"))
    by (vm_compute; reflexivity).
  unfold decode in H. rewrite E in H. unfold final, snd in H.
  rewrite (F "rampDir") in H; [discriminate|].
  simpl. apply list_elem_of_here.
Qed.

Lemma missing_register_raises_witness :
  "Reg01" ∈ required_registers /\
  PyStr.contains "Reg01" header_without_Reg01 = false /\
  exists e s',
    update_parameters "0.0" "0.0" (with_header header_without_Reg01) = (Raise e, s') /\
    forall a, a ∈ derived_from "Reg01" -> ("Reg01" = "Reg01" -> a <> "rampDir") ->
              s' !! a = None.
Proof.
  split; [isin|]. split; [vm_compute; reflexivity|].
  apply (missing_register_raises "0.0" "0.0" header_without_Reg01 "Reg01");
    [isin | vm_compute; reflexivity].
Defined.

End HeaderExamples.

(** ** Little-endian fields: what is written is what is read *)

Section BinFacts.
Import Bin.

Lemma Z_of_byte_range (b : Byte.byte) : 0 <= Z_of_byte b < 256.
Proof.
  unfold Z_of_byte. pose proof (Byte.to_N_bounded b) as H.
  lia.
Qed.

Lemma Z_of_byte_of_Z (z : Z) : Z_of_byte (byte_of_Z z) = z mod 256.
Proof.
  unfold Z_of_byte, byte_of_Z.
  assert (Hr : 0 <= z mod 256 < 256) by (apply Z.mod_pos_bound; lia).
  destruct (Byte.of_N (Z.to_N (z mod 256))) as [b|] eqn:E.
  - apply Byte.to_of_N in E. rewrite E. lia.
  - apply Byte.of_N_None_iff in E. lia.
Qed.

Lemma length_le_bytes (n : nat) (z : Z) : length (le_bytes n z) = n.
Proof. revert z. induction n as [|n IH]; intros z; simpl; [reflexivity|]. rewrite IH. reflexivity. Qed.

Lemma le_unsigned_le_bytes (n : nat) (z : Z) :
  le_unsigned (le_bytes n z) = z mod 2 ^ (8 * Z.of_nat n).
Proof.
  revert z. induction n as [|n IH]; intros z.
  - simpl. rewrite Z.mod_1_r. reflexivity.
  - cbn [le_bytes le_unsigned]. rewrite IH, Z_of_byte_of_Z.
    replace (8 * Z.of_nat (S n)) with (8 + 8 * Z.of_nat n) by lia.
    rewrite Z.pow_add_r by lia. change (2 ^ 8) with 256.
    rewrite Z.rem_mul_r by lia. reflexivity.
Qed.

Lemma le_unsigned_fits (n : nat) (z : Z) :
  0 <= z < 2 ^ (8 * Z.of_nat n) -> le_unsigned (le_bytes n z) = z.
Proof. intros H. rewrite le_unsigned_le_bytes. apply Z.mod_small. exact H. Qed.

Lemma signed_mod (bits z : Z) :
  0 < bits -> - 2 ^ (bits - 1) <= z < 2 ^ (bits - 1) ->
  signed bits (z mod 2 ^ bits) = z.
Proof.
  intros Hb Hz. unfold signed.
  assert (Hp : 2 ^ bits = 2 * 2 ^ (bits - 1)).
  { replace bits with (1 + (bits - 1)) at 1 by lia. rewrite Z.pow_add_r by lia. reflexivity. }
  assert (Hpos : 0 < 2 ^ (bits - 1)) by (apply Z.pow_pos_nonneg; lia).
  destruct (Z_lt_le_dec z 0) as [Hneg|Hnn].
  - replace (z mod 2 ^ bits) with (z + 2 ^ bits).
    + destruct (z + 2 ^ bits <? 2 ^ (bits - 1)) eqn:E; [apply Z.ltb_lt in E|]; lia.
    + apply Z.mod_unique with (q := -1); lia.
  - rewrite Z.mod_small by lia.
    destruct (z <? 2 ^ (bits - 1)) eqn:E; [reflexivity|apply Z.ltb_ge in E; lia].
Qed.

Lemma in_range_spec (lo hi z : Z) : Stream.in_range lo hi z = true -> lo <= z < hi.
Proof. unfold Stream.in_range. intros H. apply andb_prop in H as [H1 H2]. lia. Qed.

Lemma uint8_le_bytes (z : Z) : Stream.in_range 0 256 z = true -> uint8 (le_bytes 1 z) = z.
Proof. intros H. apply in_range_spec in H. unfold uint8. apply le_unsigned_fits. simpl. lia. Qed.

Lemma int16_le_bytes (z : Z) :
  Stream.in_range (- 2 ^ 15) (2 ^ 15) z = true -> int16 (le_bytes 2 z) = z.
Proof.
  intros H. apply in_range_spec in H. unfold int16. rewrite le_unsigned_le_bytes.
  apply (signed_mod 16); simpl; lia.
Qed.

Lemma int32_le_bytes (z : Z) :
  Stream.in_range (- 2 ^ 31) (2 ^ 31) z = true -> int32 (le_bytes 4 z) = z.
Proof.
  intros H. apply in_range_spec in H. unfold int32. rewrite le_unsigned_le_bytes.
  apply (signed_mod 32); simpl; lia.
Qed.

Lemma float32_le_bytes (z : Z) :
  Stream.in_range 0 (2 ^ 32) z = true -> float32 (le_bytes 4 z) = f32_of_bits z.
Proof.
  intros H. apply in_range_spec in H. unfold float32. rewrite le_unsigned_fits; [reflexivity|].
  simpl. lia.
Qed.

Lemma float64_le_bytes (z : Z) :
  Stream.in_range 0 (2 ^ 64) z = true -> float64 (le_bytes 8 z) = f64_of_bits z.
Proof.
  intros H. apply in_range_spec in H. unfold float64. rewrite le_unsigned_fits; [reflexivity|].
  simpl. lia.
Qed.

End BinFacts.

(** ** Reads that find their field at the cursor *)

Section RdFacts.
Import Rd Bin.
Local Open Scope list_scope.

Lemma firstn_exact {A} (l rest : list A) : firstn (length l) (l ++ rest) = l.
Proof. induction l as [|x l IH]; simpl; [destruct rest; reflexivity|]. rewrite IH. reflexivity. Qed.

Lemma skipn_exact {A} (l rest : list A) : skipn (length l) (l ++ rest) = rest.
Proof. induction l as [|x l IH]; simpl; [reflexivity|exact IH]. Qed.

Lemma items_cons (size c : nat) (l rest : list Byte.byte) :
  length l = size -> (0 < size)%nat ->
  items size (S c) (l ++ rest) = l :: items size c rest.
Proof.
  intros Hl Hs. cbn [items].
  assert (Hlen : (length (l ++ rest) <? size)%nat = false).
  { apply Nat.ltb_ge. rewrite length_app. lia. }
  rewrite Hlen. subst size. rewrite firstn_exact, skipn_exact. reflexivity.
Qed.

(** One item of [size] bytes, present in full. *)
Lemma one_at {A} (size : nat) (dec : list Byte.byte -> A) (l rest : list Byte.byte) :
  length l = size -> (0 < size)%nat ->
  one size dec (l ++ rest) = Ok (dec l, rest).
Proof.
  intros Hl Hs. unfold one, bind, fromfile, first.
  rewrite items_cons by assumption. cbn [map]. rewrite Nat.mul_1_r. subst size.
  rewrite skipn_exact. reflexivity.
Qed.

Lemma bind_one {A B} (n : nat) (dec : list Byte.byte -> A) (k : A -> R B) (z : Z)
    (rest : list Byte.byte) :
  (0 < n)%nat ->
  bind (one n dec) k (le_bytes n z ++ rest) = k (dec (le_bytes n z)) rest.
Proof.
  intros Hn. unfold bind at 1. rewrite one_at by (rewrite ?length_le_bytes; auto).
  reflexivity.
Qed.

(** A read whose items are dropped only moves the cursor. *)
Lemma bind_fromfile_skip {A B} (size count : nat) (dec : list Byte.byte -> A) (k : R B)
    (l rest : list Byte.byte) :
  length l = (size * count)%nat ->
  bind (fromfile size dec count) (fun _ => k) (l ++ rest) = k rest.
Proof.
  intros Hl. unfold bind, fromfile. rewrite <- Hl, skipn_exact. reflexivity.
Qed.

Lemma items_samples (xs : list Z) (rest : list Byte.byte) :
  items 2 (length xs) (Stream.encode_samples xs ++ rest) = map (le_bytes 2) xs.
Proof.
  induction xs as [|x xs IH]; [reflexivity|].
  unfold Stream.encode_samples in *. cbn [map concat length].
  rewrite <- app_assoc, items_cons by (rewrite ?length_le_bytes; lia).
  f_equal. exact IH.
Qed.

Lemma length_encode_samples (xs : list Z) :
  length (Stream.encode_samples xs) = (2 * length xs)%nat.
Proof.
  unfold Stream.encode_samples. induction xs as [|x xs IH]; [reflexivity|].
  cbn [map concat length]. rewrite length_app, length_le_bytes, IH. lia.
Qed.

Lemma map_int16_samples (xs : list Z) :
  forallb (Stream.in_range (- 2 ^ 15) (2 ^ 15)) xs = true ->
  map int16 (map (le_bytes 2) xs) = xs.
Proof.
  induction xs as [|x xs IH]; intros H; [reflexivity|].
  cbn [forallb] in H. apply andb_prop in H as [Hx Hxs].
  cbn [map]. rewrite int16_le_bytes by exact Hx. rewrite IH by exact Hxs. reflexivity.
Qed.

(** The sample payload of a data record. *)
Lemma fromfile_samples (xs : list Z) (rest : list Byte.byte) :
  forallb (Stream.in_range (- 2 ^ 15) (2 ^ 15)) xs = true ->
  fromfile 2 int16 (length xs) (Stream.encode_samples xs ++ rest) = Ok (xs, rest).
Proof.
  intros H. unfold fromfile. rewrite items_samples, map_int16_samples by exact H.
  rewrite <- length_encode_samples, skipn_exact. reflexivity.
Qed.

End RdFacts.

(** ** One record of the trace loop *)

Section RecordFacts.
Import Rd Bin Gecko Stream.
Local Open Scope list_scope.

Lemma bind_ret {A B} (a : A) (k : A -> R B) (bs : list Byte.byte) :
  bind (ret a) k bs = k a bs.
Proof. reflexivity. Qed.

Lemma bind_assoc {A B C} (m : R A) (f : A -> R B) (g : B -> R C) (bs : list Byte.byte) :
  bind (bind m f) g bs = bind m (fun x => bind (f x) g) bs.
Proof. unfold bind. destruct (m bs) as [[a bs']|e]; reflexivity. Qed.

Lemma bind_fromfile_one {A B} (n : nat) (dec : list Byte.byte -> A) (k : list A -> R B)
    (z : Z) (rest : list Byte.byte) :
  (0 < n)%nat ->
  bind (fromfile n dec 1) k (le_bytes n z ++ rest) = k [dec (le_bytes n z)] rest.
Proof.
  intros Hn. unfold bind, fromfile.
  rewrite items_cons by (rewrite ?length_le_bytes; auto).
  rewrite Nat.mul_1_r.
  replace (skipn n (le_bytes n z ++ rest)) with rest; [reflexivity|].
  rewrite <- (length_le_bytes n z) at 1. symmetry. apply skipn_exact.
Qed.

Lemma fields_fit_spec (r : record) :
  fields_fit r = true ->
  in_range 0 256 (r_kind r) = true /\
  in_range 0 256 (r_chan r) = true /\
  in_range (- 2 ^ 31) (2 ^ 31) (r_trace_num r) = true /\
  in_range 0 (2 ^ 64) (r_decday r) = true /\
  in_range 0 (2 ^ 32) (r_trace_int r) = true /\
  in_range (- 2 ^ 15) (2 ^ 15) (r_trig_level r) = true /\
  in_range 0 (2 ^ 32) (r_odometer r) = true /\
  in_range 0 (2 ^ 32) (r_pressure r) = true /\
  in_range 0 (2 ^ 64) (r_lat r) = true /\
  in_range 0 (2 ^ 64) (r_long r) = true /\
  in_range 0 (2 ^ 32) (r_elev r) = true /\
  in_range 0 (2 ^ 32) (r_gps r) = true /\
  forallb (in_range (- 2 ^ 15) (2 ^ 15)) (r_samples r) = true.
Proof.
  unfold fields_fit. intros H.
  do 12 (apply andb_prop in H as [H ?]). repeat split; assumption.
Qed.

(** The header fields of a record are read back as they were written. *)
Lemma trace_fields_at (h : header) (r : record) (rest : list Byte.byte) :
  fields_fit r = true ->
  trace_fields h (encode_fields h r ++ rest) = Ok (scalars_of h r, rest).
Proof.
  intros Hfit.
  destruct (fields_fit_spec r Hfit)
    as (_ & _ & H3 & H4 & H5 & H6 & H7 & H8 & H9 & H10 & H11 & H12 & _).
  unfold trace_fields, encode_fields, scalars_of, padding.
  rewrite <- !app_assoc.
  do 4 (rewrite bind_one by lia; cbv beta).
  destruct (lt (Version h) v3_21).
  - rewrite <- !app_assoc.
    rewrite bind_assoc, bind_one by lia. cbv beta.
    rewrite bind_assoc, bind_one by lia. cbv beta. rewrite bind_ret.
    do 4 (rewrite bind_one by lia; cbv beta).
    rewrite int32_le_bytes, int16_le_bytes, !float64_le_bytes, !float32_le_bytes by assumption.
    destruct (lt (Version h) v3_6); [destruct (lt (Version h) v3_2)|].
    + rewrite bind_fromfile_skip by reflexivity. reflexivity.
    + rewrite bind_fromfile_skip by reflexivity. reflexivity.
    + reflexivity.
  - cbn [app]. rewrite bind_ret.
    do 4 (rewrite bind_one by lia; cbv beta).
    rewrite int32_le_bytes, int16_le_bytes, !float64_le_bytes, !float32_le_bytes by assumption.
    destruct (lt (Version h) v3_6); [destruct (lt (Version h) v3_2)|].
    + rewrite bind_fromfile_skip by reflexivity. reflexivity.
    + rewrite bind_fromfile_skip by reflexivity. reflexivity.
    + reflexivity.
Qed.

End RecordFacts.

Section RecordFacts2.
Import Rd Bin Gecko Stream.
Local Open Scope list_scope.

Lemma data_record_spec (h : header) (c : Z) (r : record) :
  data_record h c r = true ->
  fields_fit r = true /\ r_kind r = 0 /\ r_chan r = c /\
  Z.of_nat (length (r_samples r)) = snum h.
Proof.
  unfold data_record. intros H.
  apply andb_prop in H as [H H4]. apply andb_prop in H as [H H3].
  apply andb_prop in H as [H1 H2].
  apply Z.eqb_eq in H2, H3, H4. auto.
Qed.

Lemma comment_record_spec (c : Z) (r : record) :
  comment_record c r = true -> fields_fit r = true /\ r_kind r = 2 /\ r_chan r = c.
Proof.
  unfold comment_record. intros H.
  apply andb_prop in H as [H H3]. apply andb_prop in H as [H1 H2].
  apply Z.eqb_eq in H2, H3. auto.
Qed.

(** The two bytes that open a record, then the channel check. *)
Lemma channel_record_open (h : header) (chan nn : Z) (st : loop_state) (r : record)
    (tail : list Byte.byte) :
  fields_fit r = true -> r_chan r = nn + 1 ->
  channel_record h chan nn st
    (le_bytes 1 (r_kind r) ++ le_bytes 1 (r_chan r) ++ encode_fields h r ++ tail)
  = bind (record_payload h [r_kind r] (newdata st))
      (fun p =>
         if fst p then ret (true, {| tr := tr st; newdata := snd p |})
         else
           let t1 := if nn + 1 =? 1 then append_scalars (scalars_of h r) (tr st)
                     else tr st in
           if nn + 1 =? chan then
             match snd p with
             | None => raise (UnboundLocalError "newdata")
             | Some nd =>
                 if negb (Z.of_nat (length nd) =? snum h) then raise ValueError
                 else ret (false, {| tr := append_row nd t1; newdata := Some nd |})
             end
           else ret (false, {| tr := t1; newdata := snd p |}))
      tail.
Proof.
  intros Hfit Hc.
  destruct (fields_fit_spec r Hfit) as (H1 & H2 & _).
  unfold channel_record.
  rewrite bind_fromfile_one by lia. rewrite bind_one by lia.
  rewrite !uint8_le_bytes by assumption.
  rewrite Hc, Z.eqb_refl. cbn [negb].
  unfold bind at 1. rewrite trace_fields_at by exact Hfit. reflexivity.
Qed.

(** A data record: its samples become [newdata]; its scalars are kept
    on the first channel and its samples on the output channel. *)
Lemma channel_record_data (h : header) (chan nn : Z) (st : loop_state) (r : record)
    (rest : list Byte.byte) :
  data_record h (nn + 1) r = true ->
  channel_record h chan nn st (encode_record h r ++ rest)
  = Ok ((false, store h chan nn r st), rest).
Proof.
  intros H. apply data_record_spec in H as (Hfit & Hk & Hc & Hn).
  destruct (fields_fit_spec r Hfit) as (_ & _ & _ & _ & _ & _ & _ & _ & _ & _ & _ & _ & Hs).
  unfold encode_record. rewrite <- !app_assoc.
  rewrite channel_record_open by assumption.
  rewrite Hk. cbn [Z.eqb].
  unfold record_payload. cbn [first]. rewrite bind_assoc, bind_ret. cbn [Z.eqb].
  rewrite bind_assoc. unfold bind at 1.
  rewrite <- Hn, Nat2Z.id, fromfile_samples by exact Hs.
  rewrite bind_ret. cbn [fst snd].
  unfold store, kept.
  destruct (nn + 1 =? chan); [|reflexivity].
  rewrite Z.eqb_refl. reflexivity.
Qed.

(** A comment record: nothing is read after its header, and [newdata] is
    whatever an earlier record left. *)
Lemma channel_record_comment (h : header) (chan nn : Z) (st : loop_state) (r : record)
    (rest : list Byte.byte) :
  comment_record (nn + 1) r = true ->
  channel_record h chan nn st (encode_record h r ++ rest)
  = if nn + 1 =? chan then
      match newdata st with
      | None => Raise (UnboundLocalError "newdata")
      | Some nd =>
          if negb (Z.of_nat (length nd) =? snum h) then Raise ValueError
          else Ok ((false, {| tr := kept h chan nn r nd (tr st); newdata := Some nd |}),
                   rest)
      end
    else Ok ((false, {| tr := kept h chan nn r [] (tr st); newdata := newdata st |}), rest).
Proof.
  intros H. apply comment_record_spec in H as (Hfit & Hk & Hc).
  unfold encode_record. rewrite <- !app_assoc.
  rewrite channel_record_open by assumption.
  rewrite Hk. cbn [Z.eqb app].
  unfold record_payload. cbn [first]. rewrite bind_assoc, bind_ret. cbn [Z.eqb Pos.eqb].
  rewrite bind_ret. cbn [fst snd]. unfold kept.
  destruct (nn + 1 =? chan); [|reflexivity].
  destruct (newdata st) as [nd|]; [|reflexivity].
  destruct (negb (Z.of_nat (length nd) =? snum h)); reflexivity.
Qed.


End RecordFacts2.

(** ** The channel loop and the trace loop over well-formed records *)

Section LoopFacts.
Import Rd Bin Gecko Stream.
Local Open Scope list_scope.

Lemma encode_trace_cons (h : header) (r : record) (rs : list record) :
  encode_trace h (r :: rs) = encode_record h r ++ encode_trace h rs.
Proof. reflexivity. Qed.

Lemma encode_traces_cons (h : header) (t : list record) (ts : list (list record)) :
  encode_traces h (t :: ts) = encode_trace h t ++ encode_traces h ts.
Proof. reflexivity. Qed.

Lemma encode_trace_app (h : header) (rs1 rs2 : list record) :
  encode_trace h (rs1 ++ rs2) = encode_trace h rs1 ++ encode_trace h rs2.
Proof. unfold encode_trace. rewrite map_app, concat_app. reflexivity. Qed.

Lemma encode_record_length (h : header) (r : record) :
  (2 <= length (encode_record h r))%nat.
Proof. unfold encode_record. rewrite !length_app, !length_le_bytes. lia. Qed.

Lemma encode_trace_length (h : header) (t : list record) :
  t <> [] -> (1 <= length (encode_trace h t))%nat.
Proof.
  destruct t as [|r t]; [congruence|]. intros _.
  rewrite encode_trace_cons, length_app. pose proof (encode_record_length h r). lia.
Qed.

(** Data records for the channels after [nn], read in a row. *)
Lemma channel_loop_data (h : header) (chan : Z) (rs : list record) :
  forall (c : nat) (nn : Z) (st : loop_state) (rest : list Byte.byte),
    data_records h (nn + 1) rs = true ->
    channel_loop h chan (length rs + c) nn st (encode_trace h rs ++ rest)
    = channel_loop h chan c (nn + Z.of_nat (length rs)) (store_all h chan nn rs st) rest.
Proof.
  induction rs as [|r rs IH]; intros c nn st rest H.
  - cbn [length store_all encode_trace map concat app Nat.add]. rewrite Z.add_0_r. reflexivity.
  - cbn [data_records] in H. apply andb_prop in H as [Hr Hrs].
    rewrite encode_trace_cons, <- app_assoc.
    cbn [length Nat.add channel_loop]. unfold bind at 1.
    rewrite channel_record_data by exact Hr. cbn [fst snd].
    rewrite IH by exact Hrs. cbn [store_all]. f_equal. lia.
Qed.

Lemma trace_loop_pass (fuel : nat) (h : header) (chan nTrc : Z) (cur : option traces)
    (nd : option (list Z)) (bs : list Byte.byte) :
  bs <> [] ->
  trace_loop (S fuel) h chan nTrc cur nd bs
  = match pass_arrays h (nTrc + 1) cur with
    | Raise e => Some (Raise e)
    | Ok t =>
        match channel_loop h chan (Z.to_nat (nChannels h)) 0
                {| tr := t; newdata := nd |} bs with
        | Raise e => Some (Raise e)
        | Ok (st, bs') => trace_loop fuel h chan (nTrc + 1) (Some (tr st)) (newdata st) bs'
        end
    end.
Proof. destruct bs; [congruence|reflexivity]. Qed.

Lemma app_not_nil {A} (l rest : list A) : (1 <= length l)%nat -> l ++ rest <> [].
Proof. destruct l; simpl; [lia|congruence]. Qed.

Lemma data_trace_spec (h : header) (t : list record) :
  data_trace h t = true ->
  Z.of_nat (length t) = nChannels h /\ data_records h 1 t = true.
Proof.
  unfold data_trace. intros H. apply andb_prop in H as [H1 H2].
  apply Z.eqb_eq in H1. auto.
Qed.

(** One complete data trace. *)
Lemma trace_loop_data_trace (fuel : nat) (h : header) (chan nTrc : Z)
    (cur : option traces) (nd : option (list Z)) (t0 : traces) (t : list record)
    (rest : list Byte.byte) :
  data_trace h t = true -> 1 <= nChannels h ->
  pass_arrays h (nTrc + 1) cur = Ok t0 ->
  trace_loop (S fuel) h chan nTrc cur nd (encode_trace h t ++ rest)
  = trace_loop fuel h chan (nTrc + 1)
      (Some (tr (store_all h chan 0 t {| tr := t0; newdata := nd |})))
      (newdata (store_all h chan 0 t {| tr := t0; newdata := nd |})) rest.
Proof.
  intros Ht HN Hstart. apply data_trace_spec in Ht as [Hlen Hrs].
  assert (Hne : t <> []) by (intros ->; simpl in Hlen; lia).
  rewrite trace_loop_pass by (apply app_not_nil, encode_trace_length, Hne).
  rewrite Hstart. rewrite <- Hlen, Nat2Z.id.
  rewrite <- (Nat.add_0_r (length t)) at 1.
  rewrite channel_loop_data by exact Hrs. reflexivity.
Qed.

(** Complete data traces, one after the other. *)
Lemma trace_loop_data_traces (h : header) (chan : Z) (ts : list (list record)) :
  forall (fuel : nat) (nTrc : Z) (cur : option traces) (nd : option (list Z)) (t0 : traces)
         (t : list record) (rest : list Byte.byte),
    forallb (data_trace h) (t :: ts) = true -> 1 <= nChannels h -> 0 <= nTrc ->
    pass_arrays h (nTrc + 1) cur = Ok t0 ->
    trace_loop (S (length ts) + fuel) h chan nTrc cur nd
      (encode_traces h (t :: ts) ++ rest)
    = trace_loop fuel h chan (nTrc + 1 + Z.of_nat (length ts))
        (Some (tr (store_traces h chan (t :: ts) {| tr := t0; newdata := nd |})))
        (newdata (store_traces h chan (t :: ts) {| tr := t0; newdata := nd |})) rest.
Proof.
  induction ts as [|t' ts IH]; intros fuel nTrc cur nd t0 t rest H HN Hn Hstart;
    cbn [forallb] in H; apply andb_prop in H as [Ht Hts].
  - rewrite encode_traces_cons. cbn [encode_traces map concat length Nat.add].
    rewrite app_nil_r.
    rewrite (trace_loop_data_trace fuel h chan nTrc cur nd t0 t rest Ht HN Hstart).
    cbn [store_traces]. rewrite Z.add_0_r. reflexivity.
  - rewrite encode_traces_cons, <- app_assoc.
    cbn [length Nat.add].
    rewrite (trace_loop_data_trace _ h chan nTrc cur nd t0 t _ Ht HN Hstart).
    set (st1 := store_all h chan 0 t {| tr := t0; newdata := nd |}).
    assert (Hnext : pass_arrays h (nTrc + 1 + 1) (Some (tr st1)) = Ok (tr st1)).
    { unfold pass_arrays.
      replace (nTrc + 1 + 1 =? 1) with false by (symmetry; apply Z.eqb_neq; lia).
      reflexivity. }
    etransitivity;
      [exact (IH fuel (nTrc + 1) (Some (tr st1)) (newdata st1) (tr st1) t' rest Hts HN
                ltac:(lia) Hnext)|].
    cbn [store_traces]. fold st1. destruct st1 as [t1 nd1]. cbn [tr newdata].
    f_equal. lia.
Qed.

End LoopFacts.

(** ** What the data records leave in the arrays *)

Section ColumnFacts.
Import Rd Bin Gecko Stream.
Local Open Scope list_scope.

(** After the first channel, a data record changes the arrays only if
    it is on the output channel. *)
Lemma store_all_later (h : header) (chan : Z) (rs : list record) :
  forall (nn : Z) (st : loop_state),
    1 <= nn ->
    tr (store_all h chan nn rs st)
    = if (nn <? chan) && (chan <=? nn + Z.of_nat (length rs))
      then append_row (r_samples (nth (Z.to_nat (chan - nn - 1)) rs blank)) (tr st)
      else tr st.
Proof.
  induction rs as [|r rs IH]; intros nn st Hnn.
  - cbn [store_all length]. 
    destruct (nn <? chan) eqn:E1; [|reflexivity].
    destruct (chan <=? nn + Z.of_nat 0) eqn:E2; [|reflexivity].
    apply Z.ltb_lt in E1. apply Z.leb_le in E2. lia.
  - cbn [store_all]. rewrite IH by lia. unfold store, kept. cbn [tr].
    replace (nn + 1 =? 1) with false by (symmetry; apply Z.eqb_neq; lia).
    destruct (nn + 1 =? chan) eqn:E.
    + apply Z.eqb_eq in E.
      replace (nn + 1 <? chan) with false by (symmetry; apply Z.ltb_ge; lia).
      replace (nn <? chan) with true by (symmetry; apply Z.ltb_lt; lia).
      replace (chan <=? nn + Z.of_nat (length (r :: rs))) with true
        by (symmetry; apply Z.leb_le; cbn [length]; lia).
      cbn [andb]. replace (chan - nn - 1) with 0 by lia. reflexivity.
    + apply Z.eqb_neq in E.
      destruct (nn + 1 <? chan) eqn:E1.
      * apply Z.ltb_lt in E1.
        replace (nn <? chan) with true by (symmetry; apply Z.ltb_lt; lia).
        replace (nn + 1 + Z.of_nat (length rs)) with (nn + Z.of_nat (length (r :: rs)))
          by (cbn [length]; lia).
        cbn [andb]. destruct (chan <=? nn + Z.of_nat (length (r :: rs))); [|reflexivity].
        replace (Z.to_nat (chan - nn - 1)) with (S (Z.to_nat (chan - (nn + 1) - 1))) by lia.
        reflexivity.
      * apply Z.ltb_ge in E1.
        replace (nn <? chan) with false by (symmetry; apply Z.ltb_ge; lia).
        reflexivity.
Qed.

(** A complete trace adds the scalars of its first record and the
    samples of its record on the output channel. *)
Lemma store_all_trace (h : header) (chan : Z) (t : list record) (st : loop_state) :
  1 <= chan <= Z.of_nat (length t) ->
  tr (store_all h chan 0 t st)
  = append_row (r_samples (on_channel chan t))
      (append_scalars (scalars_of h (on_channel 1 t)) (tr st)).
Proof.
  intros Hc. destruct t as [|r rs]; [simpl in Hc; lia|].
  cbn [store_all]. rewrite store_all_later by lia.
  unfold store, kept, on_channel. cbn [tr Z.add Z.eqb Pos.eqb Z.sub Z.to_nat nth].
  change (0 + 1) with 1.
  destruct (1 =? chan) eqn:E.
  - apply Z.eqb_eq in E. subst chan.
    cbn [Z.ltb Z.compare Pos.compare Pos.compare_cont andb Z.sub Z.to_nat nth Z.pos_sub Z.opp].
    reflexivity.
  - apply Z.eqb_neq in E.
    replace (1 <? chan) with true by (symmetry; apply Z.ltb_lt; lia).
    replace (chan <=? 1 + Z.of_nat (length rs)) with true
      by (symmetry; apply Z.leb_le; cbn [length] in Hc; lia).
    cbn [andb].
    replace (Z.to_nat (chan - 1)) with (S (Z.to_nat (chan - 1 - 1))) by lia.
    reflexivity.
Qed.

Lemma store_traces_columns (h : header) (chan : Z) (ts : list (list record)) :
  forall st : loop_state,
    forallb (data_trace h) ts = true -> 1 <= chan <= nChannels h ->
    let t' := tr (store_traces h chan ts st) in
    trace_num t' = trace_num (tr st) ++ injected (fun r => Z2F (r_trace_num r)) ts /\
    decday t' = decday (tr st)
                ++ injected (fun r => PrimFloat.add (f64_of_bits (r_decday r)) epoch_ordinal) ts /\
    trace_int t' = trace_int (tr st) ++ injected (fun r => f32_of_bits (r_trace_int r)) ts /\
    lat t' = lat (tr st) ++ injected (fun r => f64_of_bits (r_lat r)) ts /\
    long t' = long (tr st) ++ injected (fun r => f64_of_bits (r_long r)) ts /\
    elev t' = elev (tr st) ++ injected (fun r => f32_of_bits (r_elev r)) ts /\
    GPSResolution t' = GPSResolution (tr st) ++ injected (fun r => f32_of_bits (r_gps r)) ts /\
    data t' = data (tr st) ++ injected_rows chan ts.
Proof.
  induction ts as [|t ts IH]; intros st H Hc.
  - cbn. rewrite !app_nil_r. repeat split; reflexivity.
  - cbn [forallb] in H. apply andb_prop in H as [Ht Hts].
    apply data_trace_spec in Ht as [Hlen _].
    cbn [store_traces]. cbv zeta.
    destruct (IH (store_all h chan 0 t st) Hts Hc)
      as (E1 & E2 & E3 & E4 & E5 & E6 & E7 & E8).
    rewrite E1, E2, E3, E4, E5, E6, E7, E8.
    rewrite store_all_trace by lia.
    unfold injected, injected_rows. cbn [map append_row append_scalars trace_num decday
      trace_int lat long elev GPSResolution data scalars_of s_trace_num s_decday s_trace_int
      s_lat s_long s_elev s_GPSResolution].
    rewrite <- !app_assoc. repeat split; reflexivity.
Qed.

Lemma length_transpose (w : nat) (rows : list (list float)) :
  length (transpose w rows) = w.
Proof. unfold transpose. rewrite length_map, length_seq. reflexivity. Qed.

Lemma transpose_rows (w : nat) (rows : list (list float)) :
  Forall (fun row => length row = length rows) (transpose w rows).
Proof.
  unfold transpose. apply List.Forall_forall. intros row Hin.
  apply in_map_iff in Hin as (i & <- & _). apply length_map.
Qed.

End ColumnFacts.

(** ** Decoding a file of complete data traces *)

Section RoundTrip.
Import Rd Bin Gecko Stream.
Local Open Scope list_scope.

Lemma encode_traces_length (h : header) (ts : list (list record)) :
  forallb (data_trace h) ts = true -> 1 <= nChannels h ->
  (length ts <= length (encode_traces h ts))%nat.
Proof.
  intros H HN. induction ts as [|t ts IH]; [simpl; lia|].
  cbn [forallb] in H. apply andb_prop in H as [Ht Hts].
  rewrite encode_traces_cons, length_app. cbn [length].
  apply data_trace_spec in Ht as [Hlen _].
  assert (t <> []) by (intros ->; simpl in Hlen; lia).
  pose proof (encode_trace_length h t H). specialize (IH Hts). lia.
Qed.

Lemma trace_loop_done (fuel : nat) (h : header) (chan nTrc : Z) (cur : option traces)
    (nd : option (list Z)) :
  trace_loop fuel h chan nTrc cur nd [] = Some (Ok cur).
Proof. destruct fuel; reflexivity. Qed.

Lemma data_trace_snum (h : header) (t : list record) :
  data_trace h t = true -> 1 <= nChannels h -> 0 <= snum h.
Proof.
  intros Ht HN. apply data_trace_spec in Ht as [Hlen Hrs].
  destruct t as [|r rs]; [simpl in Hlen; lia|].
  cbn [data_records] in Hrs. apply andb_prop in Hrs as [Hr _].
  apply data_record_spec in Hr as (_ & _ & _ & Hs). lia.
Qed.

(** The trace loop over a body made of complete data traces. *)
Lemma trace_loop_body (h : header) (chan : Z) (t : list record) (ts : list (list record)) :
  forallb (data_trace h) (t :: ts) = true -> 1 <= nChannels h ->
  trace_loop (length (encode_traces h (t :: ts))) h chan 0 None None
    (encode_traces h (t :: ts))
  = Some (Ok (Some (tr (store_traces h chan (t :: ts)
                          {| tr := empty_traces; newdata := None |})))).
Proof.
  intros H HN.
  pose proof (encode_traces_length h (t :: ts) H HN) as Hlen. cbn [length] in Hlen.
  assert (Hsnum : 0 <= snum h).
  { cbn [forallb] in H. apply andb_prop in H as [Ht _]. exact (data_trace_snum h t Ht HN). }
  assert (Hstart : pass_arrays h (0 + 1) None = Ok empty_traces).
  { unfold pass_arrays, preallocate. cbn [Z.add Z.eqb Pos.eqb].
    replace (snum h <? 0) with false by (symmetry; apply Z.ltb_ge; lia). reflexivity. }
  replace (length (encode_traces h (t :: ts)))
    with (S (length ts) + (length (encode_traces h (t :: ts)) - S (length ts)))%nat by lia.
  rewrite <- (app_nil_r (encode_traces h (t :: ts))) at 2.
  rewrite (trace_loop_data_traces h chan ts _ 0 None None empty_traces t [] H HN
             ltac:(lia) Hstart).
  apply trace_loop_done.
Qed.

(** C1, as the code has it.  A file whose header and channel headers
    decode, followed by M >= 1 complete data traces, decodes to an object
    with [tnum = M], [data] of shape [(snum, M)] holding the samples
    injected on the output channel, and the per-trace arrays holding the
    values injected on channel 1 -- except that the acquisition day is
    shifted by the ordinal of 1 Jan 1970 and the trigger level is all
    zeros. *)
Theorem gecko_round_trip (file bs bs' : list Byte.byte) (h : header)
    (chs : list channel_header) (chan : Z) (ts : list (list record)) :
  file_header file = Ok (h, bs) ->
  channel_headers h (Z.to_nat (nChannels h)) 0 bs = Ok (chs, bs') ->
  bs' = encode_traces h ts ->
  ts <> [] ->
  forallb (data_trace h) ts = true ->
  1 <= chan <= nChannels h ->
  exists obj,
    gecko file chan = Some (Ok obj) /\
    tnum obj = Z.of_nat (length ts) /\
    data (cols obj) = transpose (Z.to_nat (snum h)) (injected_rows chan ts) /\
    length (data (cols obj)) = Z.to_nat (snum h) /\
    Forall (fun row => length row = length ts) (data (cols obj)) /\
    trace_num (cols obj) = injected (fun r => Z2F (r_trace_num r)) ts /\
    decday (cols obj)
      = injected (fun r => PrimFloat.add (f64_of_bits (r_decday r)) epoch_ordinal) ts /\
    trace_int (cols obj) = injected (fun r => f32_of_bits (r_trace_int r)) ts /\
    trig_level (cols obj) = zeros (length ts) /\
    lat (cols obj) = injected (fun r => f64_of_bits (r_lat r)) ts /\
    long (cols obj) = injected (fun r => f64_of_bits (r_long r)) ts /\
    elev (cols obj) = injected (fun r => f32_of_bits (r_elev r)) ts /\
    GPSResolution (cols obj) = injected (fun r => f32_of_bits (r_gps r)) ts.
Proof.
  intros Hh Hch -> Hne Hts Hc.
  destruct ts as [|t ts]; [congruence|]. clear Hne.
  assert (HN : 1 <= nChannels h) by lia.
  unfold gecko. rewrite Hh, Hch, (trace_loop_body h chan t ts Hts HN).
  destruct (store_traces_columns h chan (t :: ts)
              {| tr := empty_traces; newdata := None |} Hts Hc)
    as (E1 & E2 & E3 & E4 & E5 & E6 & E7 & E8).
  cbn [tr empty_traces trace_num decday trace_int lat long elev GPSResolution data app]
    in E1, E2, E3, E4, E5, E6, E7, E8.
  assert (Hrows : length (injected_rows chan (t :: ts)) = length (t :: ts))
    by (unfold injected_rows; apply length_map).
  eexists. split; [reflexivity|].
  cbn [finalize tnum cols data trace_num decday trace_int trig_level lat long elev
         GPSResolution].
  rewrite E8, Hrows.
  repeat split; try assumption.
  - apply length_transpose.
  - rewrite <- Hrows. apply transpose_rows.
Qed.

End RoundTrip.

Section RoundTripExamples.
Import Rd Bin Gecko Stream.
Local Open Scope list_scope.

Lemma gecko_round_trip_witness :
  exists obj,
    gecko two_trace_file 1 = Some (Ok obj) /\
    tnum obj = 2 /\
    data (cols obj) = transpose 2 (injected_rows 1 two_traces) /\
    length (data (cols obj)) = 2%nat /\
    Forall (fun row => length row = 2%nat) (data (cols obj)) /\
    trace_num (cols obj) = injected (fun r => Z2F (r_trace_num r)) two_traces /\
    decday (cols obj)
      = injected (fun r => PrimFloat.add (f64_of_bits (r_decday r)) epoch_ordinal)
          two_traces /\
    trace_int (cols obj) = injected (fun r => f32_of_bits (r_trace_int r)) two_traces /\
    trig_level (cols obj) = zeros 2 /\
    lat (cols obj) = injected (fun r => f64_of_bits (r_lat r)) two_traces /\
    long (cols obj) = injected (fun r => f64_of_bits (r_long r)) two_traces /\
    elev (cols obj) = injected (fun r => f32_of_bits (r_elev r)) two_traces /\
    GPSResolution (cols obj) = injected (fun r => f32_of_bits (r_gps r)) two_traces.
Proof.
  apply (gecko_round_trip two_trace_file
           (concat (map (channel_header_bytes 380) (arange 1 2))
            ++ encode_traces (h38 1) two_traces)
           (encode_traces (h38 1) two_traces) (h38 1)
           [{| ChName := "Channel1"; VoltRange := 500; Impedance := 0;
               ImpedanceString := Some "1 MOhm"; Coupling := 1;
               CouplingString := Some "AC" |}] 1 two_traces).
  - vm_compute; reflexivity.
  - vm_compute; reflexivity.
  - reflexivity.
  - discriminate.
  - vm_compute; reflexivity.
  - vm_compute. split; discriminate.
Defined.

(** Against C1 as stated: the decoded trigger levels are zeros, not the
    injected 5, and the decoded days are not the injected 1.5. *)
Lemma gecko_round_trip_not_verbatim :
  exists obj,
    gecko two_trace_file 1 = Some (Ok obj) /\
    injected (fun r => Z2F (r_trig_level r)) two_traces = [5%float; 5%float] /\
    trig_level (cols obj) = [0%float; 0%float] /\
    trig_level (cols obj) <> injected (fun r => Z2F (r_trig_level r)) two_traces /\
    injected (fun r => f64_of_bits (r_decday r)) two_traces = [1.5%float; 1.5%float] /\
    decday (cols obj) = [719164.5%float; 719164.5%float] /\
    decday (cols obj) <> injected (fun r => f64_of_bits (r_decday r)) two_traces.
Proof.
  eexists. split; [vm_compute; reflexivity|].
  repeat split; try (vm_compute; reflexivity).
  - intros H.
    apply (f_equal (fun l => match l with x :: _ => PrimFloat.eqb x 0 | [] => false end)) in H.
    vm_compute in H. discriminate H.
  - intros H.
    apply (f_equal (fun l => match l with x :: _ => PrimFloat.eqb x 1.5 | [] => false end))
      in H.
    vm_compute in H. discriminate H.
Qed.

End RoundTripExamples.

(** ** A channel number out of place *)

Section Corrupt.
Import Rd Bin Gecko Stream.
Local Open Scope list_scope.

Lemma bind_one_byte {B} (k : Z -> R B) (b : Byte.byte) (rest : list Byte.byte) :
  bind (one 1 uint8) k (b :: rest) = k (Z_of_byte b) rest.
Proof.
  unfold bind at 1, one, bind, fromfile, first.
  cbn [items length Nat.ltb Nat.leb firstn skipn map Nat.mul Nat.add uint8 le_unsigned].
  rewrite Z.mul_0_r, Z.add_0_r. reflexivity.
Qed.





End Corrupt.

(** ** Markers and comments *)

Section Comments.
Import Rd Bin Gecko Stream.
Local Open Scope list_scope.

Lemma last_cons {A} (a d : A) (l : list A) : List.last (a :: l) d = List.last l a.
Proof.
  revert a d. induction l as [|b l IH]; intros a d; [reflexivity|].
  change (List.last (a :: b :: l) d) with (List.last (b :: l) d).
  rewrite (IH b d), (IH b a). reflexivity.
Qed.

(** [newdata] is the payload of the data record read last. *)
Lemma newdata_store_all (h : header) (chan : Z) (rs : list record) :
  forall (nn : Z) (st : loop_state),
    newdata (store_all h chan nn rs st)
    = List.last (map (fun r => Some (r_samples r)) rs) (newdata st).
Proof.
  induction rs as [|r rs IH]; intros nn st; [reflexivity|].
  cbn [store_all map]. rewrite IH, last_cons. reflexivity.
Qed.

Lemma newdata_store_traces (h : header) (chan : Z) (ts : list (list record)) :
  forall st : loop_state,
    newdata (store_traces h chan ts st)
    = List.last (map (fun r => Some (r_samples r)) (concat ts)) (newdata st).
Proof.
  induction ts as [|t ts IH]; intros st; [reflexivity|].
  cbn [store_traces concat]. rewrite IH, newdata_store_all, map_app.
  generalize (newdata st).
  induction (map (fun r => Some (r_samples r)) t) as [|x l IHl]; intros d; [reflexivity|].
  cbn [app]. rewrite !last_cons. apply IHl.
Qed.

Lemma last_app_default {A} (l1 l2 : list A) (d : A) :
  List.last (l1 ++ l2) d = List.last l2 (List.last l1 d).
Proof.
  revert d. induction l1 as [|x l1 IH]; intros d; [reflexivity|].
  cbn [app]. rewrite !last_cons. apply IH.
Qed.

(** Data records before the output channel leave [data] as it is. *)
Lemma data_store_all_before (h : header) (chan : Z) (rs : list record) :
  forall (nn : Z) (st : loop_state),
    nn + Z.of_nat (length rs) < chan ->
    data (tr (store_all h chan nn rs st)) = data (tr st).
Proof.
  induction rs as [|r rs IH]; intros nn st Hlt; [reflexivity|].
  cbn [store_all]. cbn [length] in Hlt. rewrite IH by lia.
  unfold store, kept. cbn [tr].
  replace (nn + 1 =? chan) with false by (symmetry; apply Z.eqb_neq; lia).
  destruct (nn + 1 =? 1); reflexivity.
Qed.

(** Every payload among data records has [snum] samples. *)
Lemma samples_length_records (h : header) (rs : list record) :
  forall (c : Z) (d : option (list Z)) (nd : list Z),
    data_records h c rs = true ->
    (forall x, d = Some x -> Z.of_nat (length x) = snum h) ->
    List.last (map (fun r => Some (r_samples r)) rs) d = Some nd ->
    Z.of_nat (length nd) = snum h.
Proof.
  induction rs as [|r rs IH]; intros c d nd Hrs Hd Hl.
  - cbn in Hl. auto.
  - cbn [map] in Hl. rewrite last_cons in Hl.
    cbn [data_records] in Hrs. apply andb_prop in Hrs as [Hr Hrs].
    apply data_record_spec in Hr as (_ & _ & _ & Hs).
    apply (IH (c + 1) (Some (r_samples r)) nd Hrs); [|exact Hl].
    intros x Hx. inversion Hx; subst. exact Hs.
Qed.

Lemma samples_length_traces (h : header) (ts : list (list record)) :
  forall (d : option (list Z)) (nd : list Z),
    forallb (data_trace h) ts = true ->
    (forall x, d = Some x -> Z.of_nat (length x) = snum h) ->
    List.last (map (fun r => Some (r_samples r)) (concat ts)) d = Some nd ->
    Z.of_nat (length nd) = snum h.
Proof.
  induction ts as [|t ts IH]; intros d nd Hts Hd Hl.
  - cbn in Hl. auto.
  - cbn [forallb] in Hts. apply andb_prop in Hts as [Ht Hts].
    apply data_trace_spec in Ht as [_ Ht].
    cbn [concat] in Hl. rewrite map_app, last_app_default in Hl.
    refine (IH _ nd Hts _ Hl).
    intros x Hx. exact (samples_length_records h t 1 d x Ht Hd Hx).
Qed.

(** A pass of the trace loop over a trace whose record on the output
    channel is a comment, once [newdata] is bound: the payload read last
    becomes the row of this trace. *)
Lemma trace_loop_comment_pass (fuel : nat) (h : header) (chan nTrc : Z)
    (cur : option traces) (nd0 : option (list Z)) (t0 : traces)
    (rs1 : list record) (c : record) (rs2 : list record) (nd : list Z)
    (rest : list Byte.byte) :
  pass_arrays h (nTrc + 1) cur = Ok t0 ->
  data_records h 1 rs1 = true ->
  Z.of_nat (length rs1) + 1 = chan ->
  comment_record chan c = true ->
  data_records h (chan + 1) rs2 = true ->
  chan + Z.of_nat (length rs2) = nChannels h ->
  List.last (map (fun r => Some (r_samples r)) rs1) nd0 = Some nd ->
  Z.of_nat (length nd) = snum h ->
  exists t' nd',
    trace_loop (S fuel) h chan nTrc cur nd0 (encode_trace h (rs1 ++ c :: rs2) ++ rest)
    = trace_loop fuel h chan (nTrc + 1) (Some t') nd' rest /\
    data t' = data t0 ++ [map Z2F nd].
Proof.
  intros Hstart Hrs1 Hchan Hc Hrs2 HN Hlast Hlen. subst chan.
  set (chan := Z.of_nat (length rs1) + 1) in *.
  set (st0 := {| tr := t0; newdata := nd0 |}).
  set (st2 := store_all h chan 0 rs1 st0).
  set (st3 := {| tr := kept h chan (Z.of_nat (length rs1)) c nd (tr st2);
                 newdata := Some nd |}).
  set (st4 := store_all h chan chan rs2 st3).
  exists (tr st4), (newdata st4). split.
  - rewrite trace_loop_pass.
    2:{ rewrite encode_trace_app, encode_trace_cons.
        destruct (encode_trace h rs1); [|discriminate].
        pose proof (encode_record_length h c) as Hl.
        destruct (encode_record h c); [simpl in Hl; lia|discriminate]. }
    rewrite Hstart.
    replace (Z.to_nat (nChannels h)) with (length rs1 + S (length rs2))%nat by lia.
    rewrite encode_trace_app, <- app_assoc.
    rewrite channel_loop_data by exact Hrs1.
    fold st0. fold st2. rewrite Z.add_0_l.
    cbn [channel_loop]. rewrite encode_trace_cons, <- app_assoc.
    unfold bind at 1.
    rewrite channel_record_comment by exact Hc.
    fold chan. rewrite Z.eqb_refl.
    assert (Hnd : newdata st2 = Some nd).
    { unfold st2. rewrite newdata_store_all. exact Hlast. }
    rewrite Hnd, Hlen, Z.eqb_refl. cbn [negb fst snd].
    fold st3.
    rewrite <- (Nat.add_0_r (length rs2)) at 1.
    rewrite channel_loop_data by exact Hrs2.
    fold st4. reflexivity.
  - unfold st4. rewrite store_all_later by lia.
    rewrite Z.ltb_irrefl.
    cbn [andb]. unfold st3, kept. cbn [tr].
    fold chan. rewrite Z.eqb_refl. cbn [append_row data].
    assert (Hd : data (tr st2) = data t0).
    { unfold st2. rewrite data_store_all_before by lia. reflexivity. }
    destruct (chan =? 1); cbn [append_scalars data]; rewrite Hd; reflexivity.
Qed.

(** A record with nothing to read after its header, off the output
    channel: [newdata] stays as it was. *)
Lemma channel_record_bare (h : header) (chan nn : Z) (st : loop_state) (r : record)
    (rest : list Byte.byte) :
  bare_record (nn + 1) r = true -> nn + 1 <> chan ->
  channel_record h chan nn st (encode_record h r ++ rest)
  = Ok ((false, {| tr := kept h chan nn r [] (tr st); newdata := newdata st |}), rest).
Proof.
  unfold bare_record. intros H Hne.
  apply andb_prop in H as [H Hc]. apply andb_prop in H as [H H1].
  apply andb_prop in H as [Hfit H0].
  apply Z.eqb_eq in Hc. apply negb_true_iff in H0, H1.
  unfold encode_record. rewrite <- !app_assoc.
  rewrite channel_record_open by assumption.
  rewrite H0. cbn [app].
  unfold record_payload. cbn [first]. rewrite bind_assoc, bind_ret. rewrite H0, H1.
  rewrite bind_ret. cbn [fst snd]. unfold kept.
  apply Z.eqb_neq in Hne. rewrite Hne. reflexivity.
Qed.

(** Such records on the channels before the output channel, read in a
    row from the start of a trace: [newdata] is still unbound. *)
Lemma channel_loop_bare (h : header) (chan : Z) (rs : list record) :
  forall (c : nat) (nn : Z) (t : traces) (rest : list Byte.byte),
    bare_records (nn + 1) rs = true ->
    nn + Z.of_nat (length rs) < chan ->
    0 <= nn ->
    exists t',
      channel_loop h chan (length rs + c) nn {| tr := t; newdata := None |}
        (encode_trace h rs ++ rest)
      = channel_loop h chan c (nn + Z.of_nat (length rs))
          {| tr := t'; newdata := None |} rest.
Proof.
  induction rs as [|r rs IH]; intros c nn t rest H Hlt Hnn.
  - exists t. cbn [length encode_trace map concat app Nat.add]. rewrite Z.add_0_r.
    reflexivity.
  - cbn [bare_records] in H. apply andb_prop in H as [Hr Hrs].
    cbn [length] in Hlt.
    destruct (IH c (nn + 1) (kept h chan nn r [] t) rest Hrs ltac:(lia) ltac:(lia))
      as (t' & E).
    exists t'.
    rewrite encode_trace_cons, <- app_assoc.
    cbn [length Nat.add channel_loop]. unfold bind at 1.
    rewrite channel_record_bare by (assumption || lia). cbn [fst snd tr newdata].
    rewrite E. f_equal. lia.
Qed.

End Comments.

Section CommentTheorem.
Import Rd Bin Gecko Stream.
Local Open Scope list_scope.

Lemma pass_arrays_first (h : header) :
  0 <= snum h -> pass_arrays h (0 + 1) None = Ok empty_traces.
Proof.
  intros H. unfold pass_arrays, preallocate. cbn [Z.add Z.eqb Pos.eqb].
  replace (snum h <? 0) with false by (symmetry; apply Z.ltb_ge; lia). reflexivity.
Qed.

Lemma pass_arrays_later (h : header) (nTrc : Z) (t : traces) :
  1 <= nTrc -> pass_arrays h (nTrc + 1) (Some t) = Ok t.
Proof.
  intros H. unfold pass_arrays.
  replace (nTrc + 1 =? 1) with false by (symmetry; apply Z.eqb_neq; lia). reflexivity.
Qed.

(** C10, as the code has it.  No sample payload is read for a comment
    record.  When the record of the output channel in the first trace
    is a comment and no record before it is a trace or a marker record
    (the records of the lower channels are comments, or of a kind the
    loader does not know; there is none when the output channel is 1),
    the append of the sample row fails on the unbound [newdata],
    whatever follows in the file.  When a comment on the output
    channel comes after some data record, the payload read last (that
    of the record just before it in the file, whatever its channel) is
    stored as the row of its trace. *)
Theorem comment_record_row :
  (forall (file bs bs' : list Byte.byte) (h : header) (chs : list channel_header)
          (chan : Z) (rs1 : list record) (c : record) (rest : list Byte.byte),
      file_header file = Ok (h, bs) ->
      channel_headers h (Z.to_nat (nChannels h)) 0 bs = Ok (chs, bs') ->
      bs' = encode_trace h (rs1 ++ [c]) ++ rest ->
      bare_records 1 rs1 = true ->
      Z.of_nat (length rs1) + 1 = chan ->
      chan <= nChannels h -> 0 <= snum h ->
      comment_record chan c = true ->
      gecko file chan = Some (Raise (UnboundLocalError "newdata"))) /\
  (forall (file bs bs' : list Byte.byte) (h : header) (chs : list channel_header)
          (chan : Z) (ts : list (list record)) (rs1 : list record) (c : record)
          (rs2 : list record) (nd : list Z),
      file_header file = Ok (h, bs) ->
      channel_headers h (Z.to_nat (nChannels h)) 0 bs = Ok (chs, bs') ->
      bs' = encode_traces h ts ++ encode_trace h (rs1 ++ c :: rs2) ->
      forallb (data_trace h) ts = true ->
      data_records h 1 rs1 = true ->
      Z.of_nat (length rs1) + 1 = chan ->
      comment_record chan c = true ->
      data_records h (chan + 1) rs2 = true ->
      chan + Z.of_nat (length rs2) = nChannels h ->
      preceding_samples ts rs1 = Some nd ->
      exists obj,
        gecko file chan = Some (Ok obj) /\
        tnum obj = Z.of_nat (length ts) + 1 /\
        data (cols obj)
          = transpose (Z.to_nat (snum h)) (injected_rows chan ts ++ [map Z2F nd])).
Proof.
  split.
  - intros file bs bs' h chs chan rs1 c rest Hh Hch -> Hrs1 Hchan HN Hsnum Hc.
    unfold gecko. rewrite Hh, Hch.
    assert (Hl : (1 <= length (encode_trace h (rs1 ++ [c])))%nat)
      by (apply encode_trace_length; destruct rs1; discriminate).
    destruct (length (encode_trace h (rs1 ++ [c]) ++ rest)) as [|f] eqn:Ef;
      [rewrite length_app in Ef; lia|].
    rewrite trace_loop_pass by (apply app_not_nil; exact Hl).
    rewrite pass_arrays_first by exact Hsnum.
    replace (Z.to_nat (nChannels h))
      with (length rs1 + S (Z.to_nat (nChannels h) - Z.to_nat chan))%nat by lia.
    rewrite encode_trace_app, <- app_assoc.
    destruct (channel_loop_bare h chan rs1 (S (Z.to_nat (nChannels h) - Z.to_nat chan)) 0
                empty_traces (encode_trace h [c] ++ rest) Hrs1 ltac:(lia) ltac:(lia))
      as (t' & ->).
    cbn [channel_loop]. rewrite encode_trace_cons, <- app_assoc.
    unfold bind at 1.
    rewrite channel_record_comment by (rewrite Z.add_0_l, Hchan; exact Hc).
    rewrite Z.add_0_l, Hchan, Z.eqb_refl. reflexivity.
  - intros file bs bs' h chs chan ts rs1 c rs2 nd Hh Hch -> Hts Hrs1 Hchan Hc Hrs2 HN Hprev.
    assert (HN1 : 1 <= nChannels h) by lia.
    unfold preceding_samples in Hprev. rewrite map_app, last_app_default in Hprev.
    assert (Hlen : Z.of_nat (length nd) = snum h).
    { refine (samples_length_records h rs1 1 _ nd Hrs1 _ Hprev).
      intros x Hx. refine (samples_length_traces h ts None x Hts _ Hx). discriminate. }
    assert (Hsnum : 0 <= snum h) by lia.
    unfold gecko. rewrite Hh, Hch.
    set (tail := encode_trace h (rs1 ++ c :: rs2)).
    assert (Htail : (1 <= length tail)%nat).
    { unfold tail. apply encode_trace_length. destruct rs1; discriminate. }
    destruct ts as [|t ts].
    + cbn [encode_traces map concat app].
      destruct (length tail) as [|f] eqn:Ef; [lia|].
      rewrite <- (app_nil_r tail). unfold tail.
      destruct (trace_loop_comment_pass f h chan 0 None None empty_traces rs1 c rs2 nd []
                  (pass_arrays_first h Hsnum) Hrs1 Hchan Hc Hrs2 HN Hprev Hlen)
        as (t' & nd' & -> & Hd).
      rewrite trace_loop_done. eexists. split; [reflexivity|].
      cbn [finalize tnum cols data]. rewrite Hd. cbn [empty_traces data app length].
      split; reflexivity.
    + pose proof (encode_traces_length h (t :: ts) Hts HN1) as Hl. cbn [length] in Hl.
      assert (Hfuel : exists f,
                 length (encode_traces h (t :: ts) ++ tail) = (S (length ts) + S f)%nat).
      { rewrite length_app.
        exists (length (encode_traces h (t :: ts)) - S (length ts) + (length tail - 1))%nat.
        lia. }
      destruct Hfuel as (f & ->).
      rewrite (trace_loop_data_traces h chan ts (S f) 0 None None empty_traces t tail Hts HN1
                 ltac:(lia) (pass_arrays_first h Hsnum)).
      set (st := store_traces h chan (t :: ts) {| tr := empty_traces; newdata := None |}).
      assert (Hnd : List.last (map (fun r => Some (r_samples r)) rs1) (newdata st) = Some nd).
      { unfold st. rewrite newdata_store_traces. exact Hprev. }
      rewrite <- (app_nil_r tail). unfold tail.
      destruct (trace_loop_comment_pass f h chan (0 + 1 + Z.of_nat (length ts))
                  (Some (tr st)) (newdata st) (tr st) rs1 c rs2 nd []
                  (pass_arrays_later h (0 + 1 + Z.of_nat (length ts)) (tr st) ltac:(lia)) Hrs1 Hchan Hc Hrs2 HN Hnd Hlen)
        as (t' & nd' & -> & Hd).
      rewrite trace_loop_done. eexists. split; [reflexivity|].
      cbn [finalize tnum cols data]. rewrite Hd.
      destruct (store_traces_columns h chan (t :: ts)
                  {| tr := empty_traces; newdata := None |} Hts ltac:(lia))
        as (_ & _ & _ & _ & _ & _ & _ & E8).
      fold st in E8. cbn [tr empty_traces data app] in E8. rewrite E8.
      split; [|reflexivity].
      rewrite length_app. unfold injected_rows. rewrite length_map. cbn [length]. lia.
Qed.

End CommentTheorem.

Section GeckoExamples.
Import Rd Bin Gecko Stream.
Local Open Scope list_scope.

Lemma comment_record_row_witness :
  gecko comments_on_both_file 2 = Some (Raise (UnboundLocalError "newdata")) /\
  exists obj,
    gecko comment_after_data_file 1 = Some (Ok obj) /\
    tnum obj = 1 + 1 /\
    data (cols obj)
      = transpose (Z.to_nat (snum (h38 1)))
          (injected_rows 1 [[example_record 0 1 7 [3; -4]]] ++ [map Z2F [3; -4]]).
Proof.
  split.
  - apply (proj1 comment_record_row comments_on_both_file
             (skipn 101 comments_on_both_file)
             (skipn 111 comments_on_both_file)
             (h38 2) [channel1; channel2] 2
             [example_record 2 1 7 []] (example_record 2 2 7 [])
             (encode_trace (h38 2)
                [example_record 0 1 8 [3; -4]; example_record 0 2 8 [5; 6]]));
      try (vm_compute; reflexivity); vm_compute; discriminate.
  - apply (proj2 comment_record_row comment_after_data_file
             (concat (map (channel_header_bytes 380) (arange 1 2))
              ++ encode_traces (h38 1) comment_after_data)
             (encode_traces (h38 1) comment_after_data)
             (h38 1) [channel1] 1 [[example_record 0 1 7 [3; -4]]] []
             (example_record 2 1 8 []) [] [3; -4]);
      vm_compute; reflexivity.
Defined.

(** Against C10 as stated: in this file of two channels the first trace
    has a data record on channel 1 and a comment on channel 2.  With
    channel 2 as output channel its first record is the comment, and
    the decode does not fail: the payload of the record of channel 1
    is stored instead. *)
Lemma comment_on_other_channel_passes :
  r_kind (on_channel 2 (hd [] comment_on_second)) = 2 /\
  (exists obj,
      gecko comment_on_second_file 2 = Some (Ok obj) /\
      tnum obj = 1 /\
      data (cols obj) = transpose 2 [map Z2F [3; -4]]) /\
  gecko comment_on_second_file 2 <> Some (Raise (UnboundLocalError "newdata")).
Proof.
  split; [reflexivity|]. split.
  - eexists. split; [vm_compute; reflexivity|]. split; vm_compute; reflexivity.
  - assert (E : match gecko comment_on_second_file 2 with
                | Some (Ok _) => true
                | _ => false
                end = true) by (vm_compute; reflexivity).
    intros H. rewrite H in E. discriminate E.
Qed.

(** C9 fails on the code: a marker record with its payload present stops
    the decode at the third read of the payload. *)
Theorem marker_record_raises :
  r_kind (example_record 1 1 7 []) = 1 /\
  marker_file
    = prefix38 1 ++ encode_record (h38 1) (example_record 1 1 7 []) ++ repeat Byte.x00 38 /\
  gecko marker_file 1 = Some (Raise TypeErrorOperand).
Proof. repeat split; vm_compute; reflexivity. Qed.


End GeckoExamples.

(** ** The conversion of integers to binary64 *)

Section FloatConversion.
Import Bin.

Lemma SFopp_binary_round (m : positive) (e : Z) :
  binary_round prec emax true m e = SFopp (binary_round prec emax false m e).
Proof.
  unfold binary_round.
  destruct (shl_align m e (fexp prec emax (Z.pos (digits2_pos m) + e))) as [mz ez].
  unfold binary_round_aux.
  destruct (shr_fexp prec emax (Z.pos mz) ez loc_Exact) as [mrs' e'].
  destruct (shr_fexp prec emax (round_nearest_even (shr_m mrs') (loc_of_shr_record mrs'))
              e' loc_Exact) as [mrs'' e''].
  destruct (shr_m mrs'') as [|p|p]; cbn [SFopp negb]; try reflexivity.
  destruct (e'' <=? emax - prec); reflexivity.
Qed.

Lemma Z2F_of_uint63 (z : Z) :
  0 <= z < Uint63.wB -> Z2F z = PrimFloat.of_uint63 (Uint63.of_Z z).
Proof.
  intros Hz. unfold Z2F.
  rewrite <- (SF2Prim_Prim2SF (of_uint63 (Uint63.of_Z z))).
  rewrite of_uint63_spec, Uint63.of_Z_spec, Z.mod_small by exact Hz. reflexivity.
Qed.

(** The primitive conversion computes [float(z)]. *)
Lemma Z2F_fast (z : Z) : - Uint63.wB < z < Uint63.wB -> Z2F z = Fast.Z2F z.
Proof.
  intros Hz. unfold Fast.Z2F. destruct (z <? 0) eqn:E.
  - apply Z.ltb_lt in E. destruct z as [|p|p]; try lia.
    cbn [Z.opp].
    assert (Hp : binary_normalize prec emax (Z.pos p) 0 false
                 = Prim2SF (of_uint63 (Uint63.of_Z (Z.pos p)))).
    { rewrite of_uint63_spec, Uint63.of_Z_spec, Z.mod_small by lia. reflexivity. }
    unfold Z2F. cbn [binary_normalize]. rewrite SFopp_binary_round.
    change (binary_round prec emax false p 0) with (binary_normalize prec emax (Z.pos p) 0 false).
    rewrite Hp, <- opp_spec, SF2Prim_Prim2SF. reflexivity.
  - apply Z.ltb_ge in E. apply Z2F_of_uint63. lia.
Qed.

End FloatConversion.

(** ** Version thresholds *)

Section VersionThresholds.
Import Rd Bin Gecko Stream Layout.
Local Open Scope list_scope.

Lemma thresholds_agree_all : forallb thresholds_agree raw_versions = true.
Proof. vm_compute. reflexivity. Qed.

Lemma count_from_In (n : nat) :
  forall a z : Z, a <= z < a + Z.of_nat n -> In z (count_from a n).
Proof.
  induction n as [|n IH]; intros a z Hz; [lia|].
  cbn [count_from]. destruct (Z.eq_dec a z) as [->|Hne]; [left; reflexivity|].
  right. apply IH. lia.
Qed.

Lemma version_of_fast (raw : Z) :
  -32768 <= raw < 32768 -> version_of raw = Fast.version_of raw.
Proof.
  intros H. unfold version_of, Fast.version_of. rewrite Z2F_fast; [reflexivity|].
  change Uint63.wB with 9223372036854775808. lia.
Qed.

(** X1. The loader compares [self.Version], the binary64 quotient of the
    raw [int16] field by 100, with the literals 3.21, 3.8, 3.6 and 3.2.
    For every value the field can hold these comparisons come out as the
    integer comparisons of the raw field with 321, 380, 360 and 320: a
    file written as version 3.21 (3.8, 3.6, 3.2) is never taken for an
    older one. *)
Theorem version_thresholds_exact (raw : Z) :
  -32768 <= raw < 32768 ->
  lt (version_of raw) v3_21 = (raw <? 321) /\
  lt (version_of raw) v3_8 = (raw <? 380) /\
  lt (version_of raw) v3_6 = (raw <? 360) /\
  lt (version_of raw) v3_2 = (raw <? 320) /\
  PrimFloat.leb v3_6 (version_of raw) = (360 <=? raw).
Proof.
  intros H. rewrite version_of_fast by exact H.
  pose proof thresholds_agree_all as Hall.
  rewrite forallb_forall in Hall.
  assert (Hin : In raw raw_versions).
  { unfold raw_versions. apply count_from_In. rewrite Z2Nat.id by lia. lia. }
  specialize (Hall raw Hin).
  unfold thresholds_agree in Hall.
  repeat (apply andb_prop in Hall as [Hall ?]).
  repeat split; apply eqb_prop; assumption.
Qed.

Lemma version_thresholds_exact_witness :
  lt (version_of 321) v3_21 = (321 <? 321) /\
  lt (version_of 321) v3_8 = (321 <? 380) /\
  lt (version_of 321) v3_6 = (321 <? 360) /\
  lt (version_of 321) v3_2 = (321 <? 320) /\
  PrimFloat.leb v3_6 (version_of 321) = (360 <=? 321).
Proof. apply (version_thresholds_exact 321). lia. Defined.

End VersionThresholds.

(** ** The end of the trace loop *)

Section Termination.
Import Rd Bin Gecko Stream Layout.
Local Open Scope list_scope.

Lemma forward_ret {A} (a : A) : forward (ret a).
Proof. intros bs a' bs' H. inversion H; subst. lia. Qed.

Lemma forward_raise {A} (e : exn) : forward (@raise A e).
Proof. intros bs a bs' H. discriminate. Qed.

Lemma forward_bind {A B} (m : R A) (k : A -> R B) :
  forward m -> (forall a, forward (k a)) -> forward (bind m k).
Proof.
  intros Hm Hk bs b bs' H. unfold bind in H.
  destruct (m bs) as [[a bs1]|e] eqn:E; [|discriminate].
  apply Hm in E. apply Hk in H. lia.
Qed.

Lemma forward_fromfile {A} (size : nat) (dec : list Byte.byte -> A) (count : nat) :
  forward (fromfile size dec count).
Proof.
  intros bs a bs' H. unfold fromfile in H. inversion H; subst.
  rewrite length_skipn. lia.
Qed.

Lemma forward_first {A} (a : list A) : forward (first a).
Proof. destruct a; [apply forward_raise|apply forward_ret]. Qed.

Lemma forward_one {A} (size : nat) (dec : list Byte.byte -> A) : forward (one size dec).
Proof. apply forward_bind; [apply forward_fromfile|intros; apply forward_first]. Qed.

Ltac forward_tac :=
  repeat first
    [ apply forward_ret | apply forward_raise | apply forward_one
    | apply forward_fromfile | apply forward_first
    | apply forward_bind; [|intros]
    | match goal with
      | |- forward (if ?b then _ else _) => destruct b
      | |- forward (match ?x with _ => _ end) => destruct x
      end ].

Lemma forward_trace_fields (h : header) : forward (trace_fields h).
Proof. unfold trace_fields. forward_tac. Qed.

Lemma forward_marker_payload : forward marker_payload.
Proof. unfold marker_payload. forward_tac. Qed.

Lemma forward_record_payload (h : header) (nH : list Z) (nd : option (list Z)) :
  forward (record_payload h nH nd).
Proof.
  unfold record_payload. forward_tac; apply forward_marker_payload.
Qed.

(** A record that is read takes its two leading bytes at least. *)
Lemma channel_record_consumes (h : header) (chan nn : Z) (st : loop_state)
    (bs bs' : list Byte.byte) (r : bool * loop_state) :
  channel_record h chan nn st bs = Ok (r, bs') -> (length bs' + 2 <= length bs)%nat.
Proof.
  unfold channel_record. intros H.
  unfold bind at 1, fromfile at 1 in H. cbn [Nat.mul Nat.add] in H.
  destruct bs as [|b0 [|b1 bs2]]; try discriminate H.
  cbn [skipn] in H. rewrite bind_one_byte in H.
  destruct (negb (Z_of_byte b1 =? nn + 1)); [discriminate|].
  assert (F : forward (x <- trace_fields h ;;
                       p <- record_payload h (map uint8 (items 1 1 (b0 :: b1 :: bs2))) (newdata st) ;;
                       if fst p then ret (true, {| tr := tr st; newdata := snd p |})
                       else
                         let t1 := if nn + 1 =? 1 then append_scalars x (tr st) else tr st in
                         if nn + 1 =? chan then
                           match snd p with
                           | None => raise (UnboundLocalError "newdata")
                           | Some nd =>
                               if negb (Z.of_nat (length nd) =? snum h) then raise ValueError
                               else ret (false, {| tr := append_row nd t1; newdata := Some nd |})
                           end
                         else ret (false, {| tr := t1; newdata := snd p |}))%rd).
  { apply forward_bind; [apply forward_trace_fields|intros x].
    apply forward_bind; [apply forward_record_payload|intros p].
    cbv zeta. forward_tac. }
  apply F in H. cbn [length]. lia.
Qed.

Lemma forward_channel_loop (h : header) (chan : Z) (count : nat) :
  forall (nn : Z) (st : loop_state), forward (channel_loop h chan count nn st).
Proof.
  induction count as [|c IH]; intros nn st; cbn [channel_loop]; [apply forward_ret|].
  intros bs a bs' H. unfold bind at 1 in H.
  destruct (channel_record h chan nn st bs) as [[r bs1]|e] eqn:E; [|discriminate].
  apply channel_record_consumes in E.
  destruct (fst r).
  - inversion H; subst. lia.
  - apply IH in H. lia.
Qed.

Lemma channel_loop_consumes (h : header) (chan : Z) (count : nat) (nn : Z)
    (st st' : loop_state) (bs bs' : list Byte.byte) :
  (1 <= count)%nat ->
  channel_loop h chan count nn st bs = Ok (st', bs') -> (length bs' + 2 <= length bs)%nat.
Proof.
  destruct count as [|c]; [lia|]. intros _ H. cbn [channel_loop] in H.
  unfold bind at 1 in H.
  destruct (channel_record h chan nn st bs) as [[r bs1]|e] eqn:E; [|discriminate].
  apply channel_record_consumes in E.
  destruct (fst r).
  - inversion H; subst. lia.
  - apply forward_channel_loop in H. lia.
Qed.

(** With a channel to read, the loop ends within as many passes as
    there are bytes left, and its result does not depend on the bound. *)
Lemma trace_loop_result (h : header) (chan : Z) :
  1 <= nChannels h ->
  forall (n : nat) (bs : list Byte.byte) (nTrc : Z) (cur : option traces)
         (nd : option (list Z)),
    (length bs <= n)%nat ->
    exists r, forall fuel, (length bs <= fuel)%nat ->
                trace_loop fuel h chan nTrc cur nd bs = Some r.
Proof.
  intros HN. induction n as [|n IH]; intros bs nTrc cur nd Hlen.
  - destruct bs; [|cbn in Hlen; lia].
    exists (Ok cur). intros fuel _. apply trace_loop_done.
  - destruct bs as [|b bs0] eqn:Ebs.
    { exists (Ok cur). intros fuel _. apply trace_loop_done. }
    rewrite <- Ebs in *.
    assert (Hne : bs <> []) by (subst; discriminate).
    destruct (pass_arrays h (nTrc + 1) cur) as [t|e] eqn:Ep.
    + destruct (channel_loop h chan (Z.to_nat (nChannels h)) 0 {| tr := t; newdata := nd |} bs)
        as [[st bs1]|e] eqn:Ec.
      * assert (Hc1 : (1 <= Z.to_nat (nChannels h))%nat) by lia.
        pose proof (channel_loop_consumes h chan _ 0 _ st bs bs1 Hc1 Ec) as Hc.
        assert (Hn1 : (length bs1 <= n)%nat) by lia.
        destruct (IH bs1 (nTrc + 1) (Some (tr st)) (newdata st) Hn1) as (r & Hr).
        exists r. intros fuel Hf. destruct fuel as [|fuel]; [subst; cbn in Hf; lia|].
        rewrite trace_loop_pass by exact Hne. rewrite Ep, Ec. apply Hr. lia.
      * exists (Raise e). intros fuel Hf. destruct fuel as [|fuel]; [subst; cbn in Hf; lia|].
        rewrite trace_loop_pass by exact Hne. rewrite Ep, Ec. reflexivity.
    + exists (Raise e). intros fuel Hf. destruct fuel as [|fuel]; [subst; cbn in Hf; lia|].
      rewrite trace_loop_pass by exact Hne. rewrite Ep. reflexivity.
Qed.

(** X2. When the file declares at least one channel, the trace loop ends
    whatever bytes follow the headers: each pass takes at least two bytes
    or raises, so no more passes are made than there are bytes left, and
    the outcome is the same for every larger bound on the passes. *)
Theorem trace_loop_ends (h : header) (chan nTrc : Z) (cur : option traces)
    (nd : option (list Z)) (bs : list Byte.byte) :
  1 <= nChannels h ->
  exists r, forall fuel, (length bs <= fuel)%nat ->
              trace_loop fuel h chan nTrc cur nd bs = Some r.
Proof. intros HN. exact (trace_loop_result h chan HN (length bs) bs nTrc cur nd (le_n _)). Qed.

Lemma trace_loop_ends_witness :
  exists r, forall fuel, (length (encode_traces (h38 1) two_traces) <= fuel)%nat ->
              trace_loop fuel (h38 1) 1 0 None None (encode_traces (h38 1) two_traces) = Some r.
Proof. apply trace_loop_ends. vm_compute. discriminate. Defined.

(** Without a channel no byte is ever read. *)
Lemma trace_loop_idle (h : header) (chan : Z) (bs : list Byte.byte) :
  nChannels h = 0 -> bs <> [] ->
  forall (fuel : nat) (nTrc : Z) (cur : option traces) (nd : option (list Z)),
    (exists t, pass_arrays h (nTrc + 1) cur = Ok t) -> 0 <= nTrc ->
    trace_loop fuel h chan nTrc cur nd bs = None.
Proof.
  intros HN Hne. induction fuel as [|fuel IH]; intros nTrc cur nd (t & Hp) Hn.
  - destruct bs; [congruence|reflexivity].
  - rewrite trace_loop_pass by exact Hne. rewrite Hp, HN.
    cbn [Z.to_nat channel_loop ret]. apply IH; [|lia].
    exists t. unfold pass_arrays.
    replace (nTrc + 1 + 1 =? 1) with false by (symmetry; apply Z.eqb_neq; lia).
    reflexivity.
Qed.

Lemma channel_headers_none (h : header) (bs : list Byte.byte) :
  channel_headers h (Z.to_nat 0) 0 bs = Ok ([], bs).
Proof. reflexivity. Qed.

(** X3. A file that declares no channel and holds any byte after its
    header keeps the trace loop running for ever: no pass reads anything,
    so the end of the file is never reached, whatever the bound on the
    number of passes; the constructor does not return. *)
Theorem zero_channels_never_end (file bs : list Byte.byte) (h : header) (chan : Z) :
  file_header file = Ok (h, bs) ->
  nChannels h = 0 -> 0 <= snum h -> bs <> [] ->
  (forall fuel, trace_loop fuel h chan 0 None None bs = None) /\
  gecko file chan = None.
Proof.
  intros Hh HN Hs Hne.
  assert (L : forall fuel, trace_loop fuel h chan 0 None None bs = None).
  { intros fuel. apply trace_loop_idle; [assumption..| |lia].
    exists empty_traces. apply pass_arrays_first. exact Hs. }
  split; [exact L|].
  unfold gecko. rewrite Hh, HN. rewrite channel_headers_none. rewrite L. reflexivity.
Qed.

Lemma zero_channels_never_end_witness :
  (forall fuel, trace_loop fuel (h38 0) 1 0 None None [Byte.x00] = None) /\
  gecko (prefix38 0 ++ [Byte.x00]) 1 = None.
Proof.
  apply (zero_channels_never_end (prefix38 0 ++ [Byte.x00]) [Byte.x00] (h38 0) 1).
  - vm_compute. reflexivity.
  - vm_compute. reflexivity.
  - vm_compute. discriminate.
  - discriminate.
Defined.

Lemma file_header_nChannels (file bs : list Byte.byte) (h : header) :
  file_header file = Ok (h, bs) -> 0 <= nChannels h.
Proof.
  unfold file_header. intros H.
  repeat match type of H with
         | bind ?m ?k ?b = Ok _ =>
             let a := fresh "a" in let b1 := fresh "b" in let E := fresh "E" in
             unfold bind at 1 in H;
             destruct (m b) as [[a b1]|?] eqn:E; [|discriminate H]
         end.
  cbn [ret] in H. inversion H; subst. cbn [nChannels].
  match goal with
  | E : one 1 uint8 ?b = Ok (?a, _) |- 0 <= ?a =>
      unfold one, bind, fromfile in E; cbn [items] in E;
      destruct (length b <? 1)%nat; cbn [map first] in E; [discriminate E|];
      inversion E; subst
  end.
  unfold uint8. match goal with |- 0 <= le_unsigned ?l => clear; generalize l end. intros l.
  induction l as [|x l IH]; cbn [le_unsigned]; [lia|].
  pose proof (Z_of_byte_range x). lia.
Qed.

(** X4. The constructor fails to return in one case only: the header
    decodes, declares no channel and a sample count that is not negative,
    and bytes are left after it.  In every other case it returns an object
    or raises. *)
Theorem gecko_unending_iff_no_channels (file : list Byte.byte) (chan : Z) :
  gecko file chan = None <->
  exists h bs, file_header file = Ok (h, bs) /\ nChannels h = 0 /\ 0 <= snum h /\ bs <> [].
Proof.
  split.
  - unfold gecko. intros H.
    destruct (file_header file) as [[h bs]|e] eqn:Eh; [|discriminate].
    exists h, bs. split; [reflexivity|].
    pose proof (file_header_nChannels _ _ _ Eh) as H0.
    destruct (Z.eq_dec (nChannels h) 0) as [HN|HN].
    + split; [exact HN|]. rewrite HN in H. rewrite channel_headers_none in H.
      destruct bs as [|b bs]; [cbn in H; discriminate|].
      split; [|discriminate].
      destruct (Z.ltb_spec (snum h) 0) as [Hneg|Hpos]; [|exact Hpos].
      exfalso. change (length (b :: bs)) with (S (length bs)) in H.
      rewrite trace_loop_pass in H by discriminate.
      unfold pass_arrays, preallocate in H. cbn [Z.add Z.eqb Pos.eqb] in H.
      replace (snum h <? 0) with true in H by (symmetry; apply Z.ltb_lt; lia).
      discriminate.
    + exfalso.
      destruct (channel_headers h (Z.to_nat (nChannels h)) 0 bs) as [[chs bs']|e];
        [|discriminate].
      destruct (trace_loop_result h chan ltac:(lia) (length bs') bs' 0 None None (le_n _))
        as (r & Hr).
      rewrite (Hr (length bs') (le_n _)) in H. destruct r; discriminate.
  - intros (h & bs & Hh & HN & Hs & Hne).
    unfold gecko. rewrite Hh, HN. rewrite channel_headers_none.
    rewrite trace_loop_idle; [reflexivity|assumption..| |lia].
    exists empty_traces. apply pass_arrays_first. exact Hs.
Qed.

End Termination.

(** ** What holds of every object the decoder returns *)

Section Invariants.
Import Rd Bin Gecko Stream Layout.
Local Open Scope list_scope.

Lemma bind_Ok_inv {A B} (m : R A) (k : A -> R B) (bs : list Byte.byte)
    (r : B * list Byte.byte) :
  bind m k bs = Ok r -> exists a bs1, m bs = Ok (a, bs1) /\ k a bs1 = Ok r.
Proof.
  unfold bind. destruct (m bs) as [[a bs1]|e]; [|discriminate].
  intros H. exists a, bs1. split; [reflexivity|exact H].
Qed.

(** The odometer fields are read exactly below version 3.21. *)
Lemma trace_fields_odometer (h : header) (bs bs' : list Byte.byte) (x : scalars) :
  trace_fields h bs = Ok (x, bs') ->
  if lt (Version h) v3_21 then exists op, s_odometer x = Some op else s_odometer x = None.
Proof.
  unfold trace_fields. intros H.
  do 4 (apply bind_Ok_inv in H as (? & ? & _ & H)).
  apply bind_Ok_inv in H as (odo & ? & Ho & H).
  do 5 (apply bind_Ok_inv in H as (? & ? & _ & H)).
  cbn [ret] in H. inversion H; subst. cbn [s_odometer].
  destruct (lt (Version h) v3_21).
  - apply bind_Ok_inv in Ho as (? & ? & _ & Ho).
    apply bind_Ok_inv in Ho as (? & ? & _ & Ho).
    cbn [ret] in Ho. inversion Ho; subst. eexists; reflexivity.
  - cbn [ret] in Ho. inversion Ho; subst. reflexivity.
Qed.

(** The final part of [channel_record], once the header and the payload
    of the record are read. *)
Lemma channel_record_inv (h : header) (chan nn : Z) (st : loop_state)
    (bs bs' : list Byte.byte) (r : bool * loop_state) :
  channel_record h chan nn st bs = Ok (r, bs') ->
  exists (x : scalars) (p : bool * option (list Z)),
    (if lt (Version h) v3_21 then exists op, s_odometer x = Some op
     else s_odometer x = None) /\
    (if fst p then r = (true, {| tr := tr st; newdata := snd p |})
     else
       let t1 := if nn + 1 =? 1 then append_scalars x (tr st) else tr st in
       if nn + 1 =? chan then
         exists nd, Z.of_nat (length nd) = snum h /\
                    r = (false, {| tr := append_row nd t1; newdata := Some nd |})
       else r = (false, {| tr := t1; newdata := snd p |})).
Proof.
  unfold channel_record. intros H.
  apply bind_Ok_inv in H as (nH & b1 & _ & H).
  apply bind_Ok_inv in H as (nChan & b2 & _ & H).
  destruct (negb (nChan =? nn + 1)); [discriminate|].
  apply bind_Ok_inv in H as (sc & b3 & Hx & H).
  apply bind_Ok_inv in H as (p & b4 & _ & H).
  apply trace_fields_odometer in Hx.
  exists sc, p. split; [exact Hx|].
  destruct (fst p).
  - cbn [ret] in H. inversion H; subst. reflexivity.
  - cbv zeta in H |- *. destruct (nn + 1 =? chan).
    + destruct (snd p) as [nd|]; [|discriminate].
      destruct (Z.of_nat (length nd) =? snum h) eqn:El; [|discriminate].
      cbn [negb ret] in H. inversion H; subst.
      exists nd. apply Z.eqb_eq in El. auto.
    + cbn [ret] in H. inversion H; subst. reflexivity.
Qed.

Lemma channel_record_rectangular (h : header) (chan nn : Z) (st : loop_state)
    (bs bs' : list Byte.byte) (r : bool * loop_state) :
  channel_record h chan nn st bs = Ok (r, bs') ->
  rectangular h (tr st) -> rectangular h (tr (snd r)).
Proof.
  intros H Hst. apply channel_record_inv in H as (x & p & _ & H).
  assert (H1 : rectangular h (if nn + 1 =? 1 then append_scalars x (tr st) else tr st)).
  { destruct (nn + 1 =? 1); [|exact Hst]. exact Hst. }
  destruct (fst p).
  - subst r. exact Hst.
  - cbv zeta in H. destruct (nn + 1 =? chan).
    + destruct H as (nd & Hl & ->). cbn [snd tr]. unfold rectangular, append_row. cbn [data].
      apply Forall_app. split; [exact H1|].
      constructor; [|constructor]. rewrite length_map. lia.
    + subst r. exact H1.
Qed.

Lemma channel_record_aligned (h : header) (nn : Z) (st : loop_state)
    (bs bs' : list Byte.byte) (r : bool * loop_state) :
  channel_record h 1 nn st bs = Ok (r, bs') ->
  aligned h (tr st) -> aligned h (tr (snd r)).
Proof.
  intros H Hst. apply channel_record_inv in H as (x & p & Hx & H).
  destruct (fst p).
  - subst r. exact Hst.
  - cbv zeta in H. destruct (nn + 1 =? 1).
    + destruct H as (nd & _ & ->). cbn [snd tr].
      unfold aligned in *. cbn [append_row append_scalars trace_num decday trace_int
        trig_level lat long elev GPSResolution Odometer pressure data].
      destruct Hst as (H1 & H2 & H3 & H4 & H5 & H6 & H7 & H8 & H9 & H10).
      rewrite !length_app. cbn [length].
      destruct (lt (Version h) v3_21).
      * destruct Hx as ([o q] & ->). rewrite !length_app. cbn [length].
        repeat split; lia.
      * rewrite Hx. repeat split; lia.
    + subst r. exact Hst.
Qed.

(** An invariant of the arrays that every record keeps holds when the
    loop ends. *)
Lemma channel_loop_invariant (P : traces -> Prop) (h : header) (chan : Z) :
  (forall nn st bs r bs',
      channel_record h chan nn st bs = Ok (r, bs') -> P (tr st) -> P (tr (snd r))) ->
  forall (count : nat) (nn : Z) (st st' : loop_state) (bs bs' : list Byte.byte),
    channel_loop h chan count nn st bs = Ok (st', bs') -> P (tr st) -> P (tr st').
Proof.
  intros Hrec. induction count as [|c IH]; intros nn st st' bs bs' H Hst.
  - cbn [channel_loop ret] in H. inversion H; subst. exact Hst.
  - cbn [channel_loop] in H. apply bind_Ok_inv in H as (r & bs1 & Hr & H).
    apply Hrec in Hr; [|exact Hst].
    destruct (fst r).
    + cbn [ret] in H. inversion H; subst. exact Hr.
    + exact (IH _ _ _ _ _ H Hr).
Qed.

Lemma trace_loop_invariant (P : traces -> Prop) (h : header) (chan : Z) :
  (forall t, preallocate h = Ok t -> P t) ->
  (forall nn st bs r bs',
      channel_record h chan nn st bs = Ok (r, bs') -> P (tr st) -> P (tr (snd r))) ->
  forall (fuel : nat) (nTrc : Z) (cur : option traces) (nd : option (list Z))
         (bs : list Byte.byte) (t : traces),
    trace_loop fuel h chan nTrc cur nd bs = Some (Ok (Some t)) ->
    (forall t0, cur = Some t0 -> P t0) -> P t.
Proof.
  intros Hpre Hrec. induction fuel as [|fuel IH]; intros nTrc cur nd bs t H Hcur.
  - destruct bs; [|discriminate]. cbn in H. inversion H; subst. apply Hcur. reflexivity.
  - destruct bs as [|b bs0] eqn:Ebs.
    { cbn in H. inversion H; subst. apply Hcur. reflexivity. }
    rewrite <- Ebs in *. rewrite trace_loop_pass in H by (subst; discriminate).
    destruct (pass_arrays h (nTrc + 1) cur) as [t1|e] eqn:Ep; [|discriminate].
    destruct (channel_loop h chan (Z.to_nat (nChannels h)) 0 {| tr := t1; newdata := nd |} bs)
      as [[st bs1]|e] eqn:Ec; [|discriminate].
    apply (IH _ _ _ _ _ H). intros t0 E0. inversion E0; subst.
    apply (channel_loop_invariant P h chan Hrec _ _ _ _ _ _ Ec). cbn [tr].
    unfold pass_arrays in Ep. destruct (nTrc + 1 =? 1).
    + apply Hpre. exact Ep.
    + destruct cur as [t0|]; [|discriminate]. inversion Ep; subst. apply Hcur. reflexivity.
Qed.

Lemma preallocate_inv (h : header) (t : traces) :
  preallocate h = Ok t -> 0 <= snum h /\ t = empty_traces.
Proof.
  unfold preallocate. destruct (Z.ltb_spec (snum h) 0) as [Hn|Hp]; [discriminate|].
  intros E. inversion E; subst. split; [assumption|reflexivity].
Qed.

(** A call that returns an object went through the three stages. *)
Lemma gecko_Ok_inv (file : list Byte.byte) (chan : Z) (g : gecko_obj) :
  gecko file chan = Some (Ok g) ->
  exists h bs chs bs' t,
    file_header file = Ok (h, bs) /\
    channel_headers h (Z.to_nat (nChannels h)) 0 bs = Ok (chs, bs') /\
    trace_loop (length bs') h chan 0 None None bs' = Some (Ok (Some t)) /\
    finalize h chan chs (Some t) = Ok g.
Proof.
  unfold gecko. intros H.
  destruct (file_header file) as [[h bs]|e] eqn:Eh; [|discriminate].
  destruct (channel_headers h (Z.to_nat (nChannels h)) 0 bs) as [[chs bs']|e] eqn:Ec;
    [|discriminate].
  destruct (trace_loop (length bs') h chan 0 None None bs') as [[cur|e]|] eqn:El;
    try discriminate.
  destruct cur as [t|]; [|cbn in H; discriminate].
  exists h, bs, chs, bs', t.
  split; [reflexivity|]. split; [exact Ec|]. split; [exact El|].
  congruence.
Qed.

(** The arrays are allocated only for a sample count that is not negative. *)
Lemma trace_loop_snum (h : header) (chan : Z) :
  forall (fuel : nat) (nTrc : Z) (cur : option traces) (nd : option (list Z))
         (bs : list Byte.byte) (t : traces),
    trace_loop fuel h chan nTrc cur nd bs = Some (Ok (Some t)) ->
    cur = None -> 0 <= snum h.
Proof.
  intros fuel nTrc cur nd bs t H ->.
  destruct fuel as [|fuel]; destruct bs as [|b bs]; try discriminate.
  rewrite trace_loop_pass in H by discriminate.
  unfold pass_arrays in H. destruct (nTrc + 1 =? 1); [|discriminate].
  destruct (preallocate h) as [t1|e] eqn:Ep; [|discriminate].
  apply preallocate_inv in Ep. tauto.
Qed.

Lemma length_zeros (n : nat) : length (zeros n) = n.
Proof. apply repeat_length. Qed.

Lemma length_arange (lo hi : Z) : length (arange lo hi) = Z.to_nat (hi - lo).
Proof. unfold arange. rewrite length_map, length_seq. reflexivity. Qed.

(** X5. Whatever bytes the file holds, an object that [load_gecko]
    returns has one entry per trace in every per-trace array: the trace
    number, day, interval, trigger level, position and GPS accuracy read
    from the trace headers, and the coordinate, distance and trigger
    arrays made at the end.  The odometer array has one entry per trace
    below version 3.21 and none from there on; the pressure array is
    empty for the versions from 3.21 up to 3.6 (not included), which
    neither read the field nor fill the array with zeros. *)
Theorem load_gecko_arrays_aligned (file : list Byte.byte) (g : gecko_obj) :
  load_gecko file = Some (Ok g) ->
  exists n : nat,
    tnum g = Z.of_nat n /\
    length (trace_num (cols g)) = n /\ length (decday (cols g)) = n /\
    length (trace_int (cols g)) = n /\ length (trig_level (cols g)) = n /\
    length (lat (cols g)) = n /\ length (long (cols g)) = n /\
    length (elev (cols g)) = n /\ length (GPSResolution (cols g)) = n /\
    length (x_coord g) = n /\ length (y_coord g) = n /\
    length (dist g) = n /\ length (trig g) = n /\
    length (Odometer (cols g)) = (if lt (Version (hdr g)) v3_21 then n else 0%nat) /\
    length (pressure (cols g))
    = (if lt (Version (hdr g)) v3_21 || PrimFloat.leb v3_6 (Version (hdr g))
       then n else 0%nat).
Proof.
  unfold load_gecko. intros H.
  apply gecko_Ok_inv in H as (h & bs & chs & bs' & t & _ & _ & Hl & Hf).
  assert (Ha : aligned h t).
  { refine (trace_loop_invariant (aligned h) h 1 _ _ _ _ _ _ _ _ Hl _).
    - intros t0 Hp. apply preallocate_inv in Hp as [_ ->].
      unfold aligned, empty_traces.
      cbn [trace_num decday trace_int trig_level lat long elev GPSResolution Odometer
           pressure data length].
      destruct (lt (Version h) v3_21); repeat split; reflexivity.
    - intros nn st b r b'. apply channel_record_aligned.
    - intros t0 E. discriminate. }
  cbn [finalize] in Hf. inversion Hf; subst. clear Hf.
  destruct Ha as (H1 & H2 & H3 & H4 & H5 & H6 & H7 & H8 & H9 & H10).
  exists (length (data t)).
  cbn [tnum cols hdr trace_num decday trace_int trig_level lat long elev GPSResolution
       x_coord y_coord dist trig Odometer pressure].
  rewrite !length_zeros, length_arange, Z.sub_0_r, Nat2Z.id.
  repeat split; try assumption.
  destruct (PrimFloat.leb v3_6 (Version h)).
  - rewrite orb_true_r, length_zeros. reflexivity.
  - rewrite orb_false_r. exact H10.
Qed.

Lemma load_gecko_arrays_aligned_witness :
  exists g,
    load_gecko two_trace_file = Some (Ok g) /\
    exists n : nat,
      tnum g = Z.of_nat n /\
      length (trace_num (cols g)) = n /\ length (decday (cols g)) = n /\
      length (trace_int (cols g)) = n /\ length (trig_level (cols g)) = n /\
      length (lat (cols g)) = n /\ length (long (cols g)) = n /\
      length (elev (cols g)) = n /\ length (GPSResolution (cols g)) = n /\
      length (x_coord g) = n /\ length (y_coord g) = n /\
      length (dist g) = n /\ length (trig g) = n /\
      length (Odometer (cols g)) = (if lt (Version (hdr g)) v3_21 then n else 0%nat) /\
      length (pressure (cols g))
      = (if lt (Version (hdr g)) v3_21 || PrimFloat.leb v3_6 (Version (hdr g))
         then n else 0%nat).
Proof.
  eexists. split; [vm_compute; reflexivity|].
  apply (load_gecko_arrays_aligned two_trace_file). vm_compute. reflexivity.
Defined.

(** X6. For any output channel and any bytes, the radargram of a returned
    object is the transpose of the rows the loop stored, each of which
    holds exactly [snum] samples: [data] has [snum] rows of [tnum]
    entries, none of them a fill value, and [snum] is not negative. *)
Theorem gecko_data_rectangular (file : list Byte.byte) (chan : Z) (g : gecko_obj) :
  gecko file chan = Some (Ok g) ->
  0 <= snum (hdr g) /\
  exists rows : list (list float),
    Forall (fun row => length row = Z.to_nat (snum (hdr g))) rows /\
    tnum g = Z.of_nat (length rows) /\
    data (cols g) = transpose (Z.to_nat (snum (hdr g))) rows /\
    length (data (cols g)) = Z.to_nat (snum (hdr g)) /\
    Forall (fun col => length col = length rows) (data (cols g)).
Proof.
  intros H.
  apply gecko_Ok_inv in H as (h & bs & chs & bs' & t & _ & _ & Hl & Hf).
  assert (Hs : 0 <= snum h) by exact (trace_loop_snum h chan _ _ _ _ _ _ Hl eq_refl).
  assert (Hr : rectangular h t).
  { refine (trace_loop_invariant (rectangular h) h chan _ _ _ _ _ _ _ _ Hl _).
    - intros t0 Hp. apply preallocate_inv in Hp as [_ ->]. constructor.
    - intros nn st b r b'. apply channel_record_rectangular.
    - intros t0 E. discriminate. }
  cbn [finalize] in Hf. inversion Hf; subst. clear Hf. cbn [hdr tnum cols data].
  split; [exact Hs|]. exists (data t).
  repeat split; [exact Hr|apply length_transpose|apply transpose_rows].
Qed.

Lemma gecko_data_rectangular_witness :
  exists g,
    gecko two_trace_file 1 = Some (Ok g) /\
    0 <= snum (hdr g) /\
    exists rows : list (list float),
      Forall (fun row => length row = Z.to_nat (snum (hdr g))) rows /\
      tnum g = Z.of_nat (length rows) /\
      data (cols g) = transpose (Z.to_nat (snum (hdr g))) rows /\
      length (data (cols g)) = Z.to_nat (snum (hdr g)) /\
      Forall (fun col => length col = length rows) (data (cols g)).
Proof.
  eexists. split; [vm_compute; reflexivity|].
  apply (gecko_data_rectangular two_trace_file 1). vm_compute. reflexivity.
Defined.

End Invariants.

(** ** Files that end early, and channels the file does not have *)

Section EdgeCases.
Import Rd Bin Gecko Stream Layout.
Local Open Scope list_scope.

Lemma one_short {A} (size : nat) (dec : list Byte.byte -> A) (bs : list Byte.byte) :
  (length bs < size)%nat -> one size dec bs = Raise IndexError.
Proof.
  intros H. unfold one, bind, fromfile. cbn [items].
  replace (length bs <? size)%nat with true by (symmetry; apply Nat.ltb_lt; exact H).
  reflexivity.
Qed.

Lemma one_long {A} (size : nat) (dec : list Byte.byte -> A) (bs : list Byte.byte) :
  (size <= length bs)%nat -> one size dec bs = Ok (dec (firstn size bs), skipn size bs).
Proof.
  intros H. unfold one, bind, fromfile. cbn [items].
  replace (length bs <? size)%nat with false by (symmetry; apply Nat.ltb_ge; exact H).
  cbn [map first ret]. rewrite Nat.mul_1_r. reflexivity.
Qed.

(** One field of a trace header: too few bytes left fail the read, enough
    bytes move the cursor to the next field. *)
Ltac field_step :=
  match goal with
  | |- bind (one ?n ?dec) ?k ?bs = Raise IndexError =>
      let Hs := fresh "Hs" in
      destruct (Nat.lt_ge_cases (length bs) n) as [Hs|Hs];
      [ unfold bind at 1; rewrite (one_short n dec bs Hs); reflexivity
      | unfold bind at 1; rewrite (one_long n dec bs Hs); cbv beta iota;
        let L := fresh "L" in
        pose proof (length_skipn n bs) as L ]
  end.

(** A trace header cut short before its last field fails with the
    [IndexError] of an empty read. *)
Lemma trace_fields_short (h : header) (bs : list Byte.byte) :
  (length bs < fields_width h)%nat -> trace_fields h bs = Raise IndexError.
Proof.
  unfold fields_width, trace_fields. intros H.
  do 4 field_step.
  destruct (lt (Version h) v3_21).
  - rewrite bind_assoc. field_step. rewrite bind_assoc. field_step. rewrite bind_ret.
    do 4 field_step. lia.
  - rewrite bind_ret. do 4 field_step. lia.
Qed.

(** A record cut short before the end of its header. *)
Lemma channel_record_short (h : header) (chan nn : Z) (st : loop_state)
    (tail : list Byte.byte) :
  tail <> [] -> (length tail < 2 + fields_width h)%nat ->
  channel_record h chan nn st tail = Raise IndexError \/
  exists got, got <> nn + 1 /\
              channel_record h chan nn st tail = Raise (TypeErrorCorrupt got (nn + 1)).
Proof.
  intros Hne Hlen.
  destruct tail as [|b0 [|b1 rest]]; [congruence|left; reflexivity|].
  destruct (Z.eqb_spec (Z_of_byte b1) (nn + 1)) as [E|E].
  - left. unfold channel_record.
    unfold bind at 1, fromfile at 1. cbn [Nat.mul Nat.add skipn].
    rewrite bind_one_byte.
    replace (Z_of_byte b1 =? nn + 1) with true by (symmetry; apply Z.eqb_eq; exact E).
    cbn [negb]. unfold bind at 1. rewrite trace_fields_short; [reflexivity|].
    cbn [length] in Hlen. lia.
  - right. exists (Z_of_byte b1). split; [exact E|].
    unfold channel_record.
    unfold bind at 1, fromfile at 1. cbn [Nat.mul Nat.add skipn].
    rewrite bind_one_byte.
    replace (Z_of_byte b1 =? nn + 1) with false by (symmetry; apply Z.eqb_neq; exact E).
    reflexivity.
Qed.

Lemma trace_loop_short (fuel : nat) (h : header) (chan nTrc : Z) (cur : option traces)
    (nd : option (list Z)) (t0 : traces) (tail : list Byte.byte) :
  pass_arrays h (nTrc + 1) cur = Ok t0 -> 1 <= nChannels h ->
  tail <> [] -> (length tail < 2 + fields_width h)%nat ->
  trace_loop (S fuel) h chan nTrc cur nd tail = Some (Raise IndexError) \/
  exists got, got <> 1 /\
              trace_loop (S fuel) h chan nTrc cur nd tail
              = Some (Raise (TypeErrorCorrupt got 1)).
Proof.
  intros Hstart HN Hne Hlen.
  assert (E : forall e,
             channel_record h chan 0 {| tr := t0; newdata := nd |} tail = Raise e ->
             trace_loop (S fuel) h chan nTrc cur nd tail = Some (Raise e)).
  { intros e E. rewrite trace_loop_pass by exact Hne. rewrite Hstart.
    destruct (Z.to_nat (nChannels h)) as [|c] eqn:Ec; [lia|].
    cbn [channel_loop]. unfold bind at 1. rewrite E. reflexivity. }
  destruct (channel_record_short h chan 0 {| tr := t0; newdata := nd |} tail Hne Hlen)
    as [E1|(got & Hg & E1)].
  - left. apply E. exact E1.
  - right. exists got. split; [exact Hg|]. apply E. exact E1.
Qed.

(** X7. Bytes left after the last complete trace that are too few for one
    trace header (2 bytes of record type and channel number, then 42
    bytes of fields, 50 below version 3.21) are not ignored: the decode
    raises, with the [IndexError] of an empty read, or with the
    corrupt-header [TypeError] when the second byte is not 1. *)
Theorem partial_record_raises (file bs bs' : list Byte.byte) (h : header)
    (chs : list channel_header) (chan : Z) (ts : list (list record))
    (tail : list Byte.byte) :
  file_header file = Ok (h, bs) ->
  channel_headers h (Z.to_nat (nChannels h)) 0 bs = Ok (chs, bs') ->
  bs' = encode_traces h ts ++ tail ->
  forallb (data_trace h) ts = true ->
  1 <= nChannels h -> 0 <= snum h ->
  tail <> [] -> (length tail < 2 + fields_width h)%nat ->
  gecko file chan = Some (Raise IndexError) \/
  exists got, got <> 1 /\ gecko file chan = Some (Raise (TypeErrorCorrupt got 1)).
Proof.
  intros Hh Hch -> Hts HN Hs Hne Hlen.
  assert (Hstart : pass_arrays h (0 + 1) None = Ok empty_traces)
    by (apply pass_arrays_first; exact Hs).
  assert (L : trace_loop (length (encode_traces h ts ++ tail)) h chan 0 None None
                (encode_traces h ts ++ tail) = Some (Raise IndexError) \/
              exists got, got <> 1 /\
                trace_loop (length (encode_traces h ts ++ tail)) h chan 0 None None
                  (encode_traces h ts ++ tail) = Some (Raise (TypeErrorCorrupt got 1))).
  { destruct ts as [|t ts].
    - cbn [encode_traces map concat app].
      destruct (length tail) as [|f] eqn:El; [destruct tail; [congruence|discriminate]|].
      apply (trace_loop_short f h chan 0 None None empty_traces tail Hstart HN Hne).
      rewrite El. exact Hlen.
    - pose proof (encode_traces_length h (t :: ts) Hts HN) as Hl. cbn [length] in Hl.
      assert (Hfuel : exists f, length (encode_traces h (t :: ts) ++ tail)
                                = (S (length ts) + S f)%nat).
      { rewrite length_app. destruct tail as [|b tl]; [congruence|]. cbn [length].
        exists (length (encode_traces h (t :: ts)) - S (length ts) + length tl)%nat. lia. }
      destruct Hfuel as (f & ->).
      rewrite (trace_loop_data_traces h chan ts (S f) 0 None None empty_traces t _ Hts HN
                 ltac:(lia) Hstart).
      set (st := store_traces h chan (t :: ts) {| tr := empty_traces; newdata := None |}).
      apply (trace_loop_short f h chan _ (Some (tr st)) (newdata st) (tr st) tail);
        try assumption.
      apply pass_arrays_later. lia. }
  unfold gecko. rewrite Hh, Hch.
  destruct L as [L|(got & Hg & L)]; rewrite L.
  - left. reflexivity.
  - right. exists got. split; [exact Hg|reflexivity].
Qed.

Lemma partial_record_raises_witness :
  gecko (two_trace_file ++ [Byte.x00; Byte.x01; Byte.x07]) 1 = Some (Raise IndexError) \/
  exists got, got <> 1 /\
    gecko (two_trace_file ++ [Byte.x00; Byte.x01; Byte.x07]) 1
    = Some (Raise (TypeErrorCorrupt got 1)).
Proof.
  apply (partial_record_raises (two_trace_file ++ [Byte.x00; Byte.x01; Byte.x07])
           (skipn 101 two_trace_file ++ [Byte.x00; Byte.x01; Byte.x07])
           (encode_traces (h38 1) two_traces ++ [Byte.x00; Byte.x01; Byte.x07])
           (h38 1) [channel1] 1 two_traces [Byte.x00; Byte.x01; Byte.x07]).
  - vm_compute. reflexivity.
  - vm_compute. reflexivity.
  - reflexivity.
  - vm_compute. reflexivity.
  - vm_compute. discriminate.
  - vm_compute. discriminate.
  - discriminate.
  - vm_compute. lia.
Defined.

(** X8. A file that ends right after its channel headers gives no object:
    the trace loop is not entered, [self.data] is never assigned, and the
    transpose that opens the final stage fails on the missing attribute. *)
Theorem empty_body_raises (file bs : list Byte.byte) (h : header)
    (chs : list channel_header) (chan : Z) :
  file_header file = Ok (h, bs) ->
  channel_headers h (Z.to_nat (nChannels h)) 0 bs = Ok (chs, []) ->
  gecko file chan = Some (Raise (AttributeError "data")).
Proof.
  intros Hh Hch. unfold gecko. rewrite Hh, Hch. reflexivity.
Qed.

Lemma empty_body_raises_witness :
  gecko (prefix38 1) 1 = Some (Raise (AttributeError "data")).
Proof.
  apply (empty_body_raises (prefix38 1) (skipn 101 (prefix38 1)) (h38 1) [channel1] 1).
  - vm_compute. reflexivity.
  - vm_compute. reflexivity.
Defined.

End EdgeCases.

(** ** An output channel the file does not have; the time axis *)

Section OtherChannel.
Import Rd Bin Gecko Stream Layout.
Local Open Scope list_scope.

Lemma store_all_outside (h : header) (chan : Z) (t : list record) (st : loop_state) :
  t <> [] -> ~ (1 <= chan <= Z.of_nat (length t)) ->
  tr (store_all h chan 0 t st) = append_scalars (scalars_of h (on_channel 1 t)) (tr st).
Proof.
  intros Hne Hc. destruct t as [|r rs]; [congruence|].
  cbn [length] in Hc. cbn [store_all]. rewrite store_all_later by lia.
  replace ((0 + 1 <? chan) && (chan <=? 0 + 1 + Z.of_nat (length rs))) with false.
  - unfold store, kept, on_channel. cbn [tr Z.add Z.eqb Pos.eqb Z.sub Z.to_nat nth].
    replace (0 + 1 =? chan) with false by (symmetry; apply Z.eqb_neq; lia).
    change (0 + 1 =? 1) with true. cbv iota. reflexivity.
  - symmetry. apply andb_false_iff.
    destruct (Z.ltb_spec (0 + 1) chan); [right; apply Z.leb_gt; lia|left; reflexivity].
Qed.

Lemma store_traces_outside (h : header) (chan : Z) (ts : list (list record)) :
  forall st : loop_state,
    forallb (data_trace h) ts = true -> 1 <= nChannels h ->
    ~ (1 <= chan <= nChannels h) ->
    let t' := tr (store_traces h chan ts st) in
    trace_num t' = trace_num (tr st) ++ injected (fun r => Z2F (r_trace_num r)) ts /\
    decday t' = decday (tr st)
                ++ injected (fun r => PrimFloat.add (f64_of_bits (r_decday r)) epoch_ordinal) ts /\
    trace_int t' = trace_int (tr st) ++ injected (fun r => f32_of_bits (r_trace_int r)) ts /\
    lat t' = lat (tr st) ++ injected (fun r => f64_of_bits (r_lat r)) ts /\
    long t' = long (tr st) ++ injected (fun r => f64_of_bits (r_long r)) ts /\
    elev t' = elev (tr st) ++ injected (fun r => f32_of_bits (r_elev r)) ts /\
    GPSResolution t' = GPSResolution (tr st) ++ injected (fun r => f32_of_bits (r_gps r)) ts /\
    data t' = data (tr st).
Proof.
  induction ts as [|t ts IH]; intros st H HN Hc.
  - cbn. rewrite !app_nil_r. repeat split; reflexivity.
  - cbn [forallb] in H. apply andb_prop in H as [Ht Hts].
    apply data_trace_spec in Ht as [Hlen _].
    cbn [store_traces]. cbv zeta.
    destruct (IH (store_all h chan 0 t st) Hts HN Hc)
      as (E1 & E2 & E3 & E4 & E5 & E6 & E7 & E8).
    rewrite E1, E2, E3, E4, E5, E6, E7, E8.
    rewrite store_all_outside by (try (intros ->; cbn in Hlen); lia).
    unfold injected. cbn [map append_scalars trace_num decday
      trace_int lat long elev GPSResolution data scalars_of s_trace_num s_decday s_trace_int
      s_lat s_long s_elev s_GPSResolution].
    rewrite <- !app_assoc. repeat split; reflexivity.
Qed.

(** X9. Asking for an output channel the file does not have is not an
    error: on a file of complete data traces the decode returns an object
    with no trace in it ([tnum = 0], [snum] empty rows of data), while
    the per-trace arrays, filled from channel 1, hold one entry per trace
    of the file. *)
Theorem absent_channel_gives_no_trace (file bs bs' : list Byte.byte) (h : header)
    (chs : list channel_header) (chan : Z) (ts : list (list record)) :
  file_header file = Ok (h, bs) ->
  channel_headers h (Z.to_nat (nChannels h)) 0 bs = Ok (chs, bs') ->
  bs' = encode_traces h ts ->
  ts <> [] ->
  forallb (data_trace h) ts = true ->
  1 <= nChannels h ->
  ~ (1 <= chan <= nChannels h) ->
  exists obj,
    gecko file chan = Some (Ok obj) /\
    tnum obj = 0 /\
    length (data (cols obj)) = Z.to_nat (snum h) /\
    Forall (fun row => row = []) (data (cols obj)) /\
    trace_num (cols obj) = injected (fun r => Z2F (r_trace_num r)) ts /\
    decday (cols obj)
      = injected (fun r => PrimFloat.add (f64_of_bits (r_decday r)) epoch_ordinal) ts /\
    lat (cols obj) = injected (fun r => f64_of_bits (r_lat r)) ts /\
    long (cols obj) = injected (fun r => f64_of_bits (r_long r)) ts /\
    length (decday (cols obj)) = length ts.
Proof.
  intros Hh Hch -> Hne Hts HN Hc.
  destruct ts as [|t ts]; [congruence|]. clear Hne.
  unfold gecko. rewrite Hh, Hch, (trace_loop_body h chan t ts Hts HN).
  destruct (store_traces_outside h chan (t :: ts)
              {| tr := empty_traces; newdata := None |} Hts HN Hc)
    as (E1 & E2 & E3 & E4 & E5 & E6 & E7 & E8).
  cbn [tr empty_traces trace_num decday trace_int lat long elev GPSResolution data app]
    in E1, E2, E3, E4, E5, E6, E7, E8.
  eexists. split; [reflexivity|].
  cbn [finalize tnum cols data trace_num decday lat long].
  rewrite E8, E1, E2, E4, E5. cbn [length Z.of_nat].
  repeat split.
  - apply length_transpose.
  - unfold transpose. apply List.Forall_forall. intros row Hin.
    apply in_map_iff in Hin as (i & <- & _). reflexivity.
  - unfold injected. apply length_map.
Qed.

Lemma absent_channel_gives_no_trace_witness :
  exists obj,
    gecko two_trace_file 2 = Some (Ok obj) /\
    tnum obj = 0 /\
    length (data (cols obj)) = Z.to_nat (snum (h38 1)) /\
    Forall (fun row => row = []) (data (cols obj)) /\
    trace_num (cols obj) = injected (fun r => Z2F (r_trace_num r)) two_traces /\
    decday (cols obj)
      = injected (fun r => PrimFloat.add (f64_of_bits (r_decday r)) epoch_ordinal)
          two_traces /\
    lat (cols obj) = injected (fun r => f64_of_bits (r_lat r)) two_traces /\
    long (cols obj) = injected (fun r => f64_of_bits (r_long r)) two_traces /\
    length (decday (cols obj)) = length two_traces.
Proof.
  apply (absent_channel_gives_no_trace two_trace_file
           (concat (map (channel_header_bytes 380) (arange 1 2))
            ++ encode_traces (h38 1) two_traces)
           (encode_traces (h38 1) two_traces) (h38 1) [channel1] 2 two_traces).
  - vm_compute; reflexivity.
  - vm_compute; reflexivity.
  - reflexivity.
  - discriminate.
  - vm_compute; reflexivity.
  - vm_compute. discriminate.
  - vm_compute. intros [_ H]. apply H. reflexivity.
Defined.

(** The header fields the time axis is made from. *)
Lemma file_header_snum (file bs : list Byte.byte) (h : header) :
  file_header file = Ok (h, bs) ->
  snum h = wrap 16 (PreTriggerDepth h + PostTriggerDepth h).
Proof.
  unfold file_header. intros H.
  repeat (apply bind_Ok_inv in H as (? & ? & _ & H)).
  cbn [ret] in H. inversion H; subst. reflexivity.
Qed.

Lemma wrap_small (z : Z) : - 32768 <= z < 32768 -> wrap 16 z = z.
Proof.
  intros H. unfold wrap, signed. change (2 ^ 16) with 65536. change (2 ^ (16 - 1)) with 32768.
  destruct (Z.ltb_spec (z mod 65536) 32768) as [E|E].
  - destruct (Z.le_gt_cases 0 z); [apply Z.mod_small; lia|].
    rewrite <- (Z.mod_add z 1 65536) in E by lia.
    rewrite Z.mod_small in E by lia. lia.
  - destruct (Z.le_gt_cases 0 z); [rewrite Z.mod_small in E by lia; lia|].
    rewrite <- (Z.mod_add z 1 65536) by lia. rewrite Z.mod_small by lia. lia.
Qed.

Lemma nth_map_within {A B} (f : A -> B) (l : list A) (i : nat) (d : B) (d' : A) :
  (i < length l)%nat -> nth i (map f l) d = f (nth i l d').
Proof.
  revert i. induction l as [|a l IH]; intros i Hi; [cbn in Hi; lia|].
  destruct i as [|i]; [reflexivity|]. cbn [map nth]. apply IH. cbn in Hi. lia.
Qed.

(** X10. The time axis of a returned object has one entry per sample
    when the two trigger depths are not negative and add up within the
    range of [int16]: [snum] is their sum, [travel_time] has [snum]
    entries, and entry [i] is [(i - PreTriggerDepth) * 1.0 / SampFreq], so
    that the sample at index [PreTriggerDepth] is the one at time zero. *)
Theorem travel_time_per_sample (file : list Byte.byte) (chan : Z) (g : gecko_obj) :
  gecko file chan = Some (Ok g) ->
  0 <= PreTriggerDepth (hdr g) -> 0 <= PostTriggerDepth (hdr g) ->
  PreTriggerDepth (hdr g) + PostTriggerDepth (hdr g) < 32768 ->
  snum (hdr g) = PreTriggerDepth (hdr g) + PostTriggerDepth (hdr g) /\
  length (travel_time g) = Z.to_nat (snum (hdr g)) /\
  forall i : nat,
    (i < Z.to_nat (snum (hdr g)))%nat ->
    nth i (travel_time g) 0%float
    = PrimFloat.div (PrimFloat.mul (Z2F (Z.of_nat i - PreTriggerDepth (hdr g))) 1%float)
        (SampFreq (hdr g)).
Proof.
  intros H.
  apply gecko_Ok_inv in H as (h & bs & chs & bs' & t & Hh & _ & _ & Hf).
  cbn [finalize] in Hf. inversion Hf; subst. clear Hf. cbn [hdr travel_time].
  intros Hpre Hpost Hsum.
  pose proof (file_header_snum _ _ _ Hh) as Hs. rewrite wrap_small in Hs by lia.
  rewrite wrap_small by lia.
  split; [exact Hs|]. split.
  - rewrite length_map, length_arange. f_equal. lia.
  - intros i Hi.
    rewrite (nth_map_within _ _ i 0%float 0) by (rewrite length_arange; lia).
    unfold arange. rewrite (nth_map_within _ _ i 0 0%nat) by (rewrite length_seq; lia).
    rewrite seq_nth by lia. repeat f_equal. lia.
Qed.

Lemma travel_time_per_sample_witness :
  exists g,
    gecko two_trace_file 1 = Some (Ok g) /\
    snum (hdr g) = PreTriggerDepth (hdr g) + PostTriggerDepth (hdr g) /\
    length (travel_time g) = Z.to_nat (snum (hdr g)) /\
    forall i : nat,
      (i < Z.to_nat (snum (hdr g)))%nat ->
      nth i (travel_time g) 0%float
      = PrimFloat.div (PrimFloat.mul (Z2F (Z.of_nat i - PreTriggerDepth (hdr g))) 1%float)
          (SampFreq (hdr g)).
Proof.
  eexists. split; [vm_compute; reflexivity|].
  apply (travel_time_per_sample two_trace_file 1).
  - vm_compute. reflexivity.
  - vm_compute. discriminate.
  - vm_compute. discriminate.
  - vm_compute. reflexivity.
Defined.

End OtherChannel.

(** ** ApresData: what the attribute check reports and what passing it means *)

Section CheckAttrsMore.
Import ApresData.
Local Open Scope list_scope.

Lemma check_guaranteed_app (self : pyobj) (pre post : list string) :
  (forall b, b ∈ pre -> exists v, self !! b = Some v /\ v <> VNone) ->
  check_guaranteed self (pre ++ post) = check_guaranteed self post.
Proof.
  induction pre as [|x pre IH]; intros H; [reflexivity|].
  cbn [app check_guaranteed].
  destruct (H x) as (v & -> & Hv); [left|].
  rewrite IH by (intros b Hb; apply H; right; exact Hb).
  destruct v; congruence.
Qed.

Lemma check_guaranteed_Ok (self : pyobj) (attrs : list string) :
  check_guaranteed self attrs = Ok tt ->
  forall a, a ∈ attrs -> exists v, self !! a = Some v /\ v <> VNone.
Proof.
  induction attrs as [|x attrs IH]; intros H a Ha.
  - apply elem_of_nil in Ha. contradiction.
  - cbn [check_guaranteed] in H.
    destruct (self !! x) as [v|] eqn:Ex; [|discriminate].
    apply elem_of_cons in Ha as [->|Ha].
    + exists v. split; [exact Ex|]. destruct v; discriminate.
    + apply IH; [|exact Ha]. destruct v; try discriminate; exact H.
Qed.

Lemma check_optional_Ok (self : pyobj) (attrs : list string) :
  check_optional self attrs = Ok tt -> forall a, a ∈ attrs -> is_Some (self !! a).
Proof.
  induction attrs as [|x attrs IH]; intros H a Ha.
  - apply elem_of_nil in Ha. contradiction.
  - cbn [check_optional] in H.
    destruct (self !! x) as [v|] eqn:Ex; [|discriminate].
    apply elem_of_cons in Ha as [->|Ha]; [rewrite Ex; eauto|].
    apply IH; assumption.
Qed.

(** X11. [check_attrs] names the first required attribute, in the order
    of [attrs_guaranteed], that is absent or [None]: when every attribute
    listed before [a] is set, an absent [a] is reported as missing and an
    [a] that is [None] as None.  A freshly made [ApresData(None)] is
    therefore rejected on [data]. *)
Theorem check_attrs_names_first_unset (self : pyobj) (pre post : list string) (a : string) :
  attrs_guaranteed = pre ++ a :: post ->
  (forall b, b ∈ pre -> exists v, self !! b = Some v /\ v <> VNone) ->
  (self !! a = None -> check_attrs self = Raise (ImpdarError a IsMissing)) /\
  (self !! a = Some VNone -> check_attrs self = Raise (ImpdarError a IsNone)).
Proof.
  intros Hl Hpre. unfold check_attrs. rewrite Hl, check_guaranteed_app by exact Hpre.
  cbn [check_guaranteed]. split; intros ->; reflexivity.
Qed.

Lemma check_attrs_names_first_unset_witness :
  (init_None !! "data" = None -> check_attrs init_None = Raise (ImpdarError "data" IsMissing)) /\
  (init_None !! "data" = Some VNone -> check_attrs init_None = Raise (ImpdarError "data" IsNone)).
Proof.
  apply (check_attrs_names_first_unset init_None []
           ["decday"; "dt"; "lat"; "long"; "snum"; "tnum"; "trace_num"; "travel_time"] "data").
  - reflexivity.
  - intros b Hb. apply elem_of_nil in Hb. contradiction.
Defined.

(** X12. What a passed check means.  When [check_attrs] returns, every
    required attribute of the instance is set to something other than
    [None] and every optional one is declared; the call has changed no
    attribute but [data_dtype], which is set (and not [None]) afterwards;
    and checking the instance again returns it unchanged. *)
Theorem check_attrs_passed (self self' : pyobj) :
  check_attrs self = Ok self' ->
  (forall a, a ∈ attrs_guaranteed -> exists v, self !! a = Some v /\ v <> VNone) /\
  (forall a, a ∈ attrs_optional -> is_Some (self !! a)) /\
  (forall a, a <> "data_dtype" -> self' !! a = self !! a) /\
  (exists v, self' !! "data_dtype" = Some v /\ v <> VNone) /\
  check_attrs self' = Ok self'.
Proof.
  intros H. unfold check_attrs in H.
  destruct (check_guaranteed self attrs_guaranteed) as [[]|e] eqn:Eg; [|discriminate].
  destruct (check_optional self attrs_optional) as [[]|e] eqn:Eo; [|discriminate].
  pose proof (check_guaranteed_Ok _ _ Eg) as Hg.
  pose proof (check_optional_Ok _ _ Eo) as Ho.
  split; [exact Hg|]. split; [exact Ho|].
  (* the dtype was there: nothing is assigned *)
  assert (Hsame : forall v, self !! "data_dtype" = Some v -> v <> VNone -> self' = self ->
            (forall a, a <> "data_dtype" -> self' !! a = self !! a) /\
            (exists v, self' !! "data_dtype" = Some v /\ v <> VNone) /\
            check_attrs self' = Ok self').
  { intros v Hv Hn ->. split; [reflexivity|]. split; [eauto|].
    unfold check_attrs. rewrite Eg, Eo, Hv. destruct v; congruence. }
  (* the dtype was unset: it is taken from the data *)
  assert (Hfill : forall d, self' = <["data_dtype" := VDtype d]> self ->
            (forall a, a <> "data_dtype" -> self' !! a = self !! a) /\
            (exists v, self' !! "data_dtype" = Some v /\ v <> VNone) /\
            check_attrs self' = Ok self').
  { intros d ->.
    split; [intros a Ha; apply lookup_insert_ne; congruence|].
    split; [exists (VDtype d); split; [apply lookup_insert_eq|discriminate]|].
    unfold check_attrs.
    rewrite check_guaranteed_passes, check_optional_passes, lookup_insert_eq; [reflexivity| |].
    - intros a Ha. destruct (Ho a Ha) as (v & Hv).
      destruct (decide (a = "data_dtype")) as [->|Hne].
      + rewrite lookup_insert_eq. eauto.
      + rewrite lookup_insert_ne by congruence. eauto.
    - intros a Ha. destruct (Hg a Ha) as (v & Hv & Hn).
      destruct (decide (a = "data_dtype")) as [->|Hne].
      + rewrite lookup_insert_eq. eexists. split; [reflexivity|discriminate].
      + rewrite lookup_insert_ne by congruence. eauto. }
  destruct (self !! "data_dtype") as [v|] eqn:Ed.
  - destruct v;
      try (apply (Hsame _ eq_refl); [discriminate|congruence]).
    destruct (self !! "data") as [data|]; [|discriminate].
    destruct data; try discriminate. cbn [dtype_of] in H. apply (Hfill d). congruence.
  - destruct (self !! "data") as [data|]; [|discriminate].
    destruct data; try discriminate. cbn [dtype_of] in H. apply (Hfill d). congruence.
Qed.

Lemma check_attrs_passed_witness :
  exists self',
    check_attrs populated_model = Ok self' /\
    (forall a, a ∈ attrs_guaranteed -> exists v, populated_model !! a = Some v /\ v <> VNone) /\
    (forall a, a ∈ attrs_optional -> is_Some (populated_model !! a)) /\
    (forall a, a <> "data_dtype" -> self' !! a = populated_model !! a) /\
    (exists v, self' !! "data_dtype" = Some v /\ v <> VNone) /\
    check_attrs self' = Ok self'.
Proof.
  eexists. split; [reflexivity|].
  apply (check_attrs_passed populated_model). reflexivity.
Defined.

End CheckAttrsMore.

(** ** ApresHeader: the no-dwell flags of register 01 *)

Section NoDwellBits.
Import Obj ApresHeader PyStr Bits.

Lemma rev_onto_bin_pos (p : positive) :
  forall acc a : string, rev_onto (bin_pos p acc) a = rev_onto acc (lsb p ++ a).
Proof.
  induction p as [q IH|q IH|]; intros acc a; cbn [bin_pos lsb].
  - rewrite IH. reflexivity.
  - rewrite IH. reflexivity.
  - reflexivity.
Qed.

(** [bin(x)[::-1]] for a positive [x]: the bits from the least significant
    one, then the reversed prefix. *)
Lemma reverse_bin_pos (p : positive) : reverse (bin (Z.pos p)) = (lsb p ++ "b0")%string.
Proof.
  unfold reverse.
  change (bin (Z.pos p)) with (String "0" (String "b" (bin_pos p EmptyString))).
  cbn [rev_onto]. rewrite rev_onto_bin_pos. reflexivity.
Qed.

Lemma lsb_upper (p : positive) : Z.pos p < 2 ^ Z.of_nat (String.length (lsb p)).
Proof.
  induction p as [q IH|q IH|]; cbn [lsb String.length];
    rewrite ?Nat2Z.inj_succ, ?Z.pow_succ_r by lia; lia.
Qed.

Lemma lsb_lower (p : positive) : 2 ^ Z.of_nat (String.length (lsb p)) <= 2 * Z.pos p.
Proof.
  induction p as [q IH|q IH|]; cbn [lsb String.length];
    rewrite ?Nat2Z.inj_succ, ?Z.pow_succ_r by lia; lia.
Qed.

Lemma get_lsb (p : positive) :
  forall n : nat,
    (n < String.length (lsb p))%nat ->
    String.get n (lsb p) = Some (digit (Z.testbit (Z.pos p) (Z.of_nat n))).
Proof.
  induction p as [q IH|q IH|]; intros n Hn; cbn [lsb String.length] in *.
  - destruct n as [|n]; [reflexivity|].
    cbn [String.get]. rewrite IH by lia. rewrite Nat2Z.inj_succ.
    change (Z.pos q~1) with (2 * Z.pos q + 1).
    rewrite Z.testbit_odd_succ by lia. reflexivity.
  - destruct n as [|n]; [reflexivity|].
    cbn [String.get]. rewrite IH by lia. rewrite Nat2Z.inj_succ.
    change (Z.pos q~0) with (2 * Z.pos q).
    rewrite Z.testbit_even_succ by lia. reflexivity.
  - destruct n as [|n]; [reflexivity|lia].
Qed.

Lemma length_append (s t : string) :
  String.length (s ++ t) = (String.length s + String.length t)%nat.
Proof.
  induction s as [|c s IH]; [reflexivity|].
  change (String.length (String c s ++ t)) with (S (String.length (s ++ t))).
  rewrite IH. reflexivity.
Qed.

Lemma get_append_l (s t : string) (n : nat) :
  (n < String.length s)%nat -> String.get n (s ++ t) = String.get n s.
Proof. intros H. symmetry. apply append_correct1. exact H. Qed.

Lemma get_append_r (s t : string) (n : nat) :
  String.get (n + String.length s) (s ++ t) = String.get n t.
Proof. symmetry. apply append_correct2. Qed.

(** A character of [bin(x)[::-1]] below the length of [x] is its bit. *)
Lemma index_bit (p : positive) (i : Z) :
  0 <= i -> 2 ^ i <= Z.pos p ->
  index (reverse (bin (Z.pos p))) i = Ok (digit (Z.testbit (Z.pos p) i)).
Proof.
  intros Hi Hp. rewrite reverse_bin_pos.
  assert (Hlen : (Z.to_nat i < String.length (lsb p))%nat).
  { pose proof (lsb_upper p) as Hu.
    assert (2 ^ i < 2 ^ Z.of_nat (String.length (lsb p))) as Hlt by lia.
    apply Z.pow_lt_mono_r_iff in Hlt; lia. }
  unfold index, len. rewrite length_append.
  replace (i <? 0) with false by (symmetry; apply Z.ltb_ge; lia).
  replace (i <? 0) with false by (symmetry; apply Z.ltb_ge; lia).
  replace (Z.of_nat (String.length (lsb p) + String.length "b0") <=? i) with false
    by (symmetry; apply Z.leb_gt; lia).
  cbn [orb]. rewrite get_append_l, get_lsb by exact Hlen.
  rewrite Z2Nat.id by lia. reflexivity.
Qed.

Lemma int_of_digit (b : bool) (s : pyobj) :
  int_of_char (digit b) s = (Ok (Z.b2z b), s).
Proof. destruct b; reflexivity. Qed.

Lemma bind_lift_Ok {A B} (a : A) (k : A -> M B) (s : pyobj) :
  bind (lift (Ok a)) k s = k a s.
Proof. reflexivity. Qed.

Lemma bind_lift_Raise {A B} (e : exn) (k : A -> M B) (s : pyobj) :
  bind (lift (Raise e)) k s = (Raise e, s).
Proof. reflexivity. Qed.

Lemma bind_setattr {B} (n : string) (v : pyval) (k : unit -> M B) (s : pyobj) :
  bind (setattr n v) k s = k tt (<[n := v]> s).
Proof. reflexivity. Qed.

Lemma bind_int_of_digit {B} (b : bool) (k : Z -> M B) (s : pyobj) :
  bind (int_of_char (digit b)) k s = k (Z.b2z b) s.
Proof. destruct b; reflexivity. Qed.

(** The look-ups of the two flags in the reversed text of a number below
    2^18: the text is too short, or holds the reversed prefix there. *)
Lemma short_reverse_bin (x : Z) :
  0 <= x < 2 ^ 18 ->
  index (reverse (bin x)) 18 = Raise IndexError \/
  index (reverse (bin x)) 18 = Ok "b"%char \/
  (index (reverse (bin x)) 18 = Ok "0"%char /\ index (reverse (bin x)) 17 = Ok "b"%char).
Proof.
  intros Hx. destruct x as [|p|p]; [left; reflexivity| |lia].
  rewrite reverse_bin_pos.
  pose proof (lsb_lower p) as Hl.
  assert (HL : (String.length (lsb p) <= 18)%nat).
  { assert (2 ^ Z.of_nat (String.length (lsb p)) < 2 ^ 19) as Hlt by lia.
    apply Z.pow_lt_mono_r_iff in Hlt; lia. }
  assert (G : forall n, String.get (n + String.length (lsb p)) (lsb p ++ "b0")
                        = String.get n "b0") by (intros n; apply get_append_r).
  unfold index, len. rewrite length_append. cbn [Z.ltb Z.compare orb].
  change (String.length "b0") with 2%nat.
  destruct (Nat.eq_dec (String.length (lsb p)) 18%nat) as [E|E].
  - right. left. specialize (G 0%nat). rewrite E in *.
    change (Z.to_nat 18) with (0 + 18)%nat. rewrite G. reflexivity.
  - destruct (Nat.eq_dec (String.length (lsb p)) 17%nat) as [E'|E'].
    + right. right. pose proof (G 0%nat) as G0. specialize (G 1%nat). rewrite E' in *.
      change (Z.to_nat 18) with (1 + 17)%nat. change (Z.to_nat 17) with (0 + 17)%nat.
      rewrite G, G0. split; reflexivity.
    + left.
      replace (Z.of_nat (String.length (lsb p) + 2) <=? 18) with true
        by (symmetry; apply Z.leb_le; lia).
      reflexivity.
Qed.

(** X13. The two no-dwell flags read from register 01 are bits 18 and 17
    of its value, as the comment in the source says, whenever the value
    is at least 2^18; the flags are looked up in the reversed text of
    [bin(value)], so a smaller value (not negative) makes the decode
    raise, on an index out of range or on the reversed [0b] prefix. *)
Theorem register01_flags_are_bits (header : string) (l1 l2 x : Z) (s : pyobj) :
  PyStr.slice header l1 l2 = "Reg01" ->
  PyStr.int_of 16 (payload header l2) = Ok x ->
  (2 ^ 18 <= x ->
   register_case header l1 l2 s
   = (Ok tt, <["noDwellLow" := VInt (Z.b2z (Z.testbit x 17))]>
               (<["noDwellHigh" := VInt (Z.b2z (Z.testbit x 18))]> s))) /\
  (0 <= x < 2 ^ 18 ->
   exists e, outcome (register_case header l1 l2 s) = Raise e /\
             (e = ValueError \/ e = IndexError)).
Proof.
  intros Hcase Hx.
  assert (Hrun : register_case header l1 l2 s
                 = (c18 <- lift (index (reverse (bin x)) 18) ;;
                    hi <- int_of_char c18 ;;
                    setattr "noDwellHigh" (VInt hi) ;;
                    c17 <- lift (index (reverse (bin x)) 17) ;;
                    lo <- int_of_char c17 ;;
                    setattr "noDwellLow" (VInt lo))%obj s).
  { unfold register_case. rewrite Hcase.
    change (String.eqb "Reg01" "Reg01") with true. cbv iota.
    rewrite Hx, bind_lift_Ok. reflexivity. }
  rewrite Hrun. clear Hrun. split.
  - intros Hbig. destruct x as [|p|p]; try lia.
    rewrite !index_bit by lia.
    rewrite bind_lift_Ok, bind_int_of_digit, bind_setattr.
    rewrite bind_lift_Ok, bind_int_of_digit. reflexivity.
  - intros Hsmall.
    destruct (short_reverse_bin x Hsmall) as [E|[E|[E E']]]; rewrite E.
    + exists IndexError. split; [reflexivity|auto].
    + exists ValueError. split; [reflexivity|auto].
    + rewrite E'. exists ValueError. split; [reflexivity|auto].
Qed.

Lemma register01_flags_are_bits_witness :
  (2 ^ 18 <= 786432 ->
   register_case (reg "Reg01" "000C0000") 0 5 init
   = (Ok tt, <["noDwellLow" := VInt (Z.b2z (Z.testbit 786432 17))]>
               (<["noDwellHigh" := VInt (Z.b2z (Z.testbit 786432 18))]> init))) /\
  (0 <= 786432 < 2 ^ 18 ->
   exists e, outcome (register_case (reg "Reg01" "000C0000") 0 5 init) = Raise e /\
             (e = ValueError \/ e = IndexError)).
Proof.
  apply (register01_flags_are_bits (reg "Reg01" "000C0000") 0 5 786432 init).
  - vm_compute. reflexivity.
  - vm_compute. reflexivity.
Defined.

End NoDwellBits.

(** ** ApresHeader: what the calls leave alone, and where they stop *)

Section HeaderFrame.
Import Obj ApresHeader HeaderKeys.

Ltac unfold_ops :=
  unfold scaled_by_clock, scaled_time, int_times, int_over, int_of_char,
    get_float, get_int, get_str, list_index, times_float.

Lemma register_case_frame (header : string) (l1 l2 : Z) :
  touches (register_case header l1 l2) assigned.
Proof.
  unfold register_case, assigned.
  repeat match goal with |- touches (if ?b then _ else _) _ => destruct b end;
    unfold_ops; touches_keys.
Qed.

Lemma register_loop_frame (header : string) (loc1 loc2 : list Z) :
  forall k, touches (register_loop header loc1 loc2 k) assigned.
Proof.
  induction loc1 as [|l1 loc1 IH]; intros k; cbn [register_loop]; [apply touches_ret|].
  apply touches_bind; [unfold list_index; destruct (nth_error loc2 k); touches_keys|].
  intros l2. apply touches_bind; [apply register_case_frame|intros _; apply IH].
Qed.

Lemma update_parameters_touches (cell0 cell1 : string) :
  touches (update_parameters cell0 cell1) assigned.
Proof.
  unfold update_parameters.
  apply touches_bind; [unfold get_str; touches_keys|intros header].
  apply touches_bind; [apply register_loop_frame|intros _].
  apply touches_bind; [apply stage_touches; unfold assigned; isin|intros _].
  unfold derive.
  repeat (apply touches_bind; [apply stage_touches; unfold assigned; isin|intros _]).
  unfold apply_no_dwell, both_no_dwell, assigned. unfold_ops. touches_keys.
Qed.

(** X14. [update_parameters] assigns no attribute outside the sixteen it
    computes, whether it returns or raises: the header text, the system
    clock and anything else on the object are as they were. *)
Theorem update_parameters_frame (cell0 cell1 : string) (s : pyobj) (k : string) :
  k ∉ assigned ->
  final (update_parameters cell0 cell1 s) !! k = s !! k.
Proof.
  intros Hk. unfold final.
  destruct (update_parameters cell0 cell1 s) as [r s'] eqn:E. cbn [snd].
  exact (update_parameters_touches cell0 cell1 s r s' E k Hk).
Qed.

Lemma update_parameters_frame_witness :
  final (update_parameters "0.0" "0.0" (with_header (example_header "00080000" "1" "40000")))
    !! "header"
  = with_header (example_header "00080000" "1" "40000") !! "header".
Proof.
  apply (update_parameters_frame "0.0" "0.0"
           (with_header (example_header "00080000" "1" "40000")) "header").
  unfold assigned. notin.
Defined.

(** A register name without a delimiter of its own stops the loop. *)
Lemma register_loop_unpaired (header : string) (loc1 loc2 : list Z) :
  forall (k : nat) (s : pyobj),
    (k <= length loc2 < k + length loc1)%nat ->
    exists e s', register_loop header loc1 loc2 k s = (Raise e, s').
Proof.
  induction loc1 as [|l1 loc1 IH]; intros k s Hlen; [cbn [length] in Hlen; lia|].
  cbn [register_loop length] in *. unfold bind at 1, list_index.
  destruct (nth_error loc2 k) as [l2|] eqn:E.
  - cbn [ret]. unfold bind at 1.
    destruct (register_case header l1 l2 s) as [[[]|e] s1]; [|eauto].
    apply IH. assert (k < length loc2)%nat by (apply nth_error_Some; congruence). lia.
  - cbn [raise]. eauto.
Qed.

Lemma register_loop_registers (header : string) (loc1 loc2 : list Z) :
  forall k, touches (register_loop header loc1 loc2 k) registers.
Proof.
  induction loc1 as [|l1 loc1 IH]; intros k; cbn [register_loop]; [apply touches_ret|].
  apply touches_bind; [unfold list_index; destruct (nth_error loc2 k); touches_keys|].
  intros l2. apply touches_bind; [|intros _; apply IH].
  unfold register_case, registers.
  repeat match goal with |- touches (if ?b then _ else _) _ => destruct b end;
    unfold_ops; touches_keys.
Qed.

(** X15. The register loop walks the occurrences of [Reg0] and indexes
    the occurrences of the delimiter [eq_dq] by the same counter.  A header
    with more register names than delimiters (a register written without
    quotes) therefore never decodes: the call raises inside the loop, on
    the index that runs past the delimiters if not earlier, and neither
    the sampling rate nor any derived parameter has been assigned. *)
Theorem unpaired_register_raises (cell0 cell1 header : string) (s : pyobj) :
  s !! "header" = Some (VStr header) ->
  (length (PyStr.finditer eq_dq header) < length (PyStr.finditer "Reg0" header))%nat ->
  exists e,
    outcome (update_parameters cell0 cell1 s) = Raise e /\
    forall k, k ∉ registers -> final (update_parameters cell0 cell1 s) !! k = s !! k.
Proof.
  intros Hh Hlen.
  destruct (register_loop_unpaired header (PyStr.finditer "Reg0" header)
              (PyStr.finditer eq_dq header) 0 s ltac:(lia)) as (e & s' & E).
  assert (Hrun : update_parameters cell0 cell1 s = (Raise e, s')).
  { unfold update_parameters. unfold bind at 1, get_str, bind at 1, getattr.
    rewrite Hh. cbn [ret]. unfold bind at 1. rewrite E. reflexivity. }
  exists e. rewrite Hrun. split; [reflexivity|].
  intros k Hk. exact (register_loop_registers header _ _ 0 s _ s' E k Hk).
Qed.

Lemma unpaired_register_raises_witness :
  exists e,
    outcome (update_parameters "0.0" "0.0" (with_header "b'Reg0B=66666666\r\n'")) = Raise e /\
    forall k, k ∉ registers ->
      final (update_parameters "0.0" "0.0" (with_header "b'Reg0B=66666666\r\n'")) !! k
      = with_header "b'Reg0B=66666666\r\n'" !! k.
Proof.
  apply (unpaired_register_raises "0.0" "0.0" "b'Reg0B=66666666\r\n'").
  - reflexivity.
  - vm_compute. lia.
Defined.

Lemma bind_get_float {B} (n : string) (f : float) (k : float -> M B) (s : pyobj) :
  s !! n = Some (VFloat f) -> bind (get_float n) k s = k f s.
Proof.
  intros H. unfold get_float, bind at 1, bind at 1, getattr. rewrite H. reflexivity.
Qed.

(** X16. A ramp increment of zero (the low word of register 0C) stops
    the decode on the first division: once the sample count is stored,
    the step count raises [ZeroDivisionError], and no derived parameter
    is assigned. *)
Theorem zero_ramp_step_raises (out1 : string) (n : Z) (a b z : float) (s : pyobj) :
  PyStr.int_of 10 out1 = Ok n ->
  s !! "stopFreq" = Some (VFloat a) ->
  s !! "startFreq" = Some (VFloat b) ->
  s !! "rampUpStep" = Some (VFloat z) ->
  PrimFloat.eqb z 0%float = true ->
  derive out1 s = (Raise ZeroDivisionError, <["snum" := VInt n]> s).
Proof.
  intros Hn Ha Hb Hz Hzero. unfold derive, set_snum.
  unfold bind at 1. unfold bind at 1. rewrite Hn. cbn [lift]. unfold setattr at 1.
  unfold set_nstepsDDS. unfold bind at 1.
  rewrite !bind_get_float with (f := a) by (rewrite lookup_insert_ne by discriminate; exact Ha).
  rewrite !bind_get_float with (f := b) by (rewrite lookup_insert_ne by discriminate; exact Hb).
  rewrite !bind_get_float with (f := z) by (rewrite lookup_insert_ne by discriminate; exact Hz).
  unfold PyNum.fdiv. rewrite Hzero. reflexivity.
Qed.

Lemma zero_ramp_step_raises_witness :
  derive "40000" (<["rampUpStep" := VFloat 0]> (<["startFreq" := VFloat 2e8]>
                   (<["stopFreq" := VFloat 4e8]> init)))
  = (Raise ZeroDivisionError,
     <["snum" := VInt 40000]> (<["rampUpStep" := VFloat 0]> (<["startFreq" := VFloat 2e8]>
                                (<["stopFreq" := VFloat 4e8]> init)))).
Proof.
  apply (zero_ramp_step_raises "40000" 40000 4e8 2e8 0).
  - reflexivity.
  - reflexivity.
  - reflexivity.
  - reflexivity.
  - reflexivity.
Defined.

(** X17. [file_format] never raises once the header text is read, and
    stores its answer under two names: 5 goes to [fileformat] whenever
    [SW_Issue=] is in the header (whatever older keywords are there too),
    and leaves [file_format] alone; 4, 3 or 2 goes to [file_format], by
    the first of the three older keywords found, and leaves [fileformat]
    alone.  So [file_format] never holds 5. *)
Theorem file_format_two_names (s : pyobj) (header : string) :
  s !! "header" = Some (VStr header) ->
  exists s',
    file_format s = (Ok tt, s') /\
    (forall k, k <> "fileformat" -> k <> "file_format" -> s' !! k = s !! k) /\
    (if PyStr.contains "SW_Issue=" header
     then s' !! "fileformat" = Some (VInt 5) /\ s' !! "file_format" = s !! "file_format"
     else s' !! "fileformat" = s !! "fileformat" /\
          s' !! "file_format"
          = (if PyStr.contains "SubBursts in burst:" header then Some (VInt 4)
             else if PyStr.contains "*** Burst Header ***" header then Some (VInt 3)
             else if PyStr.contains "RADAR TIME" header then Some (VInt 2)
             else s !! "file_format")).
Proof.
  intros Hh. unfold file_format, bind, get_str, bind, getattr. rewrite Hh. cbn [ret].
  destruct (PyStr.contains "SW_Issue=" header).
  { eexists. split; [reflexivity|]. split.
    - intros k H1 H2. apply lookup_insert_ne. congruence.
    - split; [apply lookup_insert_eq|apply lookup_insert_ne; discriminate]. }
  destruct (PyStr.contains "SubBursts in burst:" header).
  { eexists. split; [reflexivity|]. split.
    - intros k H1 H2. apply lookup_insert_ne. congruence.
    - split; [apply lookup_insert_ne; discriminate|apply lookup_insert_eq]. }
  destruct (PyStr.contains "*** Burst Header ***" header).
  { eexists. split; [reflexivity|]. split.
    - intros k H1 H2. apply lookup_insert_ne. congruence.
    - split; [apply lookup_insert_ne; discriminate|apply lookup_insert_eq]. }
  destruct (PyStr.contains "RADAR TIME" header).
  { eexists. split; [reflexivity|]. split.
    - intros k H1 H2. apply lookup_insert_ne. congruence.
    - split; [apply lookup_insert_ne; discriminate|apply lookup_insert_eq]. }
  eexists. split; [reflexivity|]. split; [reflexivity|]. split; reflexivity.
Qed.

Lemma file_format_two_names_witness :
  exists s',
    file_format (with_header "b'RADAR TIME SW_Issue=1'") = (Ok tt, s') /\
    (forall k, k <> "fileformat" -> k <> "file_format" ->
               s' !! k = with_header "b'RADAR TIME SW_Issue=1'" !! k) /\
    (if PyStr.contains "SW_Issue=" "b'RADAR TIME SW_Issue=1'"
     then s' !! "fileformat" = Some (VInt 5) /\
          s' !! "file_format" = with_header "b'RADAR TIME SW_Issue=1'" !! "file_format"
     else s' !! "fileformat" = with_header "b'RADAR TIME SW_Issue=1'" !! "fileformat" /\
          s' !! "file_format"
          = (if PyStr.contains "SubBursts in burst:" "b'RADAR TIME SW_Issue=1'"
             then Some (VInt 4)
             else if PyStr.contains "*** Burst Header ***" "b'RADAR TIME SW_Issue=1'"
             then Some (VInt 3)
             else if PyStr.contains "RADAR TIME" "b'RADAR TIME SW_Issue=1'"
             then Some (VInt 2)
             else with_header "b'RADAR TIME SW_Issue=1'" !! "file_format")).
Proof.
  apply (file_format_two_names (with_header "b'RADAR TIME SW_Issue=1'")
           "b'RADAR TIME SW_Issue=1'").
  reflexivity.
Defined.

End HeaderFrame.

(** ** ApresHeader: the header text as [read_header] stores it *)

Section HeaderText.
Import Obj ApresHeader PyStr PyBytes ApresRead.

Lemma all_app (f : ascii -> bool) (s t : string) :
  all f (s ++ t) = all f s && all f t.
Proof.
  induction s as [|c s IH]; [reflexivity|].
  change (all f (String c s ++ t)) with (f c && all f (s ++ t)).
  rewrite IH. cbn [all]. apply andb_assoc.
Qed.

Lemma escape_printable (q : ascii) (b : Byte.byte) :
  q = "'"%char \/ q = "034"%char -> all printable (escape q b) = true.
Proof. intros [->| ->]; destruct b; vm_compute; reflexivity. Qed.

Lemma render_printable (q : ascii) (bs : list Byte.byte) :
  q = "'"%char \/ q = "034"%char -> all printable (render q bs) = true.
Proof.
  intros Hq. induction bs as [|b bs IH]; [reflexivity|].
  cbn [render]. rewrite all_app, escape_printable, IH by exact Hq. reflexivity.
Qed.

Lemma quote_of_cases (bs : list Byte.byte) :
  quote_of bs = "'"%char \/ quote_of bs = "034"%char.
Proof. unfold quote_of. destruct (_ && _); auto. Qed.

Lemma repr_printable (bs : list Byte.byte) :
  all printable (repr bs) = true /\ PyStr.starts_with "b" (repr bs) = true.
Proof.
  split; [|reflexivity].
  unfold repr. cbn [all].
  destruct (quote_of_cases bs) as [E|E];
    rewrite all_app, render_printable, E by (rewrite ?E; auto); reflexivity.
Qed.

(** X18. [read_header] returns for every [max_header_len] from [-1] to the
    default 2000, whatever bytes the file holds, and raises [ValueError]
    for a length below [-1] (down to [-2^63]), leaving the object as it
    was.  Whenever it returns, for any length, the only attribute it has
    assigned is [header], and the text stored there is printable ASCII
    that starts with [b]: [str] writes a line end, a tab, a backslash or
    any byte outside the printable range as an escape.  The text
    therefore never holds a carriage return or a line feed, which is why
    [update_parameters] ends a token at the first backslash. *)
Theorem header_text_printable (file : list Byte.byte) (max_header_len : Z) (s : pyobj) :
  (-1 <= max_header_len <= default_len ->
   outcome (read_header file max_header_len s) = Ok tt) /\
  (- 2 ^ 63 <= max_header_len < -1 ->
   read_header file max_header_len s = (Raise ValueError, s)) /\
  (outcome (read_header file max_header_len s) = Ok tt ->
   -1 <= max_header_len /\
   exists header,
     read_header file max_header_len s = (Ok tt, <["header" := VStr header]> s) /\
     all printable header = true /\
     PyStr.starts_with "b" header = true).
Proof.
  unfold read_header, read, default_len.
  split; [|split].
  - intros H.
    replace ((max_header_len <? - 2 ^ 63) || (2 ^ 63 - 33 <=? max_header_len)) with false
      by (symmetry; apply orb_false_intro; [apply Z.ltb_ge|apply Z.leb_gt]; lia).
    replace (max_header_len <? -1) with false by (symmetry; apply Z.ltb_ge; lia).
    destruct (max_header_len =? -1); reflexivity.
  - intros H.
    replace ((max_header_len <? - 2 ^ 63) || (2 ^ 63 - 33 <=? max_header_len)) with false
      by (symmetry; apply orb_false_intro; [apply Z.ltb_ge|apply Z.leb_gt]; lia).
    replace (max_header_len <? -1) with true by (symmetry; apply Z.ltb_lt; lia).
    reflexivity.
  - destruct ((max_header_len <? - 2 ^ 63) || (2 ^ 63 - 33 <=? max_header_len));
      [discriminate|].
    destruct (max_header_len <? -1) eqn:E; [discriminate|].
    apply Z.ltb_ge in E. intros _. split; [exact E|].
    destruct (max_header_len =? -1);
      (eexists; split; [reflexivity|apply repr_printable]).
Qed.

Lemma header_text_printable_witness :
  outcome (read_header (example_file "00080000" "1" "40000") 2000 init) = Ok tt /\
  read_header (example_file "00080000" "1" "40000") (-2) init = (Raise ValueError, init) /\
  exists header,
    read_header (example_file "00080000" "1" "40000") 2000 init
    = (Ok tt, <["header" := VStr header]> init) /\
    all printable header = true /\
    PyStr.starts_with "b" header = true.
Proof.
  split; [|split].
  - apply (header_text_printable (example_file "00080000" "1" "40000") 2000 init).
    vm_compute. split; discriminate.
  - apply (header_text_printable (example_file "00080000" "1" "40000") (-2) init).
    vm_compute. split; [discriminate|reflexivity].
  - apply (header_text_printable (example_file "00080000" "1" "40000") 2000 init).
    vm_compute. reflexivity.
Defined.

Lemma app_assoc_string (a b c : string) : ((a ++ b) ++ c = a ++ (b ++ c))%string.
Proof.
  induction a as [|x a IH]; [reflexivity|].
  change (String x ((a ++ b) ++ c) = String x (a ++ (b ++ c)))%string. rewrite IH. reflexivity.
Qed.

Lemma render_app (q : ascii) (a b : list Byte.byte) :
  render q (a ++ b)%list = (render q a ++ render q b)%string.
Proof.
  induction a as [|x a IH]; [reflexivity|].
  cbn [render app]. rewrite IH, app_assoc_string. reflexivity.
Qed.

Lemma escape_plain (q c : ascii) :
  q = "'"%char \/ q = "034"%char -> plain c = true ->
  escape q (byte_of_ascii c) = String c EmptyString.
Proof.
  intros [->| ->] H; destruct c as [[] [] [] [] [] [] [] []];
    vm_compute in H; try discriminate H; vm_compute; reflexivity.
Qed.

Lemma render_plain (q : ascii) (t : string) :
  q = "'"%char \/ q = "034"%char -> all plain t = true ->
  render q (list_byte_of_string t) = t.
Proof.
  intros Hq. induction t as [|c t IH]; intros H; [reflexivity|].
  cbn [all] in H. apply andb_prop in H as [Hc Ht].
  change (list_byte_of_string (String c t)) with (byte_of_ascii c :: list_byte_of_string t).
  cbn [render]. rewrite escape_plain, IH by assumption. reflexivity.
Qed.

(** An occurrence of [p] that starts before an occurrence whose first
    character is met nowhere else in [p] ends before it. *)
Lemma starts_with_before (c : ascii) (p q t : string) :
  all (fun d => negb (Ascii.eqb c d)) p = true ->
  starts_with p (q ++ String c t) = true -> starts_with p q = true.
Proof.
  revert q. induction p as [|y p IH]; intros q Hp H; [reflexivity|].
  cbn [all] in Hp. apply andb_prop in Hp as [Hy Hp].
  destruct q as [|z q].
  - change (EmptyString ++ String c t)%string with (String c t) in H.
    cbn [starts_with] in H. rewrite Ascii.eqb_sym in H.
    destruct (Ascii.eqb c y); [discriminate Hy|discriminate H].
  - change (String z q ++ String c t)%string with (String z (q ++ String c t)) in H.
    cbn [starts_with] in H |- *.
    destruct (Ascii.eqb y z); [|discriminate H]. apply (IH q Hp H).
Qed.

Lemma find_at_first (p a r : string) :
  fresh_head p = true -> contains p a = false ->
  forall i, find_at p i (a ++ p ++ r) = i + len a.
Proof.
  intros Hp. destruct p as [|c p]; [discriminate Hp|]. cbn [fresh_head] in Hp.
  induction a as [|x a IH]; intros Ha i.
  - change (EmptyString ++ String c p ++ r)%string with (String c p ++ r)%string.
    assert (E : starts_with (String c p) (String c p ++ r) = true) by apply starts_with_app.
    change (String c p ++ r)%string with (String c (p ++ r)) in *.
    cbn [find_at]. rewrite E. unfold len. cbn. lia.
  - assert (Hx : starts_with (String c p) (String x a) = false /\
                 contains (String c p) a = false).
    { cbn [contains] in Ha. destruct (starts_with (String c p) (String x a)); [discriminate|].
      auto. }
    destruct Hx as [Hx Ha'].
    change (String x a ++ String c p ++ r)%string
      with (String x (a ++ String c (p ++ r))).
    assert (E : starts_with (String c p) (String x (a ++ String c (p ++ r))) = false).
    { destruct (starts_with (String c p) (String x (a ++ String c (p ++ r)))) eqn:E;
        [|reflexivity].
      cbn [starts_with] in E, Hx.
      destruct (Ascii.eqb c x); [|discriminate E].
      rewrite (starts_with_before c p a (p ++ r) Hp E) in Hx. discriminate Hx. }
    cbn [find_at]. rewrite E.
    change (a ++ String c (p ++ r))%string with (a ++ String c p ++ r)%string.
    rewrite (IH Ha' (i + 1)). unfold len. cbn [String.length]. lia.
Qed.

Lemma find_backslash (t r : string) :
  all plain t = true ->
  forall i, find_at "\" i (t ++ String "\" r) = i + len t.
Proof.
  induction t as [|c t IH]; intros H i.
  - change (EmptyString ++ String "\" r)%string with (String "\" r).
    cbn [find_at starts_with Ascii.eqb Bool.eqb]. unfold len. cbn. lia.
  - cbn [all] in H. apply andb_prop in H as [Hc Ht].
    change (String c t ++ String "\" r)%string with (String c (t ++ String "\" r)).
    cbn [find_at starts_with].
    replace (Ascii.eqb "\" c) with false.
    + rewrite (IH Ht). unfold len. cbn [String.length]. lia.
    + destruct c as [[] [] [] [] [] [] [] []]; vm_compute in Hc; try discriminate Hc;
        reflexivity.
Qed.

Lemma drop_app (a t : string) : drop (String.length a) (a ++ t) = t.
Proof. induction a as [|x a IH]; [reflexivity|exact IH]. Qed.

Lemma take_app (a t : string) : take (String.length a) (a ++ t) = a.
Proof.
  induction a as [|x a IH]; [destruct t; reflexivity|].
  change (take (String.length (String x a)) (String x a ++ t))
    with (String x (take (String.length a) (a ++ t))).
  rewrite IH. reflexivity.
Qed.

Lemma length_app_string (a t : string) :
  String.length (a ++ t) = (String.length a + String.length t)%nat.
Proof.
  induction a as [|c a IH]; [reflexivity|].
  change (String.length (String c a ++ t)) with (S (String.length (a ++ t))).
  rewrite IH. reflexivity.
Qed.

(** [s[len(a) : len(a)+len(b)]] of [a ++ b ++ c] is [b]. *)
Lemma slice_middle (a b c : string) :
  slice (a ++ b ++ c) (len a) (len a + len b) = b.
Proof.
  unfold slice, bound, len. rewrite !length_app_string.
  replace (Z.of_nat (String.length a) <? 0) with false by (symmetry; apply Z.ltb_ge; lia).
  replace (Z.of_nat (String.length a) + Z.of_nat (String.length b) <? 0) with false
    by (symmetry; apply Z.ltb_ge; lia).
  rewrite !Z.min_r, !Z.max_r by lia.
  replace (Z.to_nat (Z.of_nat (String.length a) + Z.of_nat (String.length b)
                     - Z.of_nat (String.length a))) with (String.length b) by lia.
  rewrite Nat2Z.id, drop_app, take_app. reflexivity.
Qed.

Lemma slice_from_app (a t : string) : slice_from (a ++ t) (len a) = t.
Proof.
  unfold slice_from, bound, len. rewrite length_app_string.
  replace (Z.of_nat (String.length a) <? 0) with false by (symmetry; apply Z.ltb_ge; lia).
  rewrite Z.min_r, Z.max_r by lia. rewrite Nat2Z.id. apply drop_app.
Qed.

Lemma take_all (n : nat) (t : string) : (String.length t <= n)%nat -> take n t = t.
Proof.
  revert n. induction t as [|c t IH]; intros n H; [destruct n; reflexivity|].
  destruct n as [|n]; [cbn in H; lia|]. cbn [take]. rewrite IH; [reflexivity|cbn in H; lia].
Qed.

Lemma digit_plain (t : string) : all is_digit t = true -> all plain t = true.
Proof.
  induction t as [|c t IH]; intros H; [reflexivity|].
  cbn [all] in H |- *. apply andb_prop in H as [Hc Ht]. rewrite (IH Ht), andb_true_r.
  destruct c as [[] [] [] [] [] [] [] []]; vm_compute in Hc; try discriminate Hc; reflexivity.
Qed.

Lemma contains_app_r (p a t : string) :
  contains p t = true -> contains p (a ++ t) = true.
Proof.
  intros H. induction a as [|x a IH]; [exact H|].
  change (String x a ++ t)%string with (String x (a ++ t)).
  cbn [contains]. destruct (starts_with p (String x (a ++ t))); [reflexivity|exact IH].
Qed.

(** The value of a token in a header text of the form
    [front ++ token ++ value ++ "\r..."]. *)
Lemma token_value_at (front token value rest cell : string) :
  fresh_head token = true -> all plain token = true -> all plain value = true ->
  (String.length value <= 32)%nat ->
  contains token front = false ->
  token_value (front ++ token ++ value ++ String "\" rest) token cell = value.
Proof.
  intros Hf Ht Hv Hlen Hno.
  set (H := (front ++ token ++ value ++ String "\" rest)%string).
  assert (E1 : contains token H = true)
    by (apply contains_app_r, contains_here, starts_with_app).
  assert (E2 : find token H = len front).
  { unfold find, H. rewrite (find_at_first token front _ Hf Hno 0). lia. }
  assert (E3 : slice_from H (len front) = (token ++ value ++ String "\" rest)%string)
    by apply slice_from_app.
  assert (E4 : find "\" (token ++ value ++ String "\" rest) = len token + len value).
  { unfold find. rewrite <- app_assoc_string.
    rewrite (find_backslash (token ++ value) rest) by (rewrite all_app, Ht, Hv; reflexivity).
    unfold len. rewrite length_app_string. lia. }
  assert (E5 : slice H (len front + len token) (len token + len value + len front) = value).
  { unfold H. rewrite <- (app_assoc_string front token).
    replace (len front + len token) with (len (front ++ token))
      by (unfold len; rewrite length_app_string; lia).
    replace (len token + len value + len front) with (len (front ++ token) + len value)
      by (unfold len; rewrite !length_app_string; lia).
    apply slice_middle. }
  unfold token_value. rewrite E1. cbv zeta. rewrite E2, E3, E4, E5.
  unfold u32. apply take_all. exact Hlen.
Qed.

(** X19. A token line of the file is read back from the header text: when
    the file holds, after bytes whose rendering does not contain the
    token name, the name of one of the two tokens, a value made of at most
    32 decimal digits and a carriage return, and the header is read in
    full ([max_header_len] is [-1], or at least the length of the file
    and at most the default 2000), the value [update_parameters] takes
    for the token is that value.  The carriage return is what ends it:
    [str] has written it as a backslash escape, and the value is cut at
    the first backslash. *)
Theorem header_token_value (pre post : list Byte.byte) (token value cell : string)
    (max_header_len : Z) (s : pyobj) :
  let raw := (pre ++ list_byte_of_string token ++ list_byte_of_string value
              ++ CR :: post)%list in
  In token tokens ->
  all is_digit value = true ->
  (String.length value <= 32)%nat ->
  contains token (render (quote_of raw) pre) = false ->
  max_header_len = -1 \/ Z.of_nat (length raw) <= max_header_len <= default_len ->
  exists header,
    read_header raw max_header_len s = (Ok tt, <["header" := VStr header]> s) /\
    token_value header token cell = value.
Proof.
  intros raw Htok Hdig Hlen Hno Hmax.
  assert (Hread : read raw max_header_len = Ok raw).
  { unfold read, default_len in *.
    replace ((max_header_len <? - 2 ^ 63) || (2 ^ 63 - 33 <=? max_header_len)) with false
      by (symmetry; apply orb_false_intro; [apply Z.ltb_ge|apply Z.leb_gt]; lia).
    replace (max_header_len <? -1) with false by (symmetry; apply Z.ltb_ge; lia).
    destruct Hmax as [->|H]; [reflexivity|].
    replace (max_header_len =? -1) with false by (symmetry; apply Z.eqb_neq; lia).
    rewrite firstn_all2 by lia. reflexivity. }
  unfold read_header. rewrite Hread.
  eexists. split; [reflexivity|].
  unfold repr.
  set (q := quote_of raw) in *.
  assert (Hq : q = "'"%char \/ q = "034"%char) by apply quote_of_cases.
  assert (Htp : fresh_head token = true /\ all plain token = true).
  { destruct Htok as [<-|[<-|[]]]; split; reflexivity. }
  destruct Htp as [Hfresh Hplain].
  assert (Hrender : render q raw
                    = (render q pre ++ token ++ value ++ String "\" (String "r" (render q post)))%string).
  { unfold raw. rewrite !render_app, !render_plain by (auto using digit_plain).
    cbn [render]. replace (escape q CR) with "\r"%string
      by (destruct Hq as [-> | ->]; reflexivity).
    reflexivity. }
  rewrite Hrender.
  rewrite !app_assoc_string.
  change (String "b" (String q (render q pre ++ token ++ value
            ++ String "\" (String "r" (render q post)) ++ String q EmptyString)))%string
    with ((String "b" (String q (render q pre))) ++ token ++ value
            ++ String "\" (String "r" (render q post ++ String q EmptyString)))%string.
  apply token_value_at; try assumption; [apply digit_plain; exact Hdig|].
  cbn [contains]. rewrite Hno.
  assert (H1 : starts_with token (String "b" (String q (render q pre))) = false).
  { destruct Htok as [<-|[<-|[]]]; reflexivity. }
  assert (H2 : starts_with token (String q (render q pre)) = false).
  { destruct Htok as [<-|[<-|[]]]; destruct Hq as [-> | ->]; reflexivity. }
  rewrite H1, H2. reflexivity.
Qed.

Lemma header_token_value_witness :
  exists header,
    read_header (example_file "00080000" "1" "40000") 2000 init
    = (Ok tt, <["header" := VStr header]> init) /\
    token_value header "N_ADC_SAMPLES=" "0.0" = "40000".
Proof.
  apply (header_token_value
           (line (quoted "Reg01" "00080000") ++ line (quoted "Reg0B" "6666666633333333") ++
            line (quoted "Reg0C" "0000000100000001") ++ line (quoted "Reg0D" "00010001") ++
            line "SamplingFreqMode=1")%list
           [Byte.x0a] "N_ADC_SAMPLES=" "40000" "0.0" 2000 init).
  - right. left. reflexivity.
  - reflexivity.
  - vm_compute. lia.
  - vm_compute. reflexivity.
  - right. vm_compute. split; discriminate.
Defined.

(** The example file is a file of the header used in the examples. *)
Lemma example_file_header :
  outcome (read_header (example_file "00080000" "1" "40000") 2000 init) = Ok tt /\
  final (read_header (example_file "00080000" "1" "40000") 2000 init)
  = with_header (example_header "00080000" "1" "40000").
Proof. split; vm_compute; reflexivity. Qed.

End HeaderText.

(** ** load_UoA_mat: the channel number read from the file name *)

Section UoAChannel.
Import UoA.
Local Open Scope list_scope.

Variable todecimal : Z -> option Z.

Lemma name_eqb_refl (a : str) : eqb a a = true.
Proof. induction a as [|x a IH]; [reflexivity|]. cbn [eqb]. rewrite Z.eqb_refl. exact IH. Qed.

Lemma name_starts_with_app (p t : str) : starts_with p (p ++ t) = true.
Proof.
  induction p as [|x p IH]; [reflexivity|]. cbn [app starts_with].
  rewrite Z.eqb_refl. exact IH.
Qed.

Lemma name_contains_here (p s : str) : starts_with p s = true -> contains p s = true.
Proof. intros H. destruct s; cbn [contains]; rewrite H; reflexivity. Qed.

Lemma name_contains_app_r (p a t : str) : contains p t = true -> contains p (a ++ t) = true.
Proof.
  intros H. induction a as [|x a IH]; [exact H|].
  cbn [app contains]. destruct (starts_with p (x :: a ++ t)); [reflexivity|exact IH].
Qed.

(** An occurrence of [p] that starts before an occurrence whose first
    character is met nowhere else in [p] ends before it. *)
Lemma name_starts_with_before (c : Z) (p q t : str) :
  forallb (fun d => negb (c =? d)) p = true ->
  starts_with p (q ++ c :: t) = true -> starts_with p q = true.
Proof.
  revert q. induction p as [|y p IH]; intros q Hp H; [reflexivity|].
  cbn [forallb] in Hp. apply andb_prop in Hp as [Hy Hp].
  destruct q as [|z q].
  - cbn [app starts_with] in H. rewrite Z.eqb_sym in H.
    destruct (c =? y); [discriminate Hy|discriminate H].
  - cbn [app starts_with] in H |- *.
    destruct (y =? z); [|discriminate H]. apply (IH q Hp H).
Qed.

Lemma name_find_at_first (p a r : str) :
  fresh_head p = true -> contains p a = false ->
  forall i, find_at p i (a ++ p ++ r) = Some (i + len a).
Proof.
  intros Hp. destruct p as [|c p]; [discriminate Hp|]. cbn [fresh_head] in Hp.
  induction a as [|x a IH]; intros Ha i.
  - pose proof (name_starts_with_app (c :: p) r) as E.
    change ([] ++ (c :: p) ++ r) with (c :: (p ++ r)).
    change ((c :: p) ++ r) with (c :: (p ++ r)) in E.
    cbn [find_at]. rewrite E. unfold len. cbn [length]. f_equal. lia.
  - assert (Hx : starts_with (c :: p) (x :: a) = false /\ contains (c :: p) a = false).
    { cbn [contains] in Ha. destruct (starts_with (c :: p) (x :: a)); [discriminate|].
      auto. }
    destruct Hx as [Hx Ha'].
    assert (E : starts_with (c :: p) ((x :: a) ++ (c :: p) ++ r) = false).
    { destruct (starts_with (c :: p) ((x :: a) ++ (c :: p) ++ r)) eqn:E; [|reflexivity].
      cbn [app starts_with] in E, Hx.
      destruct (c =? x); [|discriminate E].
      rewrite (name_starts_with_before c p a (p ++ r) Hp E) in Hx. discriminate Hx. }
    change ((x :: a) ++ (c :: p) ++ r) with (x :: (a ++ (c :: p) ++ r)) in *.
    cbn [find_at]. rewrite E.
    rewrite (IH Ha' (i + 1)). unfold len. cbn [length]. f_equal. lia.
Qed.

(** The character [n] places into the text after [a]. *)
Lemma name_index_after (a t : str) (n : nat) :
  index (a ++ t) (len a + Z.of_nat n)
  = match nth_error t n with
    | Some c => Ok c
    | None => Raise IndexError
    end.
Proof.
  unfold index, len. rewrite length_app.
  assert (E : (Z.of_nat (length a) + Z.of_nat n <? 0) = false) by (apply Z.ltb_ge; lia).
  rewrite E. cbv beta iota zeta. rewrite E. cbn [orb].
  replace (Z.to_nat (Z.of_nat (length a) + Z.of_nat n)) with (length a + n)%nat by lia.
  rewrite nth_error_app2 by lia.
  replace (length a + n - length a)%nat with n by lia.
  destruct (Z.leb_spec (Z.of_nat (length a + length t)) (Z.of_nat (length a) + Z.of_nat n))
    as [H|H]; [|reflexivity].
  assert (Hn : nth_error t n = None) by (apply nth_error_None; lia).
  rewrite Hn. reflexivity.
Qed.

Lemma name_after_tag_at (tag pre t : str) (skip : nat) :
  fresh_head tag = true -> contains tag pre = false ->
  after_tag todecimal tag (Z.of_nat skip) (pre ++ tag ++ t)
  = match nth_error (tag ++ t) skip with
    | Some c => int_of_char todecimal c
    | None => Raise IndexError
    end.
Proof.
  intros Hf Hno. unfold after_tag, str_index.
  rewrite (name_find_at_first tag pre t Hf Hno 0). rewrite Z.add_0_l.
  unfold digit_at. rewrite name_index_after.
  destruct (nth_error (tag ++ t) skip); reflexivity.
Qed.

Lemma name_digit_at_range (s : str) (i z : Z) :
  (forall c d, todecimal c = Some d -> 0 <= d <= 9) ->
  digit_at todecimal s i = Ok z -> 0 <= z <= 9.
Proof.
  intros Hrange. unfold digit_at, int_of_char.
  destruct (index s i) as [c|e]; [|discriminate].
  destruct (todecimal c) as [d|] eqn:E; [|discriminate].
  intros H. inversion H; subst. exact (Hrange c z E).
Qed.

Lemma name_slice_from_files (stem : str) :
  slice_from (stem ++ lit "_files.mat") (-10) = lit "_files.mat".
Proof.
  unfold slice_from, PyStr.bound, len. rewrite length_app.
  change (length (lit "_files.mat")) with 10%nat. cbn [Z.ltb Z.compare].
  rewrite Z.min_r, Z.max_r by lia.
  replace (Z.to_nat (-10 + Z.of_nat (length stem + 10))) with (length stem + 0)%nat by lia.
  rewrite skipn_app.
  replace (length stem + 0 - length stem)%nat with 0%nat by lia.
  rewrite skipn_all2 by lia. reflexivity.
Qed.

(** X20. The channel number [load_UoA_mat] takes from a file name is
    999, 10 or a single decimal digit: whenever the name gives a channel
    at all, it is one of these twelve values, whatever characters the
    name holds.  (The value [int()] gives a digit of any script is from
    0 to 9.) *)
Theorem uoa_channel_values (fn_mat : str) (c : Z) :
  (forall u d, todecimal u = Some d -> 0 <= d <= 9) ->
  chan_of_name todecimal fn_mat = Ok c -> c = 999 \/ c = 10 \/ 0 <= c <= 9.
Proof.
  intros Hrange. unfold chan_of_name, after_tag.
  destruct (eqb _ _); [intros H; inversion H; auto|].
  destruct (contains (lit "hannel") fn_mat).
  { destruct (str_index (lit "hannel") fn_mat); [|discriminate].
    intros H. apply (name_digit_at_range _ _ _ Hrange) in H. auto. }
  destruct (contains (lit "Ch") fn_mat).
  { destruct (str_index (lit "Ch") fn_mat); [|discriminate].
    intros H. apply (name_digit_at_range _ _ _ Hrange) in H. auto. }
  intros H. inversion H; auto.
Qed.

(** X21. A name that ends in [_files.mat] gives channel 999 whatever
    comes before: a channel tag in such a name is not looked at. *)
Theorem uoa_files_suffix_first (stem : str) :
  chan_of_name todecimal (stem ++ lit "_files.mat") = Ok 999.
Proof. unfold chan_of_name. rewrite name_slice_from_files, name_eqb_refl. reflexivity. Qed.

(** X22. What follows the tag decides.  In a name that does not end in
    [_files.mat] and holds [hannel], the character right after the first
    [hannel] is read by [int()]: a decimal digit of any script gives its
    value as the channel (one digit only: [Channel12] is channel 1), any
    other character fails with [ValueError], and a name that ends with
    the tag fails with [IndexError].  [Ch] is looked for in the same way,
    two places on, only in a name without [hannel]. *)
Theorem uoa_channel_after_tag (pre rest : str) (c : Z) :
  (contains (lit "hannel") pre = false ->
   eqb (slice_from (pre ++ lit "hannel" ++ c :: rest) (-10)) (lit "_files.mat") = false ->
   chan_of_name todecimal (pre ++ lit "hannel" ++ c :: rest)
   = match todecimal c with Some d => Ok d | None => Raise ValueError end) /\
  (contains (lit "hannel") pre = false ->
   eqb (slice_from (pre ++ lit "hannel") (-10)) (lit "_files.mat") = false ->
   chan_of_name todecimal (pre ++ lit "hannel") = Raise IndexError) /\
  (contains (lit "Ch") pre = false ->
   contains (lit "hannel") (pre ++ lit "Ch" ++ c :: rest) = false ->
   eqb (slice_from (pre ++ lit "Ch" ++ c :: rest) (-10)) (lit "_files.mat") = false ->
   chan_of_name todecimal (pre ++ lit "Ch" ++ c :: rest)
   = match todecimal c with Some d => Ok d | None => Raise ValueError end).
Proof.
  split; [|split].
  - intros Hno Hsuf. unfold chan_of_name. rewrite Hsuf.
    rewrite name_contains_app_r by (apply name_contains_here, name_starts_with_app).
    change 6 with (Z.of_nat 6).
    rewrite (name_after_tag_at (lit "hannel") pre (c :: rest) 6 eq_refl Hno). reflexivity.
  - intros Hno Hsuf. unfold chan_of_name. rewrite Hsuf.
    rewrite name_contains_app_r by reflexivity.
    change 6 with (Z.of_nat 6).
    rewrite <- (app_nil_r (lit "hannel")) at 2.
    rewrite (name_after_tag_at (lit "hannel") pre [] 6 eq_refl Hno). reflexivity.
  - intros Hno Hnone Hsuf. unfold chan_of_name. rewrite Hsuf, Hnone.
    rewrite name_contains_app_r by (apply name_contains_here, name_starts_with_app).
    change 2 with (Z.of_nat 2).
    rewrite (name_after_tag_at (lit "Ch") pre (c :: rest) 2 eq_refl Hno). reflexivity.
Qed.

End UoAChannel.

Section UoAExamples.
Import UoA.
Local Open Scope list_scope.

Lemma decimal_1_1_table : decimal_table decimal_1_1.
Proof.
  split.
  - intros c d. unfold decimal_1_1.
    destruct ((48 <=? c) && (c <=? 57)) eqn:E1;
      [|destruct ((0x660 <=? c) && (c <=? 0x669)) eqn:E2;
        [|destruct ((0x6F0 <=? c) && (c <=? 0x6F9)) eqn:E3]];
      intros H; inversion H; subst; lia.
  - intros c Hc. unfold decimal_1_1.
    destruct ((48 <=? c) && (c <=? 57)); [reflexivity|].
    replace ((0x660 <=? c) && (c <=? 0x669)) with false by lia.
    replace ((0x6F0 <=? c) && (c <=? 0x6F9)) with false by lia.
    reflexivity.
Qed.

Lemma uoa_channel_values_witness :
  chan_of_name decimal_1_1 (lit "line7_Channel" ++ [0x663] ++ lit ".mat") = Ok 3 /\
  (3 = 999 \/ 3 = 10 \/ 0 <= 3 <= 9).
Proof.
  split; [reflexivity|].
  apply (uoa_channel_values decimal_1_1 (lit "line7_Channel" ++ [0x663] ++ lit ".mat") 3).
  - apply decimal_1_1_table.
  - reflexivity.
Defined.

Lemma uoa_channel_after_tag_witness :
  chan_of_name decimal_1_1 (lit "line_Channel12.mat") = Ok 1 /\
  chan_of_name decimal_1_1 (lit "line_Channel" ++ [0x663]) = Ok 3 /\
  chan_of_name decimal_1_1 (lit "line_Channel") = Raise IndexError /\
  chan_of_name decimal_1_1 (lit "Chile/line_Ch2.mat") = Raise ValueError.
Proof.
  pose proof (uoa_channel_after_tag decimal_1_1 (lit "line_C") (lit "2.mat") 49) as (H1 & _ & _).
  pose proof (uoa_channel_after_tag decimal_1_1 (lit "line_C") [] 0x663) as (H1' & _ & _).
  pose proof (uoa_channel_after_tag decimal_1_1 (lit "line_C") [] 0) as (_ & H2 & _).
  pose proof (uoa_channel_after_tag decimal_1_1 [] (lit "le/line_Ch2.mat") 105) as (_ & _ & H3).
  split; [|split; [|split]].
  - apply H1; reflexivity.
  - apply H1'; reflexivity.
  - apply H2; reflexivity.
  - apply H3; reflexivity.
Defined.

End UoAExamples.

(** ** load_mcords: the start day *)

Section McordsStart.
Import PyStr Calendar Mcords.

Lemma reads_back_years : reads_back 4 10000 = true.
Proof. vm_compute. reflexivity. Qed.

Lemma reads_back_months : reads_back 2 100 = true.
Proof. vm_compute. reflexivity. Qed.

Lemma reads_back_spec (width : nat) (n v : Z) :
  reads_back width n = true -> 0 <= v < n -> int_of 10 (padded width v) = Ok v.
Proof.
  unfold reads_back, below. intros Hall Hv. rewrite forallb_forall in Hall.
  assert (Hin : In v (Layout.count_from 0 (Z.to_nat n)))
    by (apply count_from_In; rewrite Z2Nat.id; lia).
  specialize (Hall v Hin).
  destruct (int_of 10 (padded width v)) as [v'|e]; [|discriminate].
  apply Z.eqb_eq in Hall. congruence.
Qed.

Lemma length_padded (width : nat) : forall n, String.length (padded width n) = width.
Proof.
  induction width as [|w IH]; intros n; [reflexivity|].
  cbn [padded]. rewrite length_app_string, IH. cbn [String.length]. lia.
Qed.

Lemma days_in_month_max (y m : Z) : days_in_month y m <= 31.
Proof.
  unfold days_in_month. destruct ((m =? 2) && is_leap y); [lia|].
  destruct (Z.to_nat m) as [|[|[|[|[|[|[|[|[|[|[|[|[|k]]]]]]]]]]]]]; cbn [nth]; try lia.
  destruct k; cbn; lia.
Qed.

(** X23. [load_mcords_nc] cuts the date out of fixed columns of the
    units text.  For a units text of the form
    [seconds since YYYY-MM-DD...], with any valid date, the three numbers
    are read back as written and the start day is the ordinal of that
    date plus 366, its MATLAB date number. *)
Theorem mcords_units_start_day (y m d : Z) (clock : string) :
  valid_date y m d = true ->
  start_day_nc (units_since y m d clock)
  = Ok (PrimFloat.add (Bin.Z2F (days_before_year y + days_before_month y m + d)) 366%float).
Proof.
  intros Hv. pose proof Hv as Hv'. unfold valid_date in Hv'.
  repeat (apply andb_prop in Hv' as [Hv' ?]).
  repeat match goal with H : (_ <=? _) = true |- _ => apply Z.leb_le in H end.
  pose proof (days_in_month_max y m) as Hmax.
  assert (E1 : slice (units_since y m d clock) 14 18 = padded 4 y).
  { unfold units_since.
    change 14 with (len "seconds since "). change 18 with (len "seconds since " + 4).
    rewrite <- (length_padded 4 y) at 2.
    change (Z.of_nat (String.length (padded 4 y))) with (len (padded 4 y)).
    apply slice_middle. }
  assert (E2 : slice (units_since y m d clock) 19 21 = padded 2 m).
  { unfold units_since.
    replace ("seconds since " ++ padded 4 y ++ "-" ++ padded 2 m ++ "-" ++ padded 2 d ++ clock)%string
      with (("seconds since " ++ padded 4 y ++ "-") ++ padded 2 m ++ "-" ++ padded 2 d ++ clock)%string
      by (rewrite !app_assoc_string; reflexivity).
    replace 19 with (len ("seconds since " ++ padded 4 y ++ "-"))
      by (unfold len; rewrite !length_app_string, length_padded; reflexivity).
    replace 21 with (len ("seconds since " ++ padded 4 y ++ "-") + len (padded 2 m))
      by (unfold len; rewrite !length_app_string, !length_padded; reflexivity).
    apply slice_middle. }
  assert (E3 : slice (units_since y m d clock) 22 24 = padded 2 d).
  { unfold units_since.
    replace ("seconds since " ++ padded 4 y ++ "-" ++ padded 2 m ++ "-" ++ padded 2 d ++ clock)%string
      with (("seconds since " ++ padded 4 y ++ "-" ++ padded 2 m ++ "-") ++ padded 2 d ++ clock)%string
      by (rewrite !app_assoc_string; reflexivity).
    replace 22 with (len ("seconds since " ++ padded 4 y ++ "-" ++ padded 2 m ++ "-"))
      by (unfold len; rewrite !length_app_string, !length_padded; reflexivity).
    replace 24 with (len ("seconds since " ++ padded 4 y ++ "-" ++ padded 2 m ++ "-")
                     + len (padded 2 d))
      by (unfold len; rewrite !length_app_string, !length_padded; reflexivity).
    apply slice_middle. }
  unfold start_day_nc. rewrite E1, E2, E3.
  rewrite (reads_back_spec 4 10000 y reads_back_years) by lia.
  rewrite (reads_back_spec 2 100 m reads_back_months) by lia.
  rewrite (reads_back_spec 2 100 d reads_back_months) by lia.
  unfold toordinal. rewrite Hv. reflexivity.
Qed.

Lemma mcords_units_start_day_witness :
  start_day_nc "seconds since 1970-01-01 00:00:00" = start_day_mat /\
  start_day_mat = Ok 719529%float.
Proof.
  split; [|vm_compute; reflexivity].
  exact (mcords_units_start_day 1970 1 1 " 00:00:00" eq_refl).
Defined.

End McordsStart.

(** ** plot: what is forwarded to the drawing functions *)

Section PlotCalls.
Import Plot.
Local Open Scope list_scope.

Context {dat fig tr_arg : Type}.
Variable w : @world dat fig tr_arg.

Local Abbreviation call := (@Plot.call dat fig tr_arg).
Local Abbreviation P := (@Plot.P dat fig tr_arg).

(** The log only grows, by the calls of the elements. *)
Lemma each_log {A B} (f : A -> P B) (Q : call -> Prop) (l : list A) :
  (forall a log, exists added, snd (f a log) = log ++ added /\ Forall Q added) ->
  forall log, exists added, snd (each f l log) = log ++ added /\ Forall Q added.
Proof.
  intros Hf. induction l as [|a rest IH]; intros log.
  - exists []. split; [symmetry; apply app_nil_r|constructor].
  - cbn [each]. unfold bind at 1.
    destruct (Hf a log) as (add1 & E1 & Q1).
    destruct (f a log) as [[b|e] log1]; cbn [snd] in E1; subst log1.
    + unfold bind. destruct (IH (log ++ add1)) as (add2 & E2 & Q2).
      destruct (each f rest (log ++ add1)) as [[bs|e] log2]; cbn [snd] in E2; subst log2;
        exists (add1 ++ add2); cbn [ret snd]; rewrite app_assoc;
        (split; [reflexivity|apply Forall_app; auto]).
    + exists add1. split; [reflexivity|exact Q1].
Qed.

Lemma made_log {A} (c : call) (answer : list call -> result A) (Q : call -> Prop) :
  Q c -> forall log, exists added, snd (made c answer log) = log ++ added /\ Forall Q added.
Proof. intros Hc log. exists [c]. split; [reflexivity|]. constructor; [exact Hc|constructor]. Qed.

(** X24. [plot] does not pass the caller's [x_range] on.  With [gssi]
    and [pe] both set it raises [ValueError] before anything is loaded.
    Otherwise the first call is [load], with the kind chosen, and every
    call of [plot_radargram] is made with [x_range=None], with
    [interactive = not s] and with axis names that [plot_radargram]
    accepts; neither the calls made nor the outcome depend on
    [x_range]. *)
Theorem plot_forwards_no_range (fn : list string) (tr : option tr_arg) (gssi pe s : bool)
    (ftype : string) (dpi : Z) (xd yd : bool) (x_range : Z * Z) (log : list call) :
  (gssi && pe = true ->
   plot w fn tr gssi pe s ftype dpi xd yd x_range log = (Raise ValueError, log)) /\
  (gssi && pe = false ->
   exists added,
     snd (plot w fn tr gssi pe s ftype dpi xd yd x_range log)
     = log ++ Load (if gssi then "gssi" else if pe then "pe" else "mat") fn :: added /\
     Forall (forwarded s) added) /\
  (forall x_range',
      plot w fn tr gssi pe s ftype dpi xd yd x_range' log
      = plot w fn tr gssi pe s ftype dpi xd yd x_range log).
Proof.
  split; [|split].
  - intros E. unfold plot. rewrite E. reflexivity.
  - intros E. unfold plot. rewrite E.
    set (kind := if gssi then "gssi" else if pe then "pe" else "mat"). cbv zeta.
    unfold bind at 1. unfold made at 1.
    destruct (load w log kind fn) as [radar_data|e];
      [|exists []; split; [reflexivity|constructor]].
    set (log1 := log ++ [Load kind fn]).
    assert (Hfigs : forall (m : P (list fig)),
               (exists add1, snd (m log1) = log1 ++ add1 /\ Forall (forwarded s) add1) ->
               exists added,
                 snd (bind m (fun figs =>
                        if s then
                          bind (each (fun p : fig * string =>
                                        made (Savefig (fst p) (stem w (snd p) ++ "." ++ ftype)%string dpi)
                                          (fun log0 => savefig w log0 (fst p)
                                                         (stem w (snd p) ++ "." ++ ftype)%string dpi))
                                  (combine figs fn)) (fun _ => ret tt)
                        else made Show (show w)) log1)
                 = log ++ Load kind fn :: added /\ Forall (forwarded s) added).
    { intros m (add1 & E1 & Q1). unfold bind at 1.
      destruct (m log1) as [[figs|e] log2]; cbn [snd] in E1; subst log2.
      - destruct s.
        + unfold bind.
          destruct (each_log (fun p : fig * string =>
                                made (Savefig (fst p) (stem w (snd p) ++ "." ++ ftype)%string dpi)
                                  (fun log0 => savefig w log0 (fst p)
                                                 (stem w (snd p) ++ "." ++ ftype)%string dpi))
                      (forwarded true) (combine figs fn)
                      ltac:(intros a l0; apply made_log; exact I) (log1 ++ add1))
            as (add2 & E2 & Q2).
          destruct (each _ (combine figs fn) (log1 ++ add1)) as [[u|e] log3];
            cbn [snd] in E2; subst log3; exists (add1 ++ add2); cbn [ret snd];
            unfold log1; rewrite <- !app_assoc; cbn [app];
            (split; [reflexivity|apply Forall_app; auto]).
        + exists (add1 ++ [Show]). unfold made. cbn [snd]. unfold log1.
          rewrite <- !app_assoc. cbn [app]. split; [reflexivity|].
          apply Forall_app. split; [exact Q1|]. constructor; [exact I|constructor].
      - exists add1. cbn [snd]. unfold log1. rewrite <- app_assoc. cbn [app]. auto. }
    apply Hfigs. destruct tr as [t|].
    + apply each_log. intros d l0. apply made_log. exact I.
    + apply each_log. intros d l0. apply made_log. cbn [forwarded].
      split; [reflexivity|]. split; [reflexivity|].
      unfold xdat_choices, ydat_choices. destruct xd, yd; cbn [In]; auto.
  - intros x_range'. reflexivity.
Qed.

End PlotCalls.

Section PlotExamples.
Import Plot.
Local Open Scope list_scope.

Lemma plot_forwards_no_range_witness :
  (false && false = true ->
   plot echo ["a.mat"; "b.mat"] None false false true "png" 300 false false (0, 2) []
   = (Raise ValueError, [])) /\
  (false && false = false ->
   exists added,
     snd (plot echo ["a.mat"; "b.mat"] None false false true "png" 300 false false (0, 2) [])
     = [] ++ Load "mat" ["a.mat"; "b.mat"] :: added /\
     Forall (forwarded true) added) /\
  (forall x_range',
      plot echo ["a.mat"; "b.mat"] None false false true "png" 300 false false x_range' []
      = plot echo ["a.mat"; "b.mat"] None false false true "png" 300 false false (0, 2) []).
Proof.
  apply (plot_forwards_no_range echo ["a.mat"; "b.mat"] None false false true "png" 300
           false false (0, 2) []).
Defined.

(** The calls of a run that saves two radargrams: the range asked for is
    not among the arguments. *)
Lemma plot_example_calls :
  plot echo ["a.mat"; "b.mat"] None false false true "png" 300 true false (3, 9) []
  = (Ok tt,
     [Load "mat" ["a.mat"; "b.mat"];
      PlotRadargram "a.mat" false "dist" "twtt" None;
      PlotRadargram "b.mat" false "dist" "twtt" None;
      Savefig ("a.mat", None) "a.mat.png" 300;
      Savefig ("b.mat", None) "b.mat.png" 300]).
Proof. reflexivity. Qed.

End PlotExamples.
